(** * Access control and ledger rules of the cashflow backend

    A shallow embedding of the edge functions [cashflow], [users] and [admin]
    and of the row-level-security policies their queries run under, followed
    by the properties of the visibility model, the paid-status transitions,
    the category delete guard, the summary aggregation and the staff flag.

    The [cashflow] handlers are those of the revision that carries the
    payment status ([is_paid], [paid_at]) and the staff view. Tables are lists
    of rows in table order; a handler is a function of the store that returns
    its answer and the store it leaves. *)

From Stdlib Require Import List String ZArith Arith Bool Lia Permutation Btauto Sorted.
From Stdlib Require Import SpecFloat.
Import ListNotations.
Local Open Scope string_scope.
Local Open Scope list_scope.
Local Open Scope nat_scope.

(** ** Data model (the SQL migrations) *)

(** Primary keys are UUIDs; only their equality is ever used. *)
Definition Id := nat.
(** A [DATE] column: calendar days, ordered as their ISO text is. *)
Definition Date := nat.
(** A [TIMESTAMP WITH TIME ZONE] column. *)
Definition Timestamp := nat.
(** [DECIMAL(10,2)]: an amount counted in hundredths. *)
Definition Amount := Z.

(** [CHECK (type IN ('income', 'expense'))] *)
Inductive TxType := income | expense.

Definition type_text (t : TxType) : string :=
  match t with income => "income" | expense => "expense" end.

Definition TxType_eqb (a b : TxType) : bool :=
  match a, b with
  | income, income | expense, expense => true
  | _, _ => false
  end.

(** JSON values of a request body. A string that holds a UUID is kept apart
    from other strings, ids being abstract. *)
#[warnings="-register-all"] Inductive Json :=
| JNull
| JBool (b : bool)
| JNum (z : Z)
| JStr (s : string)
| JUuid (i : Id)
| JObj (fields : list (string * Json)).

(** JavaScript truthiness of a JSON value. *)
Definition truthy (v : Json) : bool :=
  match v with
  | JNull => false
  | JBool b => b
  | JNum z => negb (z =? 0)%Z
  | JStr s => negb (String.eqb s EmptyString)
  | JUuid _ => true
  | JObj _ => true
  end.

(** [public.users]. [is_staff BOOLEAN DEFAULT false] is nullable. The columns
    no handler inspects (avatar_url, bio, phone, ...) are kept by name in
    [u_other]. *)
Record UserRow := mkUser {
  u_id : Id;
  u_email : string;
  u_full_name : string;
  u_username : option string;
  u_is_staff : option bool;
  u_other : list (string * Json)
}.

(** [public.categories]. Every row has an owner ([user_id] is nullable in the
    schema; rows without an owner are left out). *)
Record CategoryRow := mkCategory {
  c_id : Id;
  c_name : string;
  c_type : TxType;
  c_color : string;
  c_icon : string;
  c_user_id : Id
}.

(** [public.transactions], with the [is_paid] and [paid_at] columns of the
    payment-status migration, which sets every null [is_paid] to false. *)
Record TransactionRow := mkTransaction {
  t_id : Id;
  t_user_id : Id;
  t_category_id : option Id;
  t_type : TxType;
  t_amount : Amount;
  t_description : string;
  t_date : Date;
  t_tags : list string;
  t_notes : option string;
  t_is_paid : bool;
  t_paid_at : option Timestamp;
  t_created_at : Timestamp
}.

Record Db := mkDb {
  tbl_users : list UserRow;
  tbl_categories : list CategoryRow;
  tbl_transactions : list TransactionRow
}.

(** ** Clients and row-level security *)

(** [admin] is the service-role client, which bypasses the policies.
    [authedClientFrom h] carries the caller's bearer credential: [Some u] when
    the identity provider resolves it to user [u], [None] otherwise. *)
Inductive Client :=
| admin
| authedClientFrom (authHeader : option Id).

(** The policies [auth.uid() = user_id] (categories, transactions) and
    [auth.uid() = id] (users): one predicate, given the owner column. *)
Definition policy {A : Type} (owner : A -> Id) (c : Client) (r : A) : bool :=
  match c with
  | admin => true
  | authedClientFrom (Some uid) => owner r =? uid
  | authedClientFrom None => false
  end.

(** [public.users] as the last policy migration leaves it: one's own profile
    only, staff rights being left to the service role. *)
Definition from_users (c : Client) (db : Db) : list UserRow :=
  filter (policy u_id c) (tbl_users db).

Definition from_categories (c : Client) (db : Db) : list CategoryRow :=
  filter (policy c_user_id c) (tbl_categories db).

Definition from_transactions (c : Client) (db : Db) : list TransactionRow :=
  filter (policy t_user_id c) (tbl_transactions db).

(** Errors of the store, surfaced by their message; the texts stand for the
    store's own. *)
Definition PgError := string.

Definition PGRST116 : PgError :=
  "JSON object requested, multiple (or no) rows returned".
Definition pg_unique_violation : PgError :=
  "duplicate key value violates unique constraint".
Definition pg_check_violation : PgError :=
  "new row violates check constraint".
Definition pg_fk_violation : PgError :=
  "insert or update violates foreign key constraint".
Definition pg_rls_violation : PgError :=
  "new row violates row-level security policy".
Definition pg_unknown_column : PgError :=
  "Could not find the column in the schema cache".
Definition pg_invalid_input : PgError :=
  "invalid input syntax".
Definition pg_not_null_violation : PgError :=
  "null value in column violates not-null constraint".

(** [.single()] *)
Definition single {A : Type} (rows : list A) : PgError + A :=
  match rows with
  | [r] => inr r
  | _ => inl PGRST116
  end.

(** [.order(...)]: a stable insertion sort; rows that tie keep table order. *)
Fixpoint insert_by {A : Type} (le : A -> A -> bool) (x : A) (l : list A) : list A :=
  match l with
  | [] => [x]
  | y :: l' => if le x y then x :: l else y :: insert_by le x l'
  end.

Definition order_by {A : Type} (le : A -> A -> bool) (l : list A) : list A :=
  fold_right (insert_by le) [] l.

(** [.range(from, from + limit - 1)] *)
Definition range {A : Type} (offset limit : nat) (l : list A) : list A :=
  firstn limit (skipn offset l).

(** ** Handlers: errors and state *)

Record HttpError := mkHttpError { status : nat; message : string }.

(** A handler reads and writes the store and either throws an [HttpError] or
    returns. *)
Definition Handler (A : Type) : Type := Db -> (HttpError + A) * Db.

Definition ret {A : Type} (a : A) : Handler A := fun db => (inr a, db).

Definition throw {A : Type} (e : HttpError) : Handler A := fun db => (inl e, db).

Definition bind {A B : Type} (m : Handler A) (k : A -> Handler B) : Handler B :=
  fun db =>
    match m db with
    | (inl e, db') => (inl e, db')
    | (inr a, db') => k a db'
    end.

(** A store call that only reads. *)
Definition query {A : Type} (q : Db -> A) : Handler A := fun db => (inr (q db), db).

(** A store call that writes; on a store error nothing is written. *)
Definition mutate {A : Type} (w : Db -> PgError + A * Db) : Handler (PgError + A) :=
  fun db =>
    match w db with
    | inl e => (inr (inl e), db)
    | inr (a, db') => (inr (inr a), db')
    end.

Declare Scope handler_scope.
Delimit Scope handler_scope with handler.
Notation "x <- m ;; k" := (bind m (fun x => k))
  (at level 100, m at next level, right associativity) : handler_scope.
Notation "m ;;; k" := (bind m (fun _ => k))
  (at level 100, right associativity) : handler_scope.
Local Open Scope handler_scope.

(** [if (error) throw new HttpError(status, error.message)] *)
Definition orThrow {A : Type} (st : nat) (r : PgError + A) : Handler A :=
  match r with
  | inl e => throw (mkHttpError st e)
  | inr a => ret a
  end.

(** [if (error || !data) throw new HttpError(status, msg)] *)
Definition orThrowMsg {A : Type} (st : nat) (msg : string) (r : PgError + A) : Handler A :=
  match r with
  | inl _ => throw (mkHttpError st msg)
  | inr a => ret a
  end.

Definition pg_map {A B : Type} (f : A -> B) (r : PgError + A) : PgError + B :=
  match r with
  | inl e => inl e
  | inr a => inr (f a)
  end.

(** The success envelope [{success: true, data, count?, message?}]. *)
Record Envelope (A : Type) := mkEnvelope {
  data : A;
  count : option nat;
  message_of : string
}.
Arguments mkEnvelope {A}.
Arguments data {A}.
Arguments count {A}.
Arguments message_of {A}.

Definition success {A : Type} (d : A) (msg : string) : Envelope A :=
  mkEnvelope d None msg.
Definition successList {A : Type} (items : list A) (msg : string) : Envelope (list A) :=
  mkEnvelope items (Some (List.length items)) msg.
Definition successItem {A : Type} (item : A) (msg : string) : Envelope A :=
  mkEnvelope item None msg.
Definition successMessage (msg : string) : Envelope unit :=
  mkEnvelope tt None msg.

(** [requireAuth]: the identity provider resolves the credential or the
    request is rejected. *)
Definition requireAuth (authed : Client) : Handler Id :=
  match authed with
  | authedClientFrom (Some user) => ret user
  | _ => throw (mkHttpError 401 "Unauthorized")
  end.

(** [select('id, email, full_name, is_staff')] *)
Record UserInfo := mkUserInfo {
  ui_id : Id;
  ui_email : string;
  ui_full_name : string;
  ui_is_staff : option bool
}.

Definition user_info (u : UserRow) : UserInfo :=
  mkUserInfo (u_id u) (u_email u) (u_full_name u) (u_is_staff u).

(** [from('users').select('is_staff').eq('id', user.id).single()] *)
Definition select_is_staff (c : Client) (user : Id) (db : Db) : PgError + option bool :=
  pg_map u_is_staff (single (filter (fun u => u_id u =? user) (from_users c db))).

(** [from('users').select('id, email, full_name, is_staff').eq('id', id).single()] *)
Definition select_user_info (c : Client) (id : Id) (db : Db) : PgError + UserInfo :=
  pg_map user_info (single (filter (fun u => u_id u =? id) (from_users c db))).

(** [userData?.is_staff] as a condition *)
Definition is_true (b : option bool) : bool :=
  match b with
  | Some true => true
  | _ => false
  end.

(** [requireFields]: a field is missing when it is undefined, null or the
    empty string; [obj] pairs each required field with whether it is given. *)
Definition requireFields (obj : list (string * bool)) : Handler unit :=
  let missing := map fst (filter (fun f => negb (snd f)) obj) in
  match missing with
  | [] => ret tt
  | _ => throw (mkHttpError 400
           (String.append "Parâmetros obrigatórios ausentes: " (String.concat ", " missing)))
  end.

Definition given {A : Type} (o : option A) : bool :=
  match o with Some _ => true | None => false end.

Definition given_text (o : option string) : bool :=
  match o with Some s => negb (String.eqb s EmptyString) | None => false end.

Definition opt_eqb (o : option Id) (i : Id) : bool :=
  match o with Some j => j =? i | None => false end.

(** ** Writes to [categories] and [transactions] *)

(** Column setters. *)
Definition set_category_id (c : option Id) (t : TransactionRow) : TransactionRow :=
  mkTransaction (t_id t) (t_user_id t) c (t_type t) (t_amount t) (t_description t)
    (t_date t) (t_tags t) (t_notes t) (t_is_paid t) (t_paid_at t) (t_created_at t).

(** The object handed to [.update(...)] on transactions: the columns it
    assigns. *)
Record UpdateData := mkUpdateData {
  ud_type : option TxType;
  ud_amount : option Amount;
  ud_description : option string;
  ud_date : option Date;
  ud_category_id : option Id;
  ud_tags : option (list string);
  ud_notes : option string;
  ud_is_paid : option bool;
  ud_paid_at : option (option Timestamp)
}.

Definition assign {A : Type} (new : option A) (old : A) : A :=
  match new with Some v => v | None => old end.

Definition apply_update (ud : UpdateData) (t : TransactionRow) : TransactionRow :=
  mkTransaction (t_id t) (t_user_id t)
    (match ud_category_id ud with Some c => Some c | None => t_category_id t end)
    (assign (ud_type ud) (t_type t))
    (assign (ud_amount ud) (t_amount t))
    (assign (ud_description ud) (t_description t))
    (assign (ud_date ud) (t_date t))
    (assign (ud_tags ud) (t_tags t))
    (match ud_notes ud with Some n => Some n | None => t_notes t end)
    (assign (ud_is_paid ud) (t_is_paid t))
    (assign (ud_paid_at ud) (t_paid_at t))
    (t_created_at t).

(** [category_id UUID REFERENCES public.categories(id)] *)
Definition category_exists (db : Db) (c : option Id) : bool :=
  match c with
  | Some cid => existsb (fun r => c_id r =? cid) (tbl_categories db)
  | None => true
  end.

(** [.insert(row).select(...).single()] on transactions: primary key, the
    INSERT policy, [CHECK (amount > 0)] and the category foreign key. *)
Definition insert_transaction (c : Client) (row : TransactionRow) (db : Db)
  : PgError + TransactionRow * Db :=
  if existsb (fun r => t_id r =? t_id row) (tbl_transactions db) then inl pg_unique_violation
  else if negb (policy t_user_id c row) then inl pg_rls_violation
  else if negb (0 <? t_amount row)%Z then inl pg_check_violation
  else if negb (category_exists db (t_category_id row)) then inl pg_fk_violation
  else inr (row, mkDb (tbl_users db) (tbl_categories db) (tbl_transactions db ++ [row])).

(** [.update(ud).eq(...).select(...).single()] on transactions: the rows the
    UPDATE policy and the filters let through are rewritten; a result that is
    not one row is an error and nothing is written. The amount check and the
    category foreign key are looked at when the update assigns the column
    (stored rows already satisfy them). *)
Definition update_transaction (c : Client) (pred : TransactionRow -> bool)
  (ud : UpdateData) (db : Db) : PgError + TransactionRow * Db :=
  let hit := fun r => policy t_user_id c r && pred r in
  match filter hit (tbl_transactions db) with
  | [t] =>
      let t' := apply_update ud t in
      if given (ud_amount ud) && negb (0 <? t_amount t')%Z then inl pg_check_violation
      else if given (ud_category_id ud) && negb (category_exists db (t_category_id t'))
      then inl pg_fk_violation
      else inr (t', mkDb (tbl_users db) (tbl_categories db)
                      (map (fun r => if hit r then apply_update ud r else r)
                           (tbl_transactions db)))
  | _ => inl PGRST116
  end.

(** [.delete().eq(...)] on transactions *)
Definition delete_transactions (c : Client) (pred : TransactionRow -> bool) (db : Db)
  : PgError + unit * Db :=
  let hit := fun r => policy t_user_id c r && pred r in
  inr (tt, mkDb (tbl_users db) (tbl_categories db)
             (filter (fun r => negb (hit r)) (tbl_transactions db))).

(** [.delete().eq(...)] on categories; [ON DELETE SET NULL] clears the
    [category_id] of the transactions that referenced a deleted row. *)
Definition delete_categories (c : Client) (pred : CategoryRow -> bool) (db : Db)
  : PgError + unit * Db :=
  let hit := fun r => policy c_user_id c r && pred r in
  let gone := map c_id (filter hit (tbl_categories db)) in
  inr (tt, mkDb (tbl_users db)
             (filter (fun r => negb (hit r)) (tbl_categories db))
             (map (fun t => if existsb (opt_eqb (t_category_id t)) gone
                            then set_category_id None t else t)
                  (tbl_transactions db))).

(** [.insert(row).select().single()] on categories *)
Definition insert_category (c : Client) (row : CategoryRow) (db : Db)
  : PgError + CategoryRow * Db :=
  if existsb (fun r => c_id r =? c_id row) (tbl_categories db) then inl pg_unique_violation
  else if negb (policy c_user_id c row) then inl pg_rls_violation
  else if negb (existsb (fun u => u_id u =? c_user_id row) (tbl_users db))
  then inl pg_fk_violation
  else inr (row, mkDb (tbl_users db) (tbl_categories db ++ [row]) (tbl_transactions db)).

(** The object handed to [.update(...)] on categories. *)
Record CategoryUpdate := mkCategoryUpdate {
  cud_name : option string;
  cud_type : option TxType;
  cud_color : option string;
  cud_icon : option string
}.

Definition apply_category_update (ud : CategoryUpdate) (r : CategoryRow) : CategoryRow :=
  mkCategory (c_id r) (assign (cud_name ud) (c_name r)) (assign (cud_type ud) (c_type r))
    (assign (cud_color ud) (c_color r)) (assign (cud_icon ud) (c_icon r)) (c_user_id r).

(** [.update(ud).eq(...).select().single()] on categories *)
Definition update_category (c : Client) (pred : CategoryRow -> bool)
  (ud : CategoryUpdate) (db : Db) : PgError + CategoryRow * Db :=
  let hit := fun r => policy c_user_id c r && pred r in
  match filter hit (tbl_categories db) with
  | [r] =>
      inr (apply_category_update ud r,
           mkDb (tbl_users db)
                (map (fun r => if hit r then apply_category_update ud r else r)
                     (tbl_categories db))
                (tbl_transactions db))
  | _ => inl PGRST116
  end.

(** ** Request context *)

(** What a handler takes from its surroundings: the client built from the
    caller's credential, the clock read by [new Date()] (as a timestamp and as
    the calendar date of its ISO text), and what the store gives to a row the
    request inserts: the id of [gen_random_uuid()] and the [NOW()] of
    [created_at]. *)
Record Ctx := mkCtx {
  authed : Client;
  now : Timestamp;
  today : Date;
  uuid : Id;
  db_now : Timestamp
}.

(** [String.prototype.toLowerCase] and [trim], on ASCII. *)
Definition lower_ascii (c : Ascii.ascii) : Ascii.ascii :=
  let n := Ascii.nat_of_ascii c in
  if (65 <=? n) && (n <=? 90) then Ascii.ascii_of_nat (n + 32) else c.

Fixpoint toLowerCase (s : string) : string :=
  match s with
  | EmptyString => EmptyString
  | String c s' => String (lower_ascii c) (toLowerCase s')
  end.

Definition is_space (c : Ascii.ascii) : bool :=
  let n := Ascii.nat_of_ascii c in
  (n =? 32) || ((9 <=? n) && (n <=? 13)).

Fixpoint trimStart (s : string) : string :=
  match s with
  | EmptyString => EmptyString
  | String c s' => if is_space c then trimStart s' else s
  end.

Fixpoint trimEnd (s : string) : string :=
  match s with
  | EmptyString => EmptyString
  | String c s' =>
      match trimEnd s' with
      | EmptyString => if is_space c then EmptyString else String c EmptyString
      | r => String c r
      end
  end.

Definition trim (s : string) : string := trimEnd (trimStart s).

(** [.order('type', { ascending: true }).order('name', { ascending: true })] *)
Definition category_le (a b : CategoryRow) : bool :=
  match String.compare (type_text (c_type a)) (type_text (c_type b)) with
  | Lt => true
  | Gt => false
  | Eq => String.leb (c_name a) (c_name b)
  end.

(** [.order('date', { ascending: false }).order('created_at', { ascending: false })] *)
Definition transaction_le (a b : TransactionRow) : bool :=
  (t_date b <? t_date a)
  || ((t_date a =? t_date b) && (t_created_at b <=? t_created_at a)).

(** Rows as the handlers return them. *)
Record CategoryWithUser := mkCategoryWithUser {
  cu_category : CategoryRow;
  cu_user : option UserInfo
}.

(** A transaction with its embedded [category:categories] row, as the
    transaction selects ask for it. *)
Record TransactionJoined := mkTransactionJoined {
  tj_row : TransactionRow;
  tj_category : option CategoryRow
}.

Record TransactionWithUser := mkTransactionWithUser {
  tu_transaction : TransactionJoined;
  tu_user : option UserInfo
}.

(** The embedded category, read under the client's policy. *)
Definition join_category (c : Client) (db : Db) (t : TransactionRow) : TransactionJoined :=
  mkTransactionJoined t
    (match t_category_id t with
     | Some cid => find (fun r => c_id r =? cid) (from_categories c db)
     | None => None
     end).

(** Query string of [GET /transactions]: [start_date], [end_date], [type],
    [category_id], [is_paid], [limit], [offset]; [None] when
    [searchParams.get] gives null. *)
Record ListParams := mkListParams {
  q_start_date : option Date;
  q_end_date : option Date;
  q_type : option string;
  q_category_id : option Id;
  q_is_paid : option string;
  q_limit : option nat;
  q_offset : option nat
}.

(** Body of [POST /transactions] and [PUT /transactions/:id]. *)
Record TransactionPayload := mkTransactionPayload {
  p_type : option TxType;
  p_amount : option Amount;
  p_description : option string;
  p_date : option Date;
  p_category_id : option Id;
  p_tags : option (list string);
  p_notes : option string;
  p_is_paid : option bool
}.

(** Body of [POST /categories] and [PUT /categories/:id]. *)
Record CategoryPayload := mkCategoryPayload {
  cp_name : option string;
  cp_type : option string;
  cp_color : option string;
  cp_icon : option string
}.

Definition default {A : Type} (d : A) (o : option A) : A :=
  match o with Some v => v | None => d end.

(** [s || d] on strings *)
Definition or_text (o : option string) (d : string) : string :=
  match o with
  | Some s => if String.eqb s EmptyString then d else s
  | None => d
  end.

(** [if (s)] on a string that may be null *)
Definition text_truthy (o : option string) : option string :=
  match o with
  | Some s => if String.eqb s EmptyString then None else Some s
  | None => None
  end.

Definition parse_type (s : string) : option TxType :=
  if String.eqb s "income" then Some income
  else if String.eqb s "expense" then Some expense
  else None.

(** A number of the engine: an IEEE 754 double, with the arithmetic of
    binary64 (53 bits of precision, round to nearest, ties to even). *)
Definition Number := spec_float.

Definition prec : Z := 53.
Definition emax : Z := 1024.

Definition zero : Number := S754_zero false.

(** The double of an integer, and [+] and [-] on doubles. *)
Definition number_of_Z (z : Z) : Number := binary_normalize prec emax z 0 false.
Definition plus (x y : Number) : Number := SFadd prec emax x y.
Definition minus (x y : Number) : Number := SFsub prec emax x y.

(** The number a stored amount is read as. The store answers a
    [DECIMAL(10,2)] as a JSON number with its two decimals and the engine
    takes the double nearest to it, which is the quotient of the hundredths
    by 100 as binary64 rounds it; [parseFloat(amount.toString())] gives that
    double back. *)
Definition number_of_amount (a : Amount) : Number :=
  SFdiv prec emax (number_of_Z a) (number_of_Z 100).

(** The accumulator of [summary] and its result. *)
Record Totals := mkTotals {
  totalIncome : Number;
  totalExpenses : Number;
  paidIncome : Number;
  pendingIncome : Number;
  paidExpenses : Number;
  pendingExpenses : Number
}.

Record Summary := mkSummary {
  totals : Totals;
  balance : Number;
  paidBalance : Number;
  pendingBalance : Number
}.

Definition dquote : string := String (Ascii.ascii_of_nat 34) EmptyString.

(** ** The [cashflow] function *)

Module Cashflow.

(** The caller's staff flag, read through the caller's own client. *)
Definition userData (ctx : Ctx) (user : Id) : Handler (option bool) :=
  r <- query (select_is_staff (authed ctx) user) ;;
  orThrow 400 r.

(** [users.find(user => user.id === id)] *)
Definition find_user (users : list UserInfo) (id : Id) : option UserInfo :=
  find (fun user => ui_id user =? id) users.

(** [admin.from('users').select('id, email, full_name, is_staff').in('id', userIds)] *)
Definition users_in (userIds : list Id) (db : Db) : list UserInfo :=
  map user_info (filter (fun u => existsb (Nat.eqb (u_id u)) userIds) (from_users admin db)).

(** GET /categories *)
Definition categories (ctx : Ctx) : Handler (Envelope (list CategoryWithUser)) :=
  user <- requireAuth (authed ctx) ;;
  is_staff <- userData ctx user ;;
  if is_true is_staff then
    cats <- query (fun db => order_by category_le (from_categories admin db)) ;;
    let userIds := nodup Nat.eq_dec (map c_user_id cats) in
    users <- query (users_in userIds) ;;
    ret (successList
           (map (fun category => mkCategoryWithUser category
                                   (find_user users (c_user_id category))) cats)
           "Categorias listadas com sucesso (visão staff)")
  else
    cats <- query (fun db => order_by category_le
                     (filter (fun c => c_user_id c =? user) (from_categories (authed ctx) db))) ;;
    r <- query (select_user_info (authed ctx) user) ;;
    userInfo <- orThrow 400 r ;;
    ret (successList
           (map (fun category => mkCategoryWithUser category (Some userInfo)) cats)
           "Categorias listadas com sucesso").

(** GET /categories/:id *)
Definition getCategory (ctx : Ctx) (categoryId : Id) : Handler (Envelope CategoryWithUser) :=
  user <- requireAuth (authed ctx) ;;
  is_staff <- userData ctx user ;;
  r <- query (fun db =>
         if is_true is_staff then
           single (filter (fun c => c_id c =? categoryId) (from_categories admin db))
         else
           single (filter (fun c => (c_id c =? categoryId) && (c_user_id c =? user))
                     (from_categories (authed ctx) db))) ;;
  category <- orThrowMsg 404 "Categoria não encontrada" r ;;
  r <- query (select_user_info admin (c_user_id category)) ;;
  userInfo <- orThrow 400 r ;;
  ret (successItem (mkCategoryWithUser category (Some userInfo))
         "Categoria encontrada com sucesso").

(** POST /categories *)
Definition createCategory (ctx : Ctx) (body : CategoryPayload) : Handler (Envelope CategoryRow) :=
  user <- requireAuth (authed ctx) ;;
  requireFields [("name", given_text (cp_name body)); ("type", given_text (cp_type body))] ;;;
  let sanitizedType := trim (toLowerCase (default EmptyString (cp_type body))) in
  match parse_type sanitizedType with
  | None => throw (mkHttpError 400
               (String.concat EmptyString
                  ["Tipo deve ser "; dquote; "income"; dquote; " ou "; dquote; "expense"; dquote]))
  | Some type =>
      let sanitizedName := trim (default EmptyString (cp_name body)) in
      if String.eqb sanitizedName EmptyString
      then throw (mkHttpError 400 "Nome da categoria não pode estar vazio")
      else
        r <- mutate (insert_category (authed ctx)
               (mkCategory (uuid ctx) sanitizedName type
                  (or_text (option_map trim (cp_color body)) "#3B82F6")
                  (or_text (option_map trim (cp_icon body)) "💰")
                  user)) ;;
        row <- orThrow 400 r ;;
        ret (successItem row "Categoria criada com sucesso")
  end.

(** DELETE /categories/:id *)
Definition deleteCategory (ctx : Ctx) (categoryId : Id) : Handler (Envelope unit) :=
  user <- requireAuth (authed ctx) ;;
  r <- query (fun db =>
         single (filter (fun c => (c_id c =? categoryId) && (c_user_id c =? user))
                   (from_categories (authed ctx) db))) ;;
  category <- orThrowMsg 404 "Categoria não encontrada" r ;;
  transactions <- query (fun db =>
         firstn 1 (filter (fun t => opt_eqb (t_category_id t) categoryId)
                     (from_transactions (authed ctx) db))) ;;
  if 0 <? List.length transactions
  then throw (mkHttpError 400
                "Não é possível deletar categoria que possui transações associadas")
  else
    r <- mutate (delete_categories (authed ctx)
           (fun c => (c_id c =? categoryId) && (c_user_id c =? user))) ;;
    orThrow 400 r ;;;
    ret (successMessage
           (String.concat EmptyString
              ["Categoria "; dquote; c_name category; dquote; " deletada com sucesso"])).

(** PUT and PATCH /categories/:id *)
Definition updateCategory (ctx : Ctx) (categoryId : Id) (body : CategoryPayload)
  : Handler (Envelope CategoryRow) :=
  user <- requireAuth (authed ctx) ;;
  if negb (given_text (cp_name body)) && negb (given_text (cp_type body))
     && negb (given_text (cp_color body)) && negb (given_text (cp_icon body))
  then throw (mkHttpError 400 "Pelo menos um campo deve ser fornecido para atualização")
  else
    r <- query (fun db =>
           single (filter (fun c => (c_id c =? categoryId) && (c_user_id c =? user))
                     (from_categories (authed ctx) db))) ;;
    orThrowMsg 404 "Categoria não encontrada" r ;;;
    match cp_type body, option_map parse_type (cp_type body) with
    | Some _, Some None => throw (mkHttpError 400 pg_check_violation)
    | _, type =>
        r <- mutate (update_category (authed ctx)
               (fun c => (c_id c =? categoryId) && (c_user_id c =? user))
               (mkCategoryUpdate (cp_name body)
                  (match type with Some t => t | None => None end)
                  (cp_color body) (cp_icon body))) ;;
        row <- orThrow 400 r ;;
        ret (successItem row "Categoria atualizada com sucesso")
    end.

(** The JavaScript filters of the staff view, applied one after the other to
    the rows already fetched. *)
Definition js_filters (q : ListParams) (rows : list TransactionJoined)
  : list TransactionJoined :=
  let rows := match q_start_date q with
              | Some startDate => filter (fun t => startDate <=? t_date (tj_row t)) rows
              | None => rows
              end in
  let rows := match q_end_date q with
              | Some endDate => filter (fun t => t_date (tj_row t) <=? endDate) rows
              | None => rows
              end in
  let rows := match text_truthy (q_type q) with
              | Some type =>
                  filter (fun t => String.eqb (type_text (t_type (tj_row t))) type) rows
              | None => rows
              end in
  let rows := match q_category_id q with
              | Some categoryId =>
                  filter (fun t => opt_eqb (t_category_id (tj_row t)) categoryId) rows
              | None => rows
              end in
  match q_is_paid q with
  | Some isPaid =>
      let paidStatus := String.eqb isPaid "true" in
      filter (fun t => Bool.eqb (t_is_paid (tj_row t)) paidStatus) rows
  | None => rows
  end.

(** The conditions the owner view adds to its query ([gte], [lte], [eq]). *)
Definition query_filters (q : ListParams) (t : TransactionRow) : bool :=
  match q_start_date q with Some startDate => startDate <=? t_date t | None => true end
  && match q_end_date q with Some endDate => t_date t <=? endDate | None => true end
  && match text_truthy (q_type q) with
     | Some type => String.eqb (type_text (t_type t)) type
     | None => true
     end
  && match q_category_id q with
     | Some categoryId => opt_eqb (t_category_id t) categoryId
     | None => true
     end
  && match q_is_paid q with
     | Some isPaid => Bool.eqb (t_is_paid t) (String.eqb isPaid "true")
     | None => true
     end.

(** GET /transactions *)
Definition transactions (ctx : Ctx) (q : ListParams)
  : Handler (Envelope (list TransactionWithUser)) :=
  user <- requireAuth (authed ctx) ;;
  let limit := default 50 (q_limit q) in
  let offset := default 0 (q_offset q) in
  is_staff <- userData ctx user ;;
  if is_true is_staff then
    fetched <- query (fun db =>
         map (join_category admin db)
           (range offset limit (order_by transaction_le (from_transactions admin db)))) ;;
    let filteredTransactions := js_filters q fetched in
    let userIds := nodup Nat.eq_dec (map (fun j => t_user_id (tj_row j)) filteredTransactions) in
    users <- query (users_in userIds) ;;
    ret (successList
           (map (fun transaction => mkTransactionWithUser transaction
                   (find_user users (t_user_id (tj_row transaction))))
                filteredTransactions)
           "Transações listadas com sucesso (visão staff)")
  else
    rows <- query (fun db =>
         map (join_category (authed ctx) db)
           (range offset limit
              (order_by transaction_le
                 (filter (fun t => (t_user_id t =? user) && query_filters q t)
                    (from_transactions (authed ctx) db))))) ;;
    r <- query (select_user_info (authed ctx) user) ;;
    userInfo <- orThrow 400 r ;;
    ret (successList
           (map (fun transaction => mkTransactionWithUser transaction (Some userInfo)) rows)
           "Transações listadas com sucesso").

(** GET /transactions/:id *)
Definition getTransaction (ctx : Ctx) (transactionId : Id)
  : Handler (Envelope TransactionWithUser) :=
  user <- requireAuth (authed ctx) ;;
  is_staff <- userData ctx user ;;
  r <- query (fun db =>
         if is_true is_staff then
           pg_map (join_category admin db)
             (single (filter (fun t => t_id t =? transactionId) (from_transactions admin db)))
         else
           pg_map (join_category (authed ctx) db)
             (single (filter (fun t => (t_id t =? transactionId) && (t_user_id t =? user))
                        (from_transactions (authed ctx) db)))) ;;
  transaction <- orThrowMsg 404 "Transação não encontrada" r ;;
  r <- query (select_user_info admin (t_user_id (tj_row transaction))) ;;
  userInfo <- orThrow 400 r ;;
  ret (successItem (mkTransactionWithUser transaction (Some userInfo))
         "Transação encontrada com sucesso").

(** The check both writes run on a truthy [category_id]: the category must be
    a row the caller owns. *)
Definition validateCategory (ctx : Ctx) (user : Id) (category_id : option Id) : Handler unit :=
  match category_id with
  | Some cid =>
      r <- query (fun db =>
             single (filter (fun c => (c_id c =? cid) && (c_user_id c =? user))
                       (from_categories (authed ctx) db))) ;;
      orThrowMsg 400 "Categoria não encontrada ou não pertence ao usuário" r ;;;
      ret tt
  | None => ret tt
  end.

(** POST /transactions *)
Definition createTransaction (ctx : Ctx) (body : TransactionPayload)
  : Handler (Envelope TransactionJoined) :=
  user <- requireAuth (authed ctx) ;;
  requireFields [("type", given (p_type body)); ("amount", given (p_amount body));
                 ("description", given_text (p_description body))] ;;;
  validateCategory ctx user (p_category_id body) ;;;
  match p_type body, p_amount body, p_description body with
  | Some type, Some amount, Some description =>
      r <- mutate (insert_transaction (authed ctx)
             (mkTransaction (uuid ctx) user (p_category_id body) type amount description
                (default (today ctx) (p_date body))
                (default [] (p_tags body))
                (text_truthy (p_notes body))
                (default false (p_is_paid body))
                (match p_is_paid body with Some true => Some (now ctx) | _ => None end)
                (db_now ctx))) ;;
      row <- orThrow 400 r ;;
      joined <- query (fun db => join_category (authed ctx) db row) ;;
      ret (successItem joined "Transação criada com sucesso")
  | _, _, _ => throw (mkHttpError 400 pg_not_null_violation)
  end.

(** The [updateData] object of [updateTransaction]. *)
Definition updateData (ctx : Ctx) (body : TransactionPayload) : UpdateData :=
  mkUpdateData
    (p_type body)
    (match p_amount body with
     | Some amount => if (amount =? 0)%Z then None else Some amount
     | None => None
     end)
    (text_truthy (p_description body))
    (p_date body)
    (p_category_id body)
    (p_tags body)
    (p_notes body)
    (p_is_paid body)
    (match p_is_paid body with
     | Some is_paid => Some (if is_paid then Some (now ctx) else None)
     | None => None
     end).

(** PUT /transactions/:id *)
Definition updateTransaction (ctx : Ctx) (transactionId : Id) (body : TransactionPayload)
  : Handler (Envelope TransactionJoined) :=
  user <- requireAuth (authed ctx) ;;
  validateCategory ctx user (p_category_id body) ;;;
  r <- mutate (update_transaction (authed ctx)
         (fun t => (t_id t =? transactionId) && (t_user_id t =? user))
         (updateData ctx body)) ;;
  row <- orThrow 400 r ;;
  joined <- query (fun db => join_category (authed ctx) db row) ;;
  ret (successItem joined "Transação atualizada com sucesso").

(** DELETE /transactions/:id *)
Definition deleteTransaction (ctx : Ctx) (transactionId : Id) : Handler (Envelope unit) :=
  user <- requireAuth (authed ctx) ;;
  r <- mutate (delete_transactions (authed ctx)
         (fun t => (t_id t =? transactionId) && (t_user_id t =? user))) ;;
  orThrow 400 r ;;;
  ret (successMessage "Transação deletada com sucesso").

(** The reducer of [summary]: [acc.x += parseFloat(amount.toString())]. *)
Definition accumulate (acc : Totals) (transaction : TransactionRow) : Totals :=
  let amount := number_of_amount (t_amount transaction) in
  match t_type transaction with
  | income =>
      if t_is_paid transaction
      then mkTotals (plus (totalIncome acc) amount) (totalExpenses acc)
             (plus (paidIncome acc) amount) (pendingIncome acc)
             (paidExpenses acc) (pendingExpenses acc)
      else mkTotals (plus (totalIncome acc) amount) (totalExpenses acc)
             (paidIncome acc) (plus (pendingIncome acc) amount)
             (paidExpenses acc) (pendingExpenses acc)
  | expense =>
      if t_is_paid transaction
      then mkTotals (totalIncome acc) (plus (totalExpenses acc) amount)
             (paidIncome acc) (pendingIncome acc)
             (plus (paidExpenses acc) amount) (pendingExpenses acc)
      else mkTotals (totalIncome acc) (plus (totalExpenses acc) amount)
             (paidIncome acc) (pendingIncome acc)
             (paidExpenses acc) (plus (pendingExpenses acc) amount)
  end.

(** [data.reduce(..., zeroes)], over the rows in the order the store answers
    them, followed by the three balances. *)
Definition summarize (rows : list TransactionRow) : Summary :=
  let acc := fold_left accumulate rows (mkTotals zero zero zero zero zero zero) in
  mkSummary acc
    (minus (totalIncome acc) (totalExpenses acc))
    (minus (paidIncome acc) (paidExpenses acc))
    (minus (pendingIncome acc) (pendingExpenses acc)).

(** The rows [summary] reads: the caller's, within the dates asked for. *)
Definition summary_rows (c : Client) (user : Id) (startDate endDate : option Date) (db : Db)
  : list TransactionRow :=
  filter (fun t => (t_user_id t =? user)
                   && match startDate with Some d => d <=? t_date t | None => true end
                   && match endDate with Some d => t_date t <=? d | None => true end)
    (from_transactions c db).

(** GET /summary *)
Definition summary (ctx : Ctx) (startDate endDate : option Date) : Handler (Envelope Summary) :=
  user <- requireAuth (authed ctx) ;;
  rows <- query (summary_rows (authed ctx) user startDate endDate) ;;
  ret (success (summarize rows) "Resumo financeiro calculado com sucesso").

(** The lookup the three payment handlers start with. *)
Definition fetchOwn (ctx : Ctx) (user transactionId : Id) : Handler TransactionRow :=
  r <- query (fun db =>
         single (filter (fun t => (t_id t =? transactionId) && (t_user_id t =? user))
                   (from_transactions (authed ctx) db))) ;;
  orThrowMsg 404 "Transação não encontrada" r.

Definition payment_update (is_paid : bool) (paid_at : option Timestamp) : UpdateData :=
  mkUpdateData None None None None None None None (Some is_paid) (Some paid_at).

(** The update the three payment handlers end with. *)
Definition writePayment (ctx : Ctx) (user transactionId : Id) (ud : UpdateData)
  : Handler TransactionJoined :=
  r <- mutate (update_transaction (authed ctx)
         (fun t => (t_id t =? transactionId) && (t_user_id t =? user)) ud) ;;
  row <- orThrow 400 r ;;
  query (fun db => join_category (authed ctx) db row).

(** PATCH /transactions/:id/pay *)
Definition markAsPaid (ctx : Ctx) (transactionId : Id) : Handler (Envelope TransactionJoined) :=
  user <- requireAuth (authed ctx) ;;
  transaction <- fetchOwn ctx user transactionId ;;
  if t_is_paid transaction
  then throw (mkHttpError 400 "Transação já está marcada como paga")
  else
    joined <- writePayment ctx user transactionId (payment_update true (Some (now ctx))) ;;
    ret (successItem joined "Transação marcada como paga com sucesso").

(** PATCH /transactions/:id/unpay *)
Definition markAsUnpaid (ctx : Ctx) (transactionId : Id) : Handler (Envelope TransactionJoined) :=
  user <- requireAuth (authed ctx) ;;
  transaction <- fetchOwn ctx user transactionId ;;
  if negb (t_is_paid transaction)
  then throw (mkHttpError 400 "Transação já está marcada como não paga")
  else
    joined <- writePayment ctx user transactionId (payment_update false None) ;;
    ret (successItem joined "Transação marcada como não paga com sucesso").

(** PATCH /transactions/:id/toggle-payment *)
Definition togglePaymentStatus (ctx : Ctx) (transactionId : Id)
  : Handler (Envelope TransactionJoined) :=
  user <- requireAuth (authed ctx) ;;
  transaction <- fetchOwn ctx user transactionId ;;
  let newStatus := negb (t_is_paid transaction) in
  joined <- writePayment ctx user transactionId
              (payment_update newStatus (if newStatus then Some (now ctx) else None)) ;;
  ret (successItem joined
         (if newStatus then "Transação marcada como paga com sucesso"
          else "Transação marcada como não paga com sucesso")).

End Cashflow.

(** ** Writes to [users] *)

(** A JSON object as its key/value pairs; an object holds one value per key,
    so dropping a key drops every pair that carries it. *)
Definition Body := list (string * Json).

Definition lookup (k : string) (b : Body) : option Json :=
  option_map snd (find (fun kv => String.eqb (fst kv) k) b).

Definition without (k : string) (b : Body) : Body :=
  filter (fun kv => negb (String.eqb (fst kv) k)) b.

Definition put (k : string) (v : Json) (b : Body) : Body :=
  (k, v) :: without k b.

(** The columns of [public.users] kept in [u_other]. *)
Definition other_columns : list string :=
  ["avatar_url"; "bio"; "phone"; "date_of_birth"; "location"; "website";
   "is_verified"; "is_active"; "last_login"; "preferences"; "created_at"; "updated_at"].

(** Assigning one column of a profile. Value coercions of the store are not
    modelled: a value of another JSON kind than the column's is rejected. *)
Definition set_column (k : string) (v : Json) (u : UserRow) : PgError + UserRow :=
  if String.eqb k "id" then
    match v with
    | JUuid i => inr (mkUser i (u_email u) (u_full_name u) (u_username u) (u_is_staff u) (u_other u))
    | JNull => inl pg_not_null_violation
    | _ => inl pg_invalid_input
    end
  else if String.eqb k "email" then
    match v with
    | JStr s => inr (mkUser (u_id u) s (u_full_name u) (u_username u) (u_is_staff u) (u_other u))
    | JNull => inl pg_not_null_violation
    | _ => inl pg_invalid_input
    end
  else if String.eqb k "full_name" then
    match v with
    | JStr s => inr (mkUser (u_id u) (u_email u) s (u_username u) (u_is_staff u) (u_other u))
    | JNull => inl pg_not_null_violation
    | _ => inl pg_invalid_input
    end
  else if String.eqb k "username" then
    match v with
    | JStr s => inr (mkUser (u_id u) (u_email u) (u_full_name u) (Some s) (u_is_staff u) (u_other u))
    | JNull => inr (mkUser (u_id u) (u_email u) (u_full_name u) None (u_is_staff u) (u_other u))
    | _ => inl pg_invalid_input
    end
  else if String.eqb k "is_staff" then
    match v with
    | JBool b => inr (mkUser (u_id u) (u_email u) (u_full_name u) (u_username u) (Some b) (u_other u))
    | JNull => inr (mkUser (u_id u) (u_email u) (u_full_name u) (u_username u) None (u_other u))
    | _ => inl pg_invalid_input
    end
  else if existsb (String.eqb k) other_columns then
    inr (mkUser (u_id u) (u_email u) (u_full_name u) (u_username u) (u_is_staff u)
           (put k v (u_other u)))
  else inl pg_unknown_column.

Fixpoint set_columns (cols : Body) (u : UserRow) : PgError + UserRow :=
  match cols with
  | [] => inr u
  | (k, v) :: cols' =>
      match set_column k v u with
      | inl e => inl e
      | inr u' => set_columns cols' u'
      end
  end.

(** [PRIMARY KEY (id)], [email UNIQUE], [username UNIQUE] *)
Fixpoint distinct {A : Type} (eqb : A -> A -> bool) (l : list A) : bool :=
  match l with
  | [] => true
  | x :: l' => negb (existsb (eqb x) l') && distinct eqb l'
  end.

Definition somes {A : Type} (l : list (option A)) : list A :=
  flat_map (fun o => match o with Some a => [a] | None => [] end) l.

Definition users_unique (rows : list UserRow) : bool :=
  distinct Nat.eqb (map u_id rows)
  && distinct String.eqb (map u_email rows)
  && distinct String.eqb (somes (map u_username rows)).

(** [.update(cols).eq(...).select(...).single()] on users *)
Definition update_user (c : Client) (pred : UserRow -> bool) (cols : Body) (db : Db)
  : PgError + UserRow * Db :=
  let hit := fun r => policy u_id c r && pred r in
  match filter hit (tbl_users db) with
  | [u] =>
      match set_columns cols u with
      | inl e => inl e
      | inr u' =>
          let rows := map (fun r => if hit r then u' else r) (tbl_users db) in
          if users_unique rows
          then inr (u', mkDb rows (tbl_categories db) (tbl_transactions db))
          else inl pg_unique_violation
      end
  | _ => inl PGRST116
  end.

(** [.upsert(cols, { onConflict: 'id' }).select().single()] on users, through
    the service role: the row with that id is rewritten, or a new row takes
    the column defaults ([is_staff] false). *)
Definition upsert_user (id : Id) (cols : Body) (db : Db) : PgError + UserRow * Db :=
  match filter (fun r => u_id r =? id) (tbl_users db) with
  | [] =>
      match lookup "email" cols, lookup "full_name" cols with
      | Some (JStr _), Some (JStr _) =>
          match set_columns cols (mkUser id EmptyString EmptyString None (Some false) []) with
          | inl e => inl e
          | inr u' =>
              let rows := tbl_users db ++ [u'] in
              if users_unique rows
              then inr (u', mkDb rows (tbl_categories db) (tbl_transactions db))
              else inl pg_unique_violation
          end
      | _, _ => inl pg_not_null_violation
      end
  | _ => update_user admin (fun r => u_id r =? id) cols db
  end.

(** ** The [users] function *)

Module Users.

(** The columns [POST] copies from the body when it names them. *)
Definition field (k : string) (body : Body) : Body :=
  match lookup k body with
  | Some v => [(k, v)]
  | None => []
  end.

(** [body.k ?? null] *)
Definition field_or_null (k : string) (body : Body) : Body :=
  match lookup k body with
  | Some v => [(k, v)]
  | None => [(k, JNull)]
  end.

(** POST /users, open to callers without a credential. [newAuthUser] is the
    identity provider's answer to [auth.admin.createUser]. *)
Definition POST (newAuthUser : PgError + Id) (body : Body) : Handler UserRow :=
  match newAuthUser with
  | inl e => throw (mkHttpError 400 (String.append "Failed to create user in auth: " e))
  | inr id =>
      let profileData :=
        [("id", JUuid id)] ++ field "email" body ++ field "full_name" body
        ++ field "username" body ++ field_or_null "avatar_url" body
        ++ field_or_null "bio" body ++ field_or_null "phone" body
        ++ field_or_null "date_of_birth" body ++ field_or_null "location" body
        ++ field_or_null "website" body
        ++ [("preferences", match lookup "preferences" body with
                            | Some v => if truthy v then v else JObj []
                            | None => JObj []
                            end)] in
      r <- mutate (upsert_user id profileData) ;;
      orThrow 400 r
  end.

(** PUT /users *)
Definition PUT (ctx : Ctx) (updateBody : Body) : Handler UserRow :=
  user <- requireAuth (authed ctx) ;;
  r <- query (select_is_staff (authed ctx) user) ;;
  checkUser <- orThrow 400 r ;;
  let canEditOthers := is_true checkUser in
  let id := match lookup "id" updateBody with
            | Some v => if truthy v then Some v else None
            | None => None
            end in
  let other := match id with
               | Some (JUuid i) => negb (i =? user)
               | Some _ => true
               | None => false
               end in
  if negb canEditOthers && other
  then throw (mkHttpError 403 "Insufficient permissions")
  else
    let safeUpdateData := without "is_staff" updateBody in
    match id with
    | Some (JUuid i) =>
        r <- mutate (update_user (authed ctx) (fun u => u_id u =? i) safeUpdateData) ;;
        orThrow 400 r
    | Some _ => throw (mkHttpError 400 pg_invalid_input)
    | None =>
        r <- mutate (update_user (authed ctx) (fun u => u_id u =? user) safeUpdateData) ;;
        orThrow 400 r
    end.

End Users.

(** ** The [admin] function *)

(** A request as a function holds it. The body of a request can be read
    once: [req.json()] rejects when the body has been read before, and
    [readJSON] then answers the empty object, as it does for a body that is
    not JSON ([None]). *)
Record Req := mkReq {
  req_method : string;
  req_body : option Json;
  bodyUsed : bool
}.

Definition readJSON (req : Req) : Json * Req :=
  if bodyUsed req then (JObj [], req)
  else (match req_body req with Some v => v | None => JObj [] end,
        mkReq (req_method req) (req_body req) true).

(** The message of the TypeError raised on destructuring null; the text
    stands for the engine's own. *)
Definition destructure_null : string := "Cannot destructure property of null".

(** [const { k1, k2 } = v]: properties of an object; a boolean, a number
    or a text has neither; null cannot be destructured. [None] stands for
    undefined. *)
Definition destructure (k1 k2 : string) (v : Json) : Handler (option Json * option Json) :=
  match v with
  | JNull => throw (mkHttpError 500 destructure_null)
  | JObj fields => ret (lookup k1 fields, lookup k2 fields)
  | _ => ret (None, None)
  end.

(** The test of [requireFields] on a JSON value: undefined, null and the
    empty text are missing. *)
Definition present (v : option Json) : bool :=
  match v with
  | None | Some JNull => false
  | Some (JStr s) => negb (String.eqb s EmptyString)
  | Some _ => true
  end.

(** [.maybeSingle()] with its error dropped *)
Definition maybeSingle {A : Type} (rows : list A) : option A :=
  match rows with
  | [r] => Some r
  | _ => None
  end.

(** The names every object inherits from [Object.prototype]: looked up in
    [handlers] they give a value that is no handler. *)
Definition object_prototype : list string :=
  ["constructor"; "hasOwnProperty"; "isPrototypeOf"; "propertyIsEnumerable";
   "toLocaleString"; "toString"; "valueOf"; "__proto__"; "__defineGetter__";
   "__defineSetter__"; "__lookupGetter__"; "__lookupSetter__"].

Module Admin.

(** [{ message, target: updated }] with [select('id, is_staff')] *)
Record StaffChanged := mkStaffChanged {
  target_id : Id;
  target_is_staff : option bool
}.

(** action [me]: the caller's profile, read through the caller's client.
    The answer also repeats what the identity provider holds of the user. *)
Definition me (ctx : Ctx) : Handler UserRow :=
  user <- requireAuth (authed ctx) ;;
  r <- query (fun db => single (filter (fun u => u_id u =? user) (from_users (authed ctx) db))) ;;
  orThrow 400 r.

(** action [change_staff], reading its parameters from the request. *)
Definition change_staff (ctx : Ctx) (req : Req) : Handler StaffChanged :=
  user <- requireAuth (authed ctx) ;;
  params <- destructure "target_user_id" "is_staff" (fst (readJSON req)) ;;
  let target_user_id := fst params in
  let is_staff := snd params in
  requireFields [("target_user_id", present target_user_id); ("is_staff", present is_staff)] ;;;
  r <- query (select_is_staff (authed ctx) user) ;;
  caller <- orThrow 400 r ;;
  if negb (is_true caller) then throw (mkHttpError 403 "Forbidden (somente staff)")
  else
    match target_user_id, is_staff with
    | Some (JUuid target), Some v =>
        r <- mutate (update_user admin (fun u => u_id u =? target) [("is_staff", v)]) ;;
        updated <- orThrow 400 r ;;
        ret (mkStaffChanged (u_id updated) (u_is_staff updated))
    | _, _ => throw (mkHttpError 400 pg_invalid_input)
    end.

(** action [login]. [signIn] is the identity provider's answer to
    [signInWithPassword]: an error, or the user of the session it opened,
    if it opened one. *)
Definition login (signIn : Json -> Json -> PgError + option Id) (req : Req)
  : Handler (Id * option UserRow) :=
  params <- destructure "email" "password" (fst (readJSON req)) ;;
  let email := fst params in
  let password := snd params in
  requireFields [("email", present email); ("password", present password)] ;;;
  match signIn (default JNull email) (default JNull password) with
  | inl e => throw (mkHttpError 401 e)
  | inr None => throw (mkHttpError 500 "Falha ao criar sessão")
  | inr (Some user) =>
      profile <- query (fun db =>
                   maybeSingle (filter (fun u => u_id u =? user) (from_users admin db))) ;;
      ret (user, profile)
  end.

(** What the function answers. [Inherited] is the case of an action that
    names a property of [Object.prototype]: what is called is no handler. *)
Inductive Answer :=
| NoContent
| Failed (e : HttpError)
| Profile (profile : UserRow)
| Changed (target : StaffChanged)
| LoggedIn (user : Id) (profile : option UserRow)
| Inherited (action : string).

Definition answer {A : Type} (wrap : A -> Answer) (r : (HttpError + A) * Db) : Answer * Db :=
  (match fst r with inl e => Failed e | inr a => wrap a end, snd r).

(** The server: the action is read from the body, then the handler is
    given the same request. *)
Definition serve (ctx : Ctx) (signIn : Json -> Json -> PgError + option Id)
  (req : Req) (db : Db) : Answer * Db :=
  if String.eqb (req_method req) "OPTIONS" then (NoContent, db)
  else if negb (String.eqb (req_method req) "POST")
  then (Failed (mkHttpError 405 "Método não permitido"), db)
  else
    let (v, req) := readJSON req in
    match v with
    | JNull => (Failed (mkHttpError 500 destructure_null), db)
    | _ =>
        let action := match v with JObj fields => lookup "action" fields | _ => None end in
        match action with
        | Some (JStr action) =>
            if String.eqb action EmptyString
            then (Failed (mkHttpError 400 "Ação obrigatória"), db)
            else if String.eqb action "me" then answer Profile (me ctx db)
            else if String.eqb action "change_staff"
            then answer Changed (change_staff ctx req db)
            else if String.eqb action "login"
            then answer (fun r => LoggedIn (fst r) (snd r)) (login signIn req db)
            else if existsb (String.eqb action) object_prototype then (Inherited action, db)
            else (Failed (mkHttpError 400 "Ação inválida"), db)
        | Some other =>
            if truthy other then (Failed (mkHttpError 400 "Ação inválida"), db)
            else (Failed (mkHttpError 400 "Ação obrigatória"), db)
        | None => (Failed (mkHttpError 400 "Ação obrigatória"), db)
        end
    end.

End Admin.

Arguments Admin.serve : simpl never.

(** A request to the [admin] function with a JSON object for its body. *)
Definition post (fields : Body) : Req := mkReq "POST" (Some (JObj fields)) false.

Definition missing_staff_parameters : HttpError :=
  mkHttpError 400 "Parâmetros obrigatórios ausentes: target_user_id, is_staff".

Definition missing_login_parameters : HttpError :=
  mkHttpError 400 "Parâmetros obrigatórios ausentes: email, password".

(** ** The requests that reach the store *)

(** The routes of [cashflow] and [users] that read or write the tables, and
    the [admin] function as it is served, whatever it is sent ([signIn] is
    the identity provider's answer to a log-in). The remaining routes
    ([GET /users], [logout]) only read profiles or talk to the identity
    provider. *)
Inductive Request :=
| GET_categories
| GET_category (id : Id)
| POST_categories (body : CategoryPayload)
| DELETE_category (id : Id)
| PUT_category (id : Id) (body : CategoryPayload)
| GET_transactions (q : ListParams)
| GET_transaction (id : Id)
| POST_transactions (body : TransactionPayload)
| PUT_transaction (id : Id) (body : TransactionPayload)
| DELETE_transaction (id : Id)
| GET_summary (startDate endDate : option Date)
| PATCH_pay (id : Id)
| PATCH_unpay (id : Id)
| PATCH_toggle_payment (id : Id)
| POST_users (newAuthUser : PgError + Id) (body : Body)
| PUT_users (body : Body)
| to_admin (signIn : Json -> Json -> PgError + option Id) (method : string)
    (body : option Json).

(** What a request leaves behind: the error it was answered with, if any, and
    the store. *)
Definition outcome {A : Type} (r : (HttpError + A) * Db) : option HttpError * Db :=
  (match fst r with inl e => Some e | inr _ => None end, snd r).

Definition serve (ctx : Ctx) (req : Request) (db : Db) : option HttpError * Db :=
  match req with
  | GET_categories => outcome (Cashflow.categories ctx db)
  | GET_category id => outcome (Cashflow.getCategory ctx id db)
  | POST_categories body => outcome (Cashflow.createCategory ctx body db)
  | DELETE_category id => outcome (Cashflow.deleteCategory ctx id db)
  | PUT_category id body => outcome (Cashflow.updateCategory ctx id body db)
  | GET_transactions q => outcome (Cashflow.transactions ctx q db)
  | GET_transaction id => outcome (Cashflow.getTransaction ctx id db)
  | POST_transactions body => outcome (Cashflow.createTransaction ctx body db)
  | PUT_transaction id body => outcome (Cashflow.updateTransaction ctx id body db)
  | DELETE_transaction id => outcome (Cashflow.deleteTransaction ctx id db)
  | GET_summary s e => outcome (Cashflow.summary ctx s e db)
  | PATCH_pay id => outcome (Cashflow.markAsPaid ctx id db)
  | PATCH_unpay id => outcome (Cashflow.markAsUnpaid ctx id db)
  | PATCH_toggle_payment id => outcome (Cashflow.togglePaymentStatus ctx id db)
  | POST_users newAuthUser body => outcome (Users.POST newAuthUser body db)
  | PUT_users body => outcome (Users.PUT ctx body db)
  | to_admin signIn method body =>
      let (answer, db') := Admin.serve ctx signIn (mkReq method body false) db in
      (match answer with Admin.Failed e => Some e | _ => None end, db')
  end.

(** A session: requests served one after the other, each with its context. *)
Fixpoint run (reqs : list (Ctx * Request)) (db : Db) : Db :=
  match reqs with
  | [] => db
  | (ctx, req) :: reqs' => run reqs' (snd (serve ctx req db))
  end.

Definition empty_db : Db := mkDb [] [] [].

(** ** Vocabulary of the properties *)

(** The error kinds of the specification, as the handlers answer them. *)
Definition Conflict_already_paid : HttpError :=
  mkHttpError 400 "Transação já está marcada como paga".
Definition Conflict_already_unpaid : HttpError :=
  mkHttpError 400 "Transação já está marcada como não paga".
Definition Conflict_category_in_use : HttpError :=
  mkHttpError 400 "Não é possível deletar categoria que possui transações associadas".
Definition NotFound_category : HttpError :=
  mkHttpError 404 "Categoria não encontrada".
Definition NotFound_transaction : HttpError :=
  mkHttpError 404 "Transação não encontrada".
Definition Forbidden_staff_only : HttpError :=
  mkHttpError 403 "Forbidden (somente staff)".

(** The caller of a request. *)
Definition caller (ctx : Ctx) (user : Id) : Prop :=
  authed ctx = authedClientFrom (Some user).

(** The staff flag the handlers read for [user], when the profile is there. *)
Definition staff_flag (db : Db) (user : Id) : PgError + option bool :=
  select_is_staff (authedClientFrom (Some user)) user db.

(** [is_paid] holds exactly when [paid_at] is not null. *)
Definition paid_consistent (t : TransactionRow) : Prop :=
  t_is_paid t = true <-> t_paid_at t <> None.

Definition ledger_consistent (db : Db) : Prop :=
  Forall paid_consistent (tbl_transactions db).

(** Primary keys. *)
Definition categories_pk (db : Db) : Prop := NoDup (map c_id (tbl_categories db)).
Definition transactions_pk (db : Db) : Prop := NoDup (map t_id (tbl_transactions db)).

(** A transaction's category belongs to the transaction's owner. *)
Definition same_owner_references (db : Db) : Prop :=
  forall t c, In t (tbl_transactions db) -> In c (tbl_categories db) ->
    t_category_id t = Some (c_id c) -> t_user_id t = c_user_id c.




(** The staff flags of the profiles, in table order. *)
Definition staff_flags (db : Db) : list (option bool) :=
  map u_is_staff (tbl_users db).

(** Numbers added one after the other, in the order of the list, onto zero. *)
Definition sum_numbers (l : list Number) : Number := fold_left plus l zero.

(** The sum, in the order of the rows, of the amounts of those that
    satisfy [p]. *)
Definition sum_where (p : TransactionRow -> bool) (rows : list TransactionRow) : Number :=
  sum_numbers (map (fun t => number_of_amount (t_amount t)) (filter p rows)).

Definition is_income (t : TransactionRow) : bool := TxType_eqb (t_type t) income.
Definition is_expense (t : TransactionRow) : bool := TxType_eqb (t_type t) expense.
Definition paid_income (t : TransactionRow) : bool := is_income t && t_is_paid t.
Definition pending_income (t : TransactionRow) : bool := is_income t && negb (t_is_paid t).
Definition paid_expense (t : TransactionRow) : bool := is_expense t && t_is_paid t.
Definition pending_expense (t : TransactionRow) : bool := is_expense t && negb (t_is_paid t).

(** The dates a summary or a listing asks for, both ends included. *)
Definition in_dates (startDate endDate : option Date) (t : TransactionRow) : Prop :=
  (forall d, startDate = Some d -> d <= t_date t)
  /\ (forall d, endDate = Some d -> t_date t <= d).

(** The transactions of [user] dated within the period, in table order. *)
Definition in_period (user : Id) (startDate endDate : option Date) (db : Db)
  : list TransactionRow :=
  filter (fun t => (t_user_id t =? user)
                   && match startDate with Some d => d <=? t_date t | None => true end
                   && match endDate with Some d => t_date t <=? d | None => true end)
    (tbl_transactions db).

(** The summary as the specification words it: a function of the set of the
    caller's transactions, whatever the order the table holds them in. *)
Definition summary_of_the_set : Prop :=
  forall ctx startDate endDate db db',
    tbl_users db' = tbl_users db ->
    tbl_categories db' = tbl_categories db ->
    Permutation (tbl_transactions db) (tbl_transactions db') ->
    fst (Cashflow.summary ctx startDate endDate db')
    = fst (Cashflow.summary ctx startDate endDate db).

(** The listing as the specification words it: the rows of the visible set
    that pass every filter, in order, and of those the window. *)
Definition filter_then_window (q : ListParams) (visible : list TransactionRow)
  : list TransactionRow :=
  range (default 0 (q_offset q)) (default 50 (q_limit q))
    (order_by transaction_le (filter (Cashflow.query_filters q) visible)).

(** The rows a listing answered with. *)
Definition listed (r : (HttpError + Envelope (list TransactionWithUser)) * Db)
  : list TransactionRow :=
  match fst r with
  | inr env => map (fun x => tj_row (tu_transaction x)) (data env)
  | inl _ => []
  end.

(** ** Payment columns across a request *)

(** The one request that writes [paid_at] on a row that was already paid: an
    update whose body carries [is_paid: true]. *)
Definition restamps (req : Request) : bool :=
  match req with
  | PUT_transaction _ body =>
      match p_is_paid body with Some true => true | _ => false end
  | _ => false
  end.

(** How a request served at [ctx] may leave a stored transaction [t], as
    [t']: a move to paid stamps [paid_at] with the time of the request, a move
    to unpaid clears it, and with [is_paid] unmoved [paid_at] moves only
    under [restamps]. *)
Definition paid_step (ctx : Ctx) (req : Request) (t t' : TransactionRow) : Prop :=
  t_id t' = t_id t
  /\ (t_is_paid t = false -> t_is_paid t' = true -> t_paid_at t' = Some (now ctx))
  /\ (t_is_paid t = true -> t_is_paid t' = false -> t_paid_at t' = None)
  /\ (paid_consistent t -> t_is_paid t' = t_is_paid t -> t_paid_at t' <> t_paid_at t ->
      restamps req = true /\ t_is_paid t' = true /\ t_paid_at t' = Some (now ctx))
  /\ (paid_consistent t -> paid_consistent t').

(** A row the request inserted. *)
Definition paid_created (ctx : Ctx) (t' : TransactionRow) : Prop :=
  t_id t' = uuid ctx
  /\ t_created_at t' = db_now ctx
  /\ t_paid_at t' = (if t_is_paid t' then Some (now ctx) else None).

Definition ledger_step (ctx : Ctx) (req : Request) (db db' : Db) : Prop :=
  forall t', In t' (tbl_transactions db') ->
    (exists t, In t (tbl_transactions db) /\ paid_step ctx req t t')
    \/ paid_created ctx t'.

(** The second half of the payment invariant as the specification words it:
    across any request, [paid_at] is given a value only on a row whose
    [is_paid] moves from false to true. *)
Definition set_exactly_on_transition : Prop :=
  forall ctx req db t t',
    ledger_consistent db ->
    In t (tbl_transactions db) ->
    In t' (tbl_transactions (snd (serve ctx req db))) ->
    t_id t' = t_id t ->
    t_paid_at t' <> t_paid_at t -> t_paid_at t' <> None ->
    t_is_paid t = false /\ t_is_paid t' = true.

(** The store with the transaction [id] rewritten by [f]. *)
Definition rewrite_transaction (db : Db) (id : Id) (f : TransactionRow -> TransactionRow)
  : Db :=
  mkDb (tbl_users db) (tbl_categories db)
    (map (fun r => if t_id r =? id then f r else r) (tbl_transactions db)).

(** The payment columns as the transitions write them. *)
Definition paid_at_time (at_time : Timestamp) (t : TransactionRow) : TransactionRow :=
  apply_update (Cashflow.payment_update true (Some at_time)) t.

Definition unpaid (t : TransactionRow) : TransactionRow :=
  apply_update (Cashflow.payment_update false None) t.

(** The transactions that reference the category [id]. *)
Definition referencing (db : Db) (id : Id) : list TransactionRow :=
  filter (fun t => opt_eqb (t_category_id t) id) (tbl_transactions db).

(** The store without the category [id]. *)
Definition remove_category (db : Db) (id : Id) : Db :=
  mkDb (tbl_users db)
    (filter (fun r => negb (c_id r =? id)) (tbl_categories db))
    (tbl_transactions db).

(** The answer of a successful category delete. *)
Definition category_deleted (c : CategoryRow) : Envelope unit :=
  successMessage
    (String.concat EmptyString
       ["Categoria "; dquote; c_name c; dquote; " deletada com sucesso"]).

(** The caller deleting, one by one, the transactions in [rows]. *)
Definition delete_each (ctx : Ctx) (rows : list TransactionRow) : list (Ctx * Request) :=
  map (fun t => (ctx, DELETE_transaction (t_id t))) rows.

(** The category [cid] is absent or owned by someone else than [user]. *)
Definition not_own_category (db : Db) (user cid : Id) : Prop :=
  forall c, In c (tbl_categories db) -> c_id c = cid -> c_user_id c <> user.


(** What the staff view computes instead: the window of all rows first, the
    filters on that window after. *)
Definition window_then_filter (q : ListParams) (visible : list TransactionRow)
  : list TransactionRow :=
  filter (Cashflow.query_filters q)
    (range (default 0 (q_offset q)) (default 50 (q_limit q))
       (order_by transaction_le visible)).

(** No pair of [cols] assigns the column [k]. *)
Definition lacks (k : string) (cols : Body) : Prop :=
  Forall (fun kv => String.eqb (fst kv) k = false) cols.

(** Every category a transaction names is a category of the transaction's
    owner: the foreign key, read together with the check of the writes. *)
Definition references_owned (db : Db) : Prop :=
  forall t cid, In t (tbl_transactions db) -> t_category_id t = Some cid ->
    exists c, In c (tbl_categories db) /\ c_id c = cid /\ c_user_id c = t_user_id t.

(** The conditions on the store that the properties below rely on. *)
Definition well_formed (db : Db) : Prop :=
  categories_pk db /\ transactions_pk db /\ references_owned db.

(** ** A sample store *)

Definition alice : Id := 1.
Definition bob : Id := 2.
Definition root : Id := 9.

Definition sample_users : list UserRow :=
  [mkUser alice "alice@example.com" "Alice" (Some "alice") (Some false) [];
   mkUser bob "bob@example.com" "Bob" None None [];
   mkUser root "root@example.com" "Root" (Some "root") (Some true) []].

Definition sample_categories : list CategoryRow :=
  [mkCategory 10 "Salary" income "#10B981" "S" alice;
   mkCategory 11 "Food" expense "#EF4444" "F" alice;
   mkCategory 12 "Gifts" income "#3B82F6" "G" alice;
   mkCategory 20 "Rent" expense "#8B5CF6" "R" bob].

(** Alice holds an income of 100.00, paid, and an expense of 40.00, pending;
    Bob holds a pending expense of 25.00. *)
Definition tx_pay : TransactionRow :=
  mkTransaction 100 alice (Some 10) income 10000%Z "pay" 20 [] None true (Some 5) 5.
Definition tx_lunch : TransactionRow :=
  mkTransaction 101 alice (Some 11) expense 4000%Z "lunch" 21 [] None false None 6.
Definition tx_rent : TransactionRow :=
  mkTransaction 200 bob (Some 20) expense 2500%Z "rent" 22 [] None false None 7.

Definition sample_transactions : list TransactionRow := [tx_pay; tx_lunch; tx_rent].

Definition sample_db : Db := mkDb sample_users sample_categories sample_transactions.

Definition ctx_of (user : Id) : Ctx := mkCtx (authedClientFrom (Some user)) 9 30 300 9.

(** Carol has an account with the identity provider and no profile. She
    records a gift of 5.00. *)
Definition carol : Id := 3.

Definition gift : TransactionPayload :=
  mkTransactionPayload (Some income) (Some 500%Z) (Some "gift") (Some 23) None None None None.

(** Three incomes of Alice, of 0.10, 0.20 and 0.30. *)
Definition dimes : list TransactionRow :=
  [mkTransaction 110 alice None income 10%Z "a" 20 [] None false None 5;
   mkTransaction 111 alice None income 20%Z "b" 20 [] None false None 6;
   mkTransaction 112 alice None income 30%Z "c" 20 [] None false None 7].

Definition no_params : ListParams := mkListParams None None None None None None None.

Definition no_payload : TransactionPayload :=
  mkTransactionPayload None None None None None None None None.

(** ** Vocabulary of the request-wide properties *)

(** The action a request to the [admin] function names, when it is posted
    with an object for its body. *)
Definition action_of (method : string) (body : option Json) : option string :=
  if String.eqb method "POST" then
    match body with
    | Some (JObj fields) =>
        match lookup "action" fields with
        | Some (JStr action) => Some action
        | _ => None
        end
    | _ => None
    end
  else None.

(** The requests that ask for a credential: all but the registration and,
    of the [admin] function, the actions [me] and [change_staff]. *)
Definition needs_credential (req : Request) : bool :=
  match req with
  | POST_users _ _ => false
  | to_admin _ method body =>
      match action_of method body with
      | Some action => String.eqb action "me" || String.eqb action "change_staff"
      | None => false
      end
  | _ => true
  end.

(** The registration. It asks the identity provider to create the user
    before it writes the profile, and does not undo the one when the other
    fails; the provider's store is not part of [Db]. *)
Definition is_registration (req : Request) : bool :=
  match req with
  | POST_users _ _ => true
  | _ => false
  end.

(** The requests served by GET. *)
Definition is_read (req : Request) : bool :=
  match req with
  | GET_categories | GET_category _ | GET_transactions _ | GET_transaction _
  | GET_summary _ _ => true
  | _ => false
  end.

(** The rows of the two ledgers that belong to someone else than [user]. *)
Definition foreign_transactions (user : Id) (db : Db) : list TransactionRow :=
  filter (fun t => negb (t_user_id t =? user)) (tbl_transactions db).

Definition foreign_categories (user : Id) (db : Db) : list CategoryRow :=
  filter (fun c => negb (c_user_id c =? user)) (tbl_categories db).

Definition foreign_rows_kept (user : Id) (db db' : Db) : Prop :=
  foreign_transactions user db' = foreign_transactions user db
  /\ foreign_categories user db' = foreign_categories user db.

(** [CHECK (amount > 0)] on every stored transaction. *)
Definition amounts_positive (db : Db) : Prop :=
  Forall (fun t => (0 < t_amount t)%Z) (tbl_transactions db).

(** The store without the transaction [id] of [user]. *)
Definition remove_transaction (db : Db) (user id : Id) : Db :=
  mkDb (tbl_users db) (tbl_categories db)
    (filter (fun t => negb ((t_id t =? id) && (t_user_id t =? user))) (tbl_transactions db)).

(** The client a lookup by id reads through: the service role for staff, the
    caller's own otherwise. *)
Definition reader (ctx : Ctx) (flag : option bool) : Client :=
  if is_true flag then admin else authed ctx.

(** An update that assigns at least one column. What the store answers to
    an update that assigns none is left to the store. *)
Definition assigns_some (ud : UpdateData) : bool :=
  given (ud_type ud) || given (ud_amount ud) || given (ud_description ud)
  || given (ud_date ud) || given (ud_category_id ud) || given (ud_tags ud)
  || given (ud_notes ud) || given (ud_is_paid ud) || given (ud_paid_at ud).

(** The category a write names, if any, is one of [user]'s. *)
Definition names_own_category (db : Db) (user : Id) (category_id : option Id) : Prop :=
  forall cid, category_id = Some cid ->
    exists c, In c (tbl_categories db) /\ c_id c = cid /\ c_user_id c = user.

(** The row [POST /transactions] builds from its body. *)
Definition new_transaction (ctx : Ctx) (user : Id) (body : TransactionPayload)
  (type : TxType) (amount : Amount) (description : string) : TransactionRow :=
  mkTransaction (uuid ctx) user (p_category_id body) type amount description
    (default (today ctx) (p_date body))
    (default [] (p_tags body))
    (text_truthy (p_notes body))
    (default false (p_is_paid body))
    (match p_is_paid body with Some true => Some (now ctx) | _ => None end)
    (db_now ctx).

(** The store with one more transaction. *)
Definition add_transaction (db : Db) (row : TransactionRow) : Db :=
  mkDb (tbl_users db) (tbl_categories db) (tbl_transactions db ++ [row]).

(** The query [q] asking for the window of [limit] rows from [offset]. *)
Definition window (q : ListParams) (offset limit : nat) : ListParams :=
  mkListParams (q_start_date q) (q_end_date q) (q_type q) (q_category_id q) (q_is_paid q)
    (Some limit) (Some offset).

(** [a] comes no later than [b] in a listing: a later date first, and on the
    same date the row created later first. *)
Definition newest_first (a b : TransactionRow) : Prop :=
  t_date b < t_date a \/ (t_date a = t_date b /\ t_created_at b <= t_created_at a).

(** A profile with its staff flag set. *)
Definition with_staff (flag : bool) (p : UserRow) : UserRow :=
  mkUser (u_id p) (u_email p) (u_full_name p) (u_username p) (Some flag) (u_other p).

(** The store with the profile [id] rewritten by [f]. *)
Definition rewrite_user (db : Db) (id : Id) (f : UserRow -> UserRow) : Db :=
  mkDb (map (fun r => if u_id r =? id then f r else r) (tbl_users db))
    (tbl_categories db) (tbl_transactions db).

(** A string that starts, or ends, with a blank. *)
Definition starts_blank (s : string) : bool :=
  match s with
  | String c _ => is_space c
  | EmptyString => false
  end.

Fixpoint ends_blank (s : string) : bool :=
  match s with
  | EmptyString => false
  | String c EmptyString => is_space c
  | String _ s' => ends_blank s'
  end.

(** The row [POST /categories] builds from its body. *)
Definition new_category (ctx : Ctx) (user : Id) (body : CategoryPayload)
  (name : string) (type : TxType) : CategoryRow :=
  mkCategory (uuid ctx) (trim name) type
    (or_text (option_map trim (cp_color body)) "#3B82F6")
    (or_text (option_map trim (cp_icon body)) "💰")
    user.

(** The store with one more category. *)
Definition add_category (db : Db) (row : CategoryRow) : Db :=
  mkDb (tbl_users db) (tbl_categories db ++ [row]) (tbl_transactions db).

(** The store with the category [id] rewritten by [f]. *)
Definition rewrite_category (db : Db) (id : Id) (f : CategoryRow -> CategoryRow) : Db :=
  mkDb (tbl_users db)
    (map (fun r => if c_id r =? id then f r else r) (tbl_categories db))
    (tbl_transactions db).

(** A body of [PUT /categories/:id] with at least one field that counts. *)
Definition names_a_field (body : CategoryPayload) : bool :=
  given_text (cp_name body) || given_text (cp_type body)
  || given_text (cp_color body) || given_text (cp_icon body).

(** The columns [PUT /categories/:id] assigns, its type being [type]. *)
Definition category_columns (body : CategoryPayload) (type : option TxType) : CategoryUpdate :=
  mkCategoryUpdate (cp_name body) type (cp_color body) (cp_icon body).

(** ** The router of the [cashflow] function *)

Definition slash : Ascii.ascii := Eval cbv in Ascii.ascii_of_nat 47.

Module Router.

(** [s.replace(pat, by)] with a text pattern: the first occurrence only. *)
Fixpoint skip (n : nat) (s : string) : string :=
  match n, s with
  | S n', String _ s' => skip n' s'
  | _, _ => s
  end.

Fixpoint replace (pat by_ : string) (s : string) : string :=
  if String.prefix pat s then String.append by_ (skip (String.length pat) s)
  else match s with
       | EmptyString => EmptyString
       | String c s' => String c (replace pat by_ s')
       end.

(** [s.split('/')] *)
Fixpoint split (s : string) : list string :=
  match s with
  | EmptyString => [EmptyString]
  | String c s' =>
      if Ascii.eqb c slash
      then EmptyString :: split s'
      else match split s' with
           | part :: parts => String c part :: parts
           | [] => [String c EmptyString]
           end
  end.

(** [parts.pop()] and [parts[parts.length - 2]]; [None] stands for
    undefined. *)
Definition pop (parts : list string) : option string :=
  match rev parts with
  | part :: _ => Some part
  | [] => None
  end.

Definition before_last (parts : list string) : option string :=
  match rev parts with
  | _ :: part :: _ => Some part
  | _ => None
  end.

(** The longest run of characters other than the slash at the head of [s],
    and what follows it: the part of [s] that a greedy [[^\/]+] takes. *)
Fixpoint segment (s : string) : string * string :=
  match s with
  | EmptyString => (EmptyString, EmptyString)
  | String c s' =>
      if Ascii.eqb c slash then (EmptyString, s)
      else let (run, rest) := segment s' in (String c run, rest)
  end.

(** [path.match(/^ before [^\/]+ after $/)], [after] starting with a slash:
    the run of [[^\/]+] can only end at the first slash after [before]. *)
Definition match_id (before after path : string) : bool :=
  String.prefix before path
  && let (run, rest) := segment (skip (String.length before) path) in
     negb (String.eqb run EmptyString) && String.eqb rest after.

(** The handlers of the function. *)
Inductive Route :=
| categories | getCategory | createCategory | deleteCategory | updateCategory
| transactions | getTransaction | createTransaction | updateTransaction
| deleteTransaction | summary | markAsPaid | markAsUnpaid | togglePaymentStatus.

(** What the server does with a request: the preflight answer, a handler,
    or the answer 404. *)
Inductive Routed :=
| NoContent
| Call (handler : Route)
| NotFound (message : string).

Definition or_slash (path : string) : string :=
  if String.eqb path EmptyString then "/" else path.

Definition serve (method pathname : string) : Routed :=
  if String.eqb method "OPTIONS" then NoContent
  else
    let path := or_slash (replace "/functions/v1/cashflow" EmptyString pathname) in
    let on (m : string) := String.eqb method m in
    let at_ (p : string) := String.eqb path p in
    let under (p : string) := String.prefix p path in
    if on "GET" && (at_ "/categories" || at_ "/cashflow/categories")
    then Call categories
    else if on "GET" && (under "/categories/" || under "/cashflow/categories/")
    then Call getCategory
    else if on "POST" && (at_ "/categories" || at_ "/cashflow/categories")
    then Call createCategory
    else if on "DELETE" && (under "/categories/" || under "/cashflow/categories/")
    then Call deleteCategory
    else if on "PUT" && (under "/categories/" || under "/cashflow/categories/")
    then Call updateCategory
    else if on "PATCH" && (under "/categories/" || under "/cashflow/categories/")
    then Call updateCategory
    else if on "GET" && (at_ "/transactions" || at_ "/cashflow/transactions")
    then Call transactions
    else if on "GET" && (under "/transactions/" || under "/cashflow/transactions/")
    then Call getTransaction
    else if on "POST" && (at_ "/transactions" || at_ "/cashflow/transactions")
    then Call createTransaction
    else if on "PUT" && (under "/transactions/" || under "/cashflow/transactions/")
    then Call updateTransaction
    else if on "DELETE" && (under "/transactions/" || under "/cashflow/transactions/")
    then Call deleteTransaction
    else if on "GET" && (at_ "/summary" || at_ "/cashflow/summary")
    then Call summary
    else if on "PATCH" && (match_id "/transactions/" "/pay" path
                           || match_id "/cashflow/transactions/" "/pay" path)
    then Call markAsPaid
    else if on "PATCH" && (match_id "/transactions/" "/unpay" path
                           || match_id "/cashflow/transactions/" "/unpay" path)
    then Call markAsUnpaid
    else if on "PATCH" && (match_id "/transactions/" "/toggle-payment" path
                           || match_id "/cashflow/transactions/" "/toggle-payment" path)
    then Call togglePaymentStatus
    else NotFound (String.concat EmptyString ["Endpoint não encontrado: "; method; " "; path]).

(** The id a handler reads from the path of the request: its last part, or
    for the payment handlers the part before the last. *)
Definition id_of (handler : Route) (pathname : string) : option string :=
  match handler with
  | getCategory | deleteCategory | updateCategory
  | getTransaction | updateTransaction | deleteTransaction => pop (split pathname)
  | markAsPaid | markAsUnpaid | togglePaymentStatus => before_last (split pathname)
  | _ => None
  end.

End Router.

(** A text without a slash. *)
Fixpoint no_slash (s : string) : bool :=
  match s with
  | EmptyString => true
  | String c s' => negb (Ascii.eqb c slash) && no_slash s'
  end.

(** A text that is empty or starts with a slash. *)
Definition at_slash (s : string) : bool :=
  match s with
  | EmptyString => true
  | String c _ => Ascii.eqb c slash
  end.

(** The three places the function is reached at: behind the gateway, by its
    name, or at the root. *)
Definition mounts : list string := ["/functions/v1/cashflow"; "/cashflow"; EmptyString].

(** The path of a resource, of one of its rows, and of an action on a row. *)
Definition collection_path (mount resource : string) : string :=
  String.append mount resource.

Definition row_path (mount resource id : string) : string :=
  String.append mount (String.append resource (String slash id)).

Definition action_path (mount resource id action : string) : string :=
  String.append mount
    (String.append resource (String slash (String.append id (String slash action)))).

(** The routes that carry an id as the last part of their path. *)
Definition id_routes : list (string * string * Router.Route) :=
  [("GET", "/categories", Router.getCategory);
   ("DELETE", "/categories", Router.deleteCategory);
   ("PUT", "/categories", Router.updateCategory);
   ("PATCH", "/categories", Router.updateCategory);
   ("GET", "/transactions", Router.getTransaction);
   ("PUT", "/transactions", Router.updateTransaction);
   ("DELETE", "/transactions", Router.deleteTransaction)].

(** The payment routes, whose id comes before the last part. *)
Definition payment_routes : list (string * Router.Route) :=
  [("pay", Router.markAsPaid); ("unpay", Router.markAsUnpaid);
   ("toggle-payment", Router.togglePaymentStatus)].

(** The routes without an id. *)
Definition collection_routes : list (string * string * Router.Route) :=
  [("GET", "/categories", Router.categories);
   ("POST", "/categories", Router.createCategory);
   ("GET", "/transactions", Router.transactions);
   ("POST", "/transactions", Router.createTransaction);
   ("GET", "/summary", Router.summary)].

(** ** The [auth] function: logout *)

Module AuthFunction.

(** What [logout] asks of the identity provider: the caller's own sign-out
    through the caller's client, or the sign-out of a user through the
    service role. The provider's answer is dropped, failures included. *)
Inductive SignOut :=
| signOut
| admin_signOut (userIdToLogout : Id) (scope : string).

(** [{ message, user_id, scope }], with the call that was made. *)
Record LoggedOut := mkLoggedOut {
  asked : SignOut;
  user_id : Id;
  scope_of : string
}.

(** DELETE /logout. [scope] and [targetUserId] are the query parameters
    [scope] and [user_id], [None] when absent or empty. *)
Definition logout (ctx : Ctx) (scope : option string) (targetUserId : option Id)
  : Handler LoggedOut :=
  user <- requireAuth (authed ctx) ;;
  let scope := or_text scope "local" in
  (if match targetUserId with Some target => negb (target =? user) | None => false end
   then
     r <- query (select_is_staff (authed ctx) user) ;;
     match r with
     | inr currentUser =>
         if is_true currentUser then ret tt
         else throw (mkHttpError 403 "Insufficient permissions")
     | inl _ => throw (mkHttpError 403 "Insufficient permissions")
     end
   else ret tt) ;;;
  let userIdToLogout := default user targetUserId in
  if String.eqb scope "local" && negb (given targetUserId)
  then ret (mkLoggedOut signOut userIdToLogout "local")
  else ret (mkLoggedOut (admin_signOut userIdToLogout scope) userIdToLogout scope).

End AuthFunction.

(** The transaction [id] is absent or owned by someone else than [user]. *)
Definition not_own_transaction (db : Db) (user id : Id) : Prop :=
  forall t, In t (tbl_transactions db) -> t_id t = id -> t_user_id t <> user.

(** The categories a listing answered with. *)
Definition listed_categories (r : (HttpError + Envelope (list CategoryWithUser)) * Db)
  : list CategoryRow :=
  match fst r with
  | inr env => map cu_category (data env)
  | inl _ => []
  end.

(** ** The first revision of the [cashflow] function *)

(** The summary of the first revision. *)
Record SummaryV1 := mkSummaryV1 {
  v1_totalIncome : Number;
  v1_totalExpenses : Number;
  v1_balance : Number
}.

(** The handlers as they were before the payment status and the staff
    view. They name neither [is_paid] nor [paid_at]: a row they insert takes
    the defaults of the payment migration, unpaid and no [paid_at]. *)
Module CashflowV1.

(** GET /categories *)
Definition categories (ctx : Ctx) : Handler (Envelope (list CategoryRow)) :=
  user <- requireAuth (authed ctx) ;;
  data <- query (fun db => order_by category_le
                   (filter (fun c => c_user_id c =? user) (from_categories (authed ctx) db))) ;;
  ret (successList data "Categorias listadas com sucesso").

(** POST /categories: name and type go to the store as they are, the type
    being held to its [CHECK]. *)
Definition createCategory (ctx : Ctx) (body : CategoryPayload) : Handler (Envelope CategoryRow) :=
  user <- requireAuth (authed ctx) ;;
  requireFields [("name", given_text (cp_name body)); ("type", given_text (cp_type body))] ;;;
  match parse_type (default EmptyString (cp_type body)) with
  | None => throw (mkHttpError 400 pg_check_violation)
  | Some type =>
      r <- mutate (insert_category (authed ctx)
             (mkCategory (uuid ctx) (default EmptyString (cp_name body)) type
                (or_text (cp_color body) "#3B82F6")
                (or_text (cp_icon body) "💰")
                user)) ;;
      row <- orThrow 400 r ;;
      ret (successItem row "Categoria criada com sucesso")
  end.

(** The conditions on [start_date], [end_date], [type] and [category_id]. *)
Definition query_filters (q : ListParams) (t : TransactionRow) : bool :=
  match q_start_date q with Some startDate => startDate <=? t_date t | None => true end
  && match q_end_date q with Some endDate => t_date t <=? endDate | None => true end
  && match text_truthy (q_type q) with
     | Some type => String.eqb (type_text (t_type t)) type
     | None => true
     end
  && match q_category_id q with
     | Some categoryId => opt_eqb (t_category_id t) categoryId
     | None => true
     end.

(** GET /transactions *)
Definition transactions (ctx : Ctx) (q : ListParams)
  : Handler (Envelope (list TransactionJoined)) :=
  user <- requireAuth (authed ctx) ;;
  let limit := default 50 (q_limit q) in
  let offset := default 0 (q_offset q) in
  data <- query (fun db =>
       map (join_category (authed ctx) db)
         (range offset limit
            (order_by transaction_le
               (filter (fun t => (t_user_id t =? user) && query_filters q t)
                  (from_transactions (authed ctx) db))))) ;;
  ret (successList data "Transações listadas com sucesso").

(** POST /transactions *)
Definition createTransaction (ctx : Ctx) (body : TransactionPayload)
  : Handler (Envelope TransactionJoined) :=
  user <- requireAuth (authed ctx) ;;
  requireFields [("type", given (p_type body)); ("amount", given (p_amount body));
                 ("description", given_text (p_description body))] ;;;
  Cashflow.validateCategory ctx user (p_category_id body) ;;;
  match p_type body, p_amount body, p_description body with
  | Some type, Some amount, Some description =>
      r <- mutate (insert_transaction (authed ctx)
             (mkTransaction (uuid ctx) user (p_category_id body) type amount description
                (default (today ctx) (p_date body))
                (default [] (p_tags body))
                (text_truthy (p_notes body))
                false None
                (db_now ctx))) ;;
      row <- orThrow 400 r ;;
      joined <- query (fun db => join_category (authed ctx) db row) ;;
      ret (successItem joined "Transação criada com sucesso")
  | _, _, _ => throw (mkHttpError 400 pg_not_null_violation)
  end.

(** The object handed to [.update(...)]. *)
Definition updateData (body : TransactionPayload) : UpdateData :=
  mkUpdateData
    (p_type body)
    (match p_amount body with
     | Some amount => if (amount =? 0)%Z then None else Some amount
     | None => None
     end)
    (text_truthy (p_description body))
    (p_date body)
    (p_category_id body)
    (p_tags body)
    (p_notes body)
    None None.

(** PUT /transactions/:id *)
Definition updateTransaction (ctx : Ctx) (transactionId : Id) (body : TransactionPayload)
  : Handler (Envelope TransactionJoined) :=
  user <- requireAuth (authed ctx) ;;
  Cashflow.validateCategory ctx user (p_category_id body) ;;;
  r <- mutate (update_transaction (authed ctx)
         (fun t => (t_id t =? transactionId) && (t_user_id t =? user))
         (updateData body)) ;;
  row <- orThrow 400 r ;;
  joined <- query (fun db => join_category (authed ctx) db row) ;;
  ret (successItem joined "Transação atualizada com sucesso").

(** DELETE /transactions/:id *)
Definition deleteTransaction (ctx : Ctx) (transactionId : Id) : Handler (Envelope unit) :=
  user <- requireAuth (authed ctx) ;;
  r <- mutate (delete_transactions (authed ctx)
         (fun t => (t_id t =? transactionId) && (t_user_id t =? user))) ;;
  orThrow 400 r ;;;
  ret (successMessage "Transação deletada com sucesso").

(** The reducer of [summary]: what is not income counts as expense. *)
Definition accumulate (acc : Number * Number) (transaction : TransactionRow)
  : Number * Number :=
  match t_type transaction with
  | income => (plus (fst acc) (number_of_amount (t_amount transaction)), snd acc)
  | expense => (fst acc, plus (snd acc) (number_of_amount (t_amount transaction)))
  end.

(** GET /summary *)
Definition summary (ctx : Ctx) (startDate endDate : option Date)
  : Handler (Envelope SummaryV1) :=
  user <- requireAuth (authed ctx) ;;
  data <- query (Cashflow.summary_rows (authed ctx) user startDate endDate) ;;
  let acc := fold_left accumulate data (zero, zero) in
  ret (success (mkSummaryV1 (fst acc) (snd acc) (minus (fst acc) (snd acc)))
         "Resumo financeiro calculado com sucesso").

End CashflowV1.

(** A body without its [is_paid], and a query without its. *)
Definition without_is_paid (body : TransactionPayload) : TransactionPayload :=
  mkTransactionPayload (p_type body) (p_amount body) (p_description body) (p_date body)
    (p_category_id body) (p_tags body) (p_notes body) None.


(** What the first revision shows of a later answer. *)
Definition brief (s : Summary) : SummaryV1 :=
  mkSummaryV1 (totalIncome (totals s)) (totalExpenses (totals s)) (balance s).

Definition answered {A B : Type} (f : A -> B) (r : (HttpError + Envelope A) * Db)
  : (HttpError + Envelope B) * Db :=
  (match fst r with
   | inl e => inl e
   | inr env => inr (mkEnvelope (f (data env)) (count env) (message_of env))
   end, snd r).

(** A body of [POST /categories] that the sanitising of the later revision
    leaves as it is. *)
Definition unchanged_by (f : string -> string) (o : option string) : bool :=
  match o with
  | Some s => String.eqb (f s) s
  | None => true
  end.

Definition sanitised (body : CategoryPayload) : bool :=
  unchanged_by trim (cp_name body)
  && unchanged_by (fun type => trim (toLowerCase type)) (cp_type body)
  && unchanged_by trim (cp_color body)
  && unchanged_by trim (cp_icon body).

(** * Properties *)

(** ** Lists, ordering and windows *)

Lemma insert_by_Permutation {A : Type} (le : A -> A -> bool) (x : A) (l : list A) :
  Permutation (insert_by le x l) (x :: l).
Proof.
  induction l as [|y l IH]; simpl.
  - apply Permutation_refl.
  - destruct (le x y).
    + apply Permutation_refl.
    + eapply Permutation_trans; [apply perm_skip, IH | apply perm_swap].
Qed.

Lemma order_by_Permutation {A : Type} (le : A -> A -> bool) (l : list A) :
  Permutation (order_by le l) l.
Proof.
  induction l as [|x l IH]; simpl.
  - apply perm_nil.
  - eapply Permutation_trans; [apply insert_by_Permutation | apply perm_skip, IH].
Qed.

Lemma order_by_In {A : Type} (le : A -> A -> bool) (l : list A) (x : A) :
  In x (order_by le l) <-> In x l.
Proof.
  split; apply Permutation_in;
    [apply order_by_Permutation | apply Permutation_sym, order_by_Permutation].
Qed.

Lemma range_In {A : Type} (offset limit : nat) (l : list A) (x : A) :
  In x (range offset limit l) -> In x l.
Proof.
  unfold range. intros H.
  rewrite <- (firstn_skipn offset l). apply in_or_app. right.
  rewrite <- (firstn_skipn limit (skipn offset l)). apply in_or_app. now left.
Qed.


(** ** Reading the store through a caller's client *)

Lemma from_transactions_authed (user : Id) (db : Db) :
  from_transactions (authedClientFrom (Some user)) db
  = filter (fun t => t_user_id t =? user) (tbl_transactions db).
Proof. reflexivity. Qed.

Lemma from_categories_authed (user : Id) (db : Db) :
  from_categories (authedClientFrom (Some user)) db
  = filter (fun c => c_user_id c =? user) (tbl_categories db).
Proof. reflexivity. Qed.

Lemma from_transactions_owner (user : Id) (db : Db) (t : TransactionRow) :
  In t (from_transactions (authedClientFrom (Some user)) db) -> t_user_id t = user.
Proof.
  rewrite from_transactions_authed, filter_In. intros [_ H].
  now apply Nat.eqb_eq.
Qed.

Lemma from_categories_owner (user : Id) (db : Db) (c : CategoryRow) :
  In c (from_categories (authedClientFrom (Some user)) db) -> c_user_id c = user.
Proof.
  rewrite from_categories_authed, filter_In. intros [_ H].
  now apply Nat.eqb_eq.
Qed.

(** A profile lookup that succeeds for the staff flag succeeds for the owner
    summary too: both read the same single row. *)
Lemma select_user_info_of_flag (c : Client) (user : Id) (db : Db) (flag : option bool) :
  select_is_staff c user db = inr flag ->
  exists info, select_user_info c user db = inr info
               /\ ui_id info = user /\ ui_is_staff info = flag.
Proof.
  unfold select_is_staff, select_user_info.
  destruct (single _) as [e|u] eqn:E; simpl; [discriminate|].
  intros H. injection H as <-.
  exists (user_info u). repeat split.
  unfold single in E.
  destruct (filter _ _) as [|u0 [|]] eqn:F; try discriminate.
  injection E as ->.
  assert (In u (filter (fun u => u_id u =? user) (from_users c db))) as I
    by (rewrite F; now left).
  apply filter_In in I. simpl. now apply Nat.eqb_eq.
Qed.

Ltac step :=
  unfold bind, query, mutate, ret, throw, orThrow, orThrowMsg; simpl.

(** ** Owner scope of the listings *)

(** C1. For an authenticated caller whose profile does not carry a true staff
    flag, every row that [GET /categories] or [GET /transactions] returns is
    owned by the caller; and when the caller has a profile both listings do
    answer. *)
Theorem C1_owner_lists_only_own_rows (ctx : Ctx) (user : Id) (db : Db) (q : ListParams) :
  caller ctx user ->
  (forall flag, staff_flag db user = inr flag -> is_true flag = false) ->
  (forall env, fst (Cashflow.categories ctx db) = inr env ->
     forall x, In x (data env) -> c_user_id (cu_category x) = user)
  /\ (forall env, fst (Cashflow.transactions ctx q db) = inr env ->
     forall x, In x (data env) -> t_user_id (tj_row (tu_transaction x)) = user)
  /\ (forall flag, staff_flag db user = inr flag ->
     exists cs ts, fst (Cashflow.categories ctx db) = inr cs
                   /\ fst (Cashflow.transactions ctx q db) = inr ts).
Proof.
  unfold caller, staff_flag. intros Hc Hns.
  unfold Cashflow.categories, Cashflow.transactions, Cashflow.userData.
  rewrite Hc. step.
  destruct (select_is_staff (authedClientFrom (Some user)) user db) as [e|flag] eqn:E;
    simpl.
  - repeat split; try discriminate.
  - rewrite (Hns flag eq_refl).
    destruct (select_user_info_of_flag _ _ _ _ E) as (info & -> & _ & _). simpl.
    repeat split.
    + intros env Henv x Hx. injection Henv as <-. simpl in Hx.
      apply in_map_iff in Hx as (c & <- & Hc'). simpl.
      apply order_by_In, filter_In in Hc' as [_ Hc'].
      now apply Nat.eqb_eq.
    + intros env Henv x Hx. injection Henv as <-. simpl in Hx.
      apply in_map_iff in Hx as (j & <- & Hj). simpl.
      apply in_map_iff in Hj as (t & <- & Ht). simpl.
      apply range_In, order_by_In, filter_In in Ht as [_ Ht].
      apply andb_true_iff in Ht as [Ht _]. now apply Nat.eqb_eq.
    + intros _ _. eexists. eexists. split; reflexivity.
Qed.

Lemma C1_witness :
  caller (ctx_of alice) alice
  /\ (forall env,
        fst (Cashflow.transactions (ctx_of alice) no_params sample_db) = inr env ->
        forall x, In x (data env) -> t_user_id (tj_row (tu_transaction x)) = alice).
Proof.
  split; [reflexivity|].
  refine (proj1 (proj2
    (C1_owner_lists_only_own_rows (ctx_of alice) alice sample_db no_params _ _))).
  - reflexivity.
  - intros flag H. vm_compute in H. injection H as <-. reflexivity.
Defined.

(** ** What the writes leave in the tables *)

Lemma filter_twice {A : Type} (f g : A -> bool) (l : list A) :
  filter f (filter g l) = filter (fun x => g x && f x) l.
Proof.
  induction l as [|x l IH]; simpl; [reflexivity|].
  destruct (g x); simpl; [destruct (f x)|]; now rewrite IH.
Qed.

Lemma single_inv {A : Type} (l : list A) (x : A) :
  single l = inr x -> l = [x].
Proof.
  destruct l as [|y [|]]; simpl; try discriminate.
  now intros [= ->].
Qed.

(** The row a caller's lookup returns is the only row the same filter hits
    under the caller's policy. *)
Lemma single_hit (c : Client) (pred : TransactionRow -> bool) (db : Db)
  (t0 r : TransactionRow) :
  single (filter pred (from_transactions c db)) = inr t0 ->
  In r (tbl_transactions db) -> policy t_user_id c r && pred r = true -> r = t0.
Proof.
  intros H Hin Hhit. apply single_inv in H.
  unfold from_transactions in H. rewrite filter_twice in H.
  assert (In r [t0]) as [E|[]]; [|now symmetry].
  rewrite <- H. apply filter_In. now split.
Qed.

Lemma update_transaction_inv (c : Client) (pred : TransactionRow -> bool)
  (ud : UpdateData) (db db' : Db) (t' : TransactionRow) :
  update_transaction c pred ud db = inr (t', db') ->
  tbl_users db' = tbl_users db
  /\ tbl_categories db' = tbl_categories db
  /\ tbl_transactions db'
     = map (fun r => if policy t_user_id c r && pred r then apply_update ud r else r)
         (tbl_transactions db)
  /\ exists t, filter (fun r => policy t_user_id c r && pred r) (tbl_transactions db) = [t]
               /\ t' = apply_update ud t.
Proof.
  unfold update_transaction.
  destruct (filter _ _) as [|t [|]] eqn:F; try discriminate.
  destruct (_ && _); [discriminate|].
  destruct (_ && _); [discriminate|].
  intros [= <- <-]. simpl. repeat split. now exists t.
Qed.

Lemma insert_transaction_inv (c : Client) (row : TransactionRow) (db db' : Db)
  (t' : TransactionRow) :
  insert_transaction c row db = inr (t', db') ->
  t' = row
  /\ tbl_users db' = tbl_users db
  /\ tbl_categories db' = tbl_categories db
  /\ tbl_transactions db' = tbl_transactions db ++ [row]
  /\ ~ In (t_id row) (map t_id (tbl_transactions db)).
Proof.
  unfold insert_transaction.
  destruct (existsb _ _) eqn:E; [discriminate|].
  destruct (negb _); [discriminate|].
  destruct (negb _); [discriminate|].
  destruct (negb _); [discriminate|].
  intros [= <- <-]. simpl. repeat split.
  intros Hin. apply in_map_iff in Hin as (r & Hr & Hin).
  assert (existsb (fun r => t_id r =? t_id row) (tbl_transactions db) = true) as X.
  { apply existsb_exists. exists r. split; [assumption|]. now apply Nat.eqb_eq. }
  congruence.
Qed.

Lemma delete_transactions_inv (c : Client) (pred : TransactionRow -> bool)
  (db db' : Db) (u : unit) :
  delete_transactions c pred db = inr (u, db') ->
  tbl_users db' = tbl_users db
  /\ tbl_categories db' = tbl_categories db
  /\ tbl_transactions db'
     = filter (fun r => negb (policy t_user_id c r && pred r)) (tbl_transactions db).
Proof. unfold delete_transactions. intros [= <- <-]. now repeat split. Qed.

Lemma delete_categories_inv (c : Client) (pred : CategoryRow -> bool)
  (db db' : Db) (u : unit) :
  delete_categories c pred db = inr (u, db') ->
  tbl_users db' = tbl_users db
  /\ tbl_categories db'
     = filter (fun r => negb (policy c_user_id c r && pred r)) (tbl_categories db)
  /\ tbl_transactions db'
     = map (fun t =>
              if existsb (opt_eqb (t_category_id t))
                   (map c_id (filter (fun r => policy c_user_id c r && pred r)
                                (tbl_categories db)))
              then set_category_id None t else t)
         (tbl_transactions db).
Proof. unfold delete_categories. intros [= <- <-]. now repeat split. Qed.

Lemma insert_category_inv (c : Client) (row : CategoryRow) (db db' : Db) (r : CategoryRow) :
  insert_category c row db = inr (r, db') ->
  tbl_users db' = tbl_users db
  /\ tbl_categories db' = tbl_categories db ++ [row]
  /\ tbl_transactions db' = tbl_transactions db.
Proof.
  unfold insert_category.
  destruct (existsb _ _); [discriminate|].
  destruct (negb _); [discriminate|].
  destruct (negb _); [discriminate|].
  intros [= <- <-]. now repeat split.
Qed.

Lemma update_category_inv (c : Client) (pred : CategoryRow -> bool)
  (ud : CategoryUpdate) (db db' : Db) (r : CategoryRow) :
  update_category c pred ud db = inr (r, db') ->
  tbl_users db' = tbl_users db
  /\ tbl_categories db'
     = map (fun r => if policy c_user_id c r && pred r
                     then apply_category_update ud r else r) (tbl_categories db)
  /\ tbl_transactions db' = tbl_transactions db.
Proof.
  unfold update_category.
  destruct (filter _ _) as [|x [|]]; try discriminate.
  intros [= <- <-]. now repeat split.
Qed.

Lemma update_user_inv (c : Client) (pred : UserRow -> bool) (cols : Body)
  (db db' : Db) (u' : UserRow) :
  update_user c pred cols db = inr (u', db') ->
  tbl_categories db' = tbl_categories db
  /\ tbl_transactions db' = tbl_transactions db
  /\ exists u, filter (fun r => policy u_id c r && pred r) (tbl_users db) = [u]
               /\ set_columns cols u = inr u'
               /\ tbl_users db'
                  = map (fun r => if policy u_id c r && pred r then u' else r) (tbl_users db).
Proof.
  unfold update_user.
  destruct (filter _ _) as [|u [|]] eqn:F; try discriminate.
  destruct (set_columns cols u) as [e|u1] eqn:S; [discriminate|].
  destruct (users_unique _); [|discriminate].
  intros [= <- <-]. simpl. repeat split. now exists u.
Qed.

Lemma upsert_user_inv (id : Id) (cols : Body) (db db' : Db) (u' : UserRow) :
  upsert_user id cols db = inr (u', db') ->
  tbl_categories db' = tbl_categories db
  /\ tbl_transactions db' = tbl_transactions db.
Proof.
  unfold upsert_user.
  destruct (filter _ _) as [|x l].
  - destruct (lookup "email" cols) as [[]|]; try discriminate.
    destruct (lookup "full_name" cols) as [[]|]; try discriminate.
    destruct (set_columns _ _); [discriminate|].
    destruct (users_unique _); [|discriminate].
    intros [= <- <-]. now split.
  - intros H. apply update_user_inv in H as (? & ? & _). now split.
Qed.

(** ** The payment columns *)

Lemma paid_step_same (ctx : Ctx) (req : Request) (t t' : TransactionRow) :
  t_id t' = t_id t -> t_is_paid t' = t_is_paid t -> t_paid_at t' = t_paid_at t ->
  paid_step ctx req t t'.
Proof.
  intros Hid Hp Ha. unfold paid_step, paid_consistent. rewrite Hp, Ha.
  repeat split; try congruence; try tauto.
  all: intros; destruct (t_is_paid t); congruence.
Qed.

Lemma paid_step_update (ctx : Ctx) (id : Id) (body : TransactionPayload)
  (t : TransactionRow) :
  paid_step ctx (PUT_transaction id body) t
    (apply_update (Cashflow.updateData ctx body) t).
Proof.
  unfold paid_step, paid_consistent. simpl.
  destruct (p_is_paid body) as [[|]|]; simpl.
  - intuition congruence.
  - assert (t_is_paid t = true <-> t_paid_at t <> None ->
            false = t_is_paid t -> None = t_paid_at t) as X.
    { intros [_ H2] Hp. destruct (t_paid_at t); [|reflexivity].
      assert (t_is_paid t = true) by (apply H2; discriminate). congruence. }
    intuition congruence.
  - destruct (t_is_paid t); intuition congruence.
Qed.

Lemma paid_step_pay (ctx : Ctx) (req : Request) (t : TransactionRow) :
  t_is_paid t = false ->
  paid_step ctx req t (apply_update (Cashflow.payment_update true (Some (now ctx))) t).
Proof.
  intros H. unfold paid_step, paid_consistent. simpl. rewrite H.
  intuition congruence.
Qed.

Lemma paid_step_unpay (ctx : Ctx) (req : Request) (t : TransactionRow) :
  t_is_paid t = true ->
  paid_step ctx req t (apply_update (Cashflow.payment_update false None) t).
Proof.
  intros H. unfold paid_step, paid_consistent. simpl. rewrite H.
  intuition congruence.
Qed.

Lemma ledger_step_same (ctx : Ctx) (req : Request) (db db' : Db) :
  tbl_transactions db' = tbl_transactions db -> ledger_step ctx req db db'.
Proof.
  intros E t' H. rewrite E in H. left. exists t'. split; [assumption|].
  now apply paid_step_same.
Qed.

Lemma ledger_step_map (ctx : Ctx) (req : Request) (db db' : Db)
  (f : TransactionRow -> TransactionRow) :
  tbl_transactions db' = map f (tbl_transactions db) ->
  (forall t, In t (tbl_transactions db) -> paid_step ctx req t (f t)) ->
  ledger_step ctx req db db'.
Proof.
  intros E Hf t' H. rewrite E in H. apply in_map_iff in H as (t & <- & Hin).
  left. exists t. split; [assumption|]. now apply Hf.
Qed.

Lemma ledger_step_filter (ctx : Ctx) (req : Request) (db db' : Db)
  (f : TransactionRow -> bool) :
  tbl_transactions db' = filter f (tbl_transactions db) -> ledger_step ctx req db db'.
Proof.
  intros E t' H. rewrite E in H. apply filter_In in H as [H _].
  left. exists t'. split; [assumption|]. now apply paid_step_same.
Qed.

Ltac cases :=
  repeat match goal with
         | |- context [match ?x with _ => _ end] =>
             lazymatch x with
             | context [match _ with _ => _ end] => fail
             | _ => destruct x eqn:?; simpl
             end
         end.

Ltac unchanged :=
  first
    [ apply ledger_step_same; reflexivity
    | eapply ledger_step_filter; reflexivity
    | match goal with
      | H : insert_category _ _ _ = inr _ |- _ =>
          apply ledger_step_same, (insert_category_inv _ _ _ _ _ H)
      | H : update_category _ _ _ _ = inr _ |- _ =>
          apply ledger_step_same, (update_category_inv _ _ _ _ _ _ H)
      | H : update_user _ _ _ _ = inr _ |- _ =>
          apply ledger_step_same, (update_user_inv _ _ _ _ _ _ H)
      | H : upsert_user _ _ _ = inr _ |- _ =>
          apply ledger_step_same, (upsert_user_inv _ _ _ _ _ H)
      | H : delete_transactions _ _ _ = inr _ |- _ =>
          eapply ledger_step_filter, (delete_transactions_inv _ _ _ _ _ H)
      end ].

(** ** The [admin] function: a body is read once *)

Lemma readJSON_used (req : Req) : bodyUsed (snd (readJSON req)) = true.
Proof. unfold readJSON. destruct (bodyUsed req) eqn:E; simpl; [exact E | reflexivity]. Qed.

Lemma readJSON_again (req : Req) : fst (readJSON (snd (readJSON req))) = JObj [].
Proof.
  pose proof (readJSON_used req) as H. unfold readJSON at 1. now rewrite H.
Qed.

Lemma change_staff_after_read (ctx : Ctx) (req : Req) (db : Db) :
  Admin.change_staff ctx (snd (readJSON req)) db
  = (inl (match authed ctx with
          | authedClientFrom (Some _) => missing_staff_parameters
          | _ => mkHttpError 401 "Unauthorized"
          end), db).
Proof.
  unfold Admin.change_staff. rewrite readJSON_again.
  destruct ctx as [[|[user|]] n d u s]; reflexivity.
Qed.

Lemma login_after_read (signIn : Json -> Json -> PgError + option Id) (req : Req) (db : Db) :
  Admin.login signIn (snd (readJSON req)) db = (inl missing_login_parameters, db).
Proof. unfold Admin.login. rewrite readJSON_again. reflexivity. Qed.

Lemma admin_serve_reads_once (ctx : Ctx) (signIn : Json -> Json -> PgError + option Id)
  (req : Req) (db : Db) :
  snd (Admin.serve ctx signIn req db) = db.
Proof.
  unfold Admin.serve.
  destruct (String.eqb (req_method req) "OPTIONS"); [reflexivity|].
  destruct (negb (String.eqb (req_method req) "POST")); [reflexivity|].
  pose proof (change_staff_after_read ctx req db) as C.
  pose proof (login_after_read signIn req db) as L.
  destruct (readJSON req) as [v req1]. simpl in C, L.
  destruct v as [| | | | |fields]; try reflexivity.
  destruct (lookup "action" fields) as [[| | |a| |]|]; try reflexivity;
    try (destruct (truthy _); reflexivity).
  destruct (String.eqb a EmptyString); [reflexivity|].
  destruct (String.eqb a "me").
  { destruct ctx as [cl n d u s]. unfold Admin.answer, Admin.me, requireAuth.
    step. cases; reflexivity. }
  destruct (String.eqb a "change_staff"); [unfold Admin.answer; now rewrite C|].
  destruct (String.eqb a "login"); [unfold Admin.answer; now rewrite L|].
  destruct (existsb _ _); reflexivity.
Qed.

(** The [admin] function leaves the store as it finds it. *)
Ltac admin_kept :=
  match goal with
  | |- context [Admin.serve ?c ?s ?r ?d] =>
      let E := fresh in
      pose proof (admin_serve_reads_once c s r d) as E;
      destruct (Admin.serve c s r d) as [? ?]; simpl in E; subst; simpl
  end.

Lemma set_category_id_step (ctx : Ctx) (req : Request) (c : option Id)
  (t : TransactionRow) :
  paid_step ctx req t (set_category_id c t).
Proof. now apply paid_step_same. Qed.

Lemma serve_ledger_step (ctx : Ctx) (req : Request) (db : Db) :
  ledger_step ctx req db (snd (serve ctx req db)).
Proof.
  destruct ctx as [c n d u s]. destruct req; simpl; unfold outcome; simpl.
  - unfold Cashflow.categories, Cashflow.userData, requireAuth. step. cases; unchanged.
  - unfold Cashflow.getCategory, Cashflow.userData, requireAuth. step. cases; unchanged.
  - unfold Cashflow.createCategory, requireFields, requireAuth. step. cases; unchanged.
  - unfold Cashflow.deleteCategory, requireAuth. step. cases; try unchanged.
    eapply ledger_step_map; [reflexivity|]. intros t _. cbv beta.
    destruct (existsb _ _); [apply set_category_id_step | now apply paid_step_same].
  - unfold Cashflow.updateCategory, requireAuth. step. cases; unchanged.
  - unfold Cashflow.transactions, Cashflow.userData, requireAuth. step. cases; unchanged.
  - unfold Cashflow.getTransaction, Cashflow.userData, requireAuth. step. cases; unchanged.
  - unfold Cashflow.createTransaction, Cashflow.validateCategory, requireFields, requireAuth.
    step. cases; try unchanged.
    all: match goal with
         | H : insert_transaction _ _ _ = inr _ |- _ =>
             apply insert_transaction_inv in H as (-> & _ & _ & E & _)
         end.
    all: intros t' Ht'; rewrite E in Ht'; apply in_app_or in Ht' as [Ht'|[<-|[]]];
      [ left; exists t'; split; [assumption | now apply paid_step_same]
      | right; unfold paid_created; simpl; repeat split ].
    all: match goal with
         | |- context [p_is_paid ?b] => destruct (p_is_paid b) as [[|]|]; reflexivity
         end.
  - unfold Cashflow.updateTransaction, Cashflow.validateCategory, requireAuth.
    step. cases; try unchanged.
    all: match goal with
         | H : update_transaction _ _ _ _ = inr _ |- _ =>
             apply update_transaction_inv in H as (_ & _ & E & _)
         end.
    all: eapply ledger_step_map; [exact E|]; intros r _; cbv beta.
    all: destruct (_ && _); [apply paid_step_update | now apply paid_step_same].
  - unfold Cashflow.deleteTransaction, requireAuth. step. cases; unchanged.
  - unfold Cashflow.summary, requireAuth. step. cases; unchanged.
  - unfold Cashflow.markAsPaid, Cashflow.fetchOwn, Cashflow.writePayment, requireAuth.
    step. cases; try unchanged.
    match goal with
    | H : update_transaction _ _ _ _ = inr _ |- _ =>
        apply update_transaction_inv in H as (_ & _ & E & _)
    end.
    eapply ledger_step_map; [exact E|]. intros r Hr. cbv beta.
    destruct (_ && _) eqn:Hhit; [|now apply paid_step_same].
    match goal with
    | H : single _ = inr ?t0 |- _ =>
        assert (r = t0) as -> by (eapply single_hit; eassumption)
    end.
    now apply paid_step_pay.
  - unfold Cashflow.markAsUnpaid, Cashflow.fetchOwn, Cashflow.writePayment, requireAuth.
    step. cases; try unchanged.
    match goal with
    | H : update_transaction _ _ _ _ = inr _ |- _ =>
        apply update_transaction_inv in H as (_ & _ & E & _)
    end.
    eapply ledger_step_map; [exact E|]. intros r Hr. cbv beta.
    destruct (_ && _) eqn:Hhit; [|now apply paid_step_same].
    match goal with
    | H : single _ = inr ?t0 |- _ =>
        assert (r = t0) as -> by (eapply single_hit; eassumption)
    end.
    apply paid_step_unpay.
    match goal with H : negb _ = false |- _ => now apply negb_false_iff in H end.
  - unfold Cashflow.togglePaymentStatus, Cashflow.fetchOwn, Cashflow.writePayment,
      requireAuth.
    step. cases; try unchanged.
    all: match goal with
         | H : update_transaction _ _ _ _ = inr _ |- _ =>
             apply update_transaction_inv in H as (_ & _ & E & _)
         end.
    all: eapply ledger_step_map; [exact E|]; intros r Hr; cbv beta.
    all: destruct (_ && _) eqn:Hhit; [|now apply paid_step_same].
    all: match goal with
         | H : single _ = inr ?t0 |- _ =>
             assert (r = t0) as -> by (eapply single_hit; eassumption)
         end.
    all: first [apply paid_step_pay | apply paid_step_unpay].
    all: match goal with
         | H : negb (t_is_paid ?x) = _ |- _ => destruct (t_is_paid x); simpl in H; congruence
         end.
  - unfold Users.POST. step. cases; unchanged.
  - unfold Users.PUT, requireAuth. step. cases; unchanged.
  - admin_kept. unchanged.
Qed.

Lemma paid_created_consistent (ctx : Ctx) (t : TransactionRow) :
  paid_created ctx t -> paid_consistent t.
Proof.
  intros (_ & _ & H). unfold paid_consistent. rewrite H.
  destruct (t_is_paid t); split; congruence.
Qed.

Lemma serve_ledger_consistent (ctx : Ctx) (req : Request) (db : Db) :
  ledger_consistent db -> ledger_consistent (snd (serve ctx req db)).
Proof.
  unfold ledger_consistent. rewrite !Forall_forall. intros H t' Ht'.
  destruct (serve_ledger_step ctx req db t' Ht') as [(t & Ht & S)|C].
  - apply S, H, Ht.
  - eapply paid_created_consistent, C.
Qed.

Lemma run_ledger_consistent (reqs : list (Ctx * Request)) (db : Db) :
  ledger_consistent db -> ledger_consistent (run reqs db).
Proof.
  revert db. induction reqs as [|[ctx req] reqs IH]; intros db H; simpl.
  - assumption.
  - apply IH, serve_ledger_consistent, H.
Qed.

Lemma sample_ledger_consistent : ledger_consistent sample_db.
Proof.
  unfold ledger_consistent, paid_consistent. simpl.
  repeat constructor; simpl; congruence.
Qed.

(** What holds of the payment columns. Across every request, each stored
    transaction is either a row the request inserted, whose [paid_at] is the
    time of the request when it is paid and null otherwise, or a row that was
    there before, for which: a move of [is_paid] to true sets [paid_at] to
    the time of the request, a move to false clears it, and while [is_paid]
    stays put [paid_at] changes only when an update carries [is_paid: true]
    for a transaction already paid. Hence [is_paid] is true exactly when
    [paid_at] is not null after every request on a store where that held
    before, and in every store a session builds from the empty one. *)
Theorem paid_at_follows_is_paid (ctx : Ctx) (req : Request) (db : Db) :
  ledger_step ctx req db (snd (serve ctx req db))
  /\ (ledger_consistent db -> ledger_consistent (snd (serve ctx req db)))
  /\ (forall reqs, ledger_consistent (run reqs empty_db)).
Proof.
  split; [apply serve_ledger_step|].
  split; [apply serve_ledger_consistent|].
  intros reqs. apply run_ledger_consistent. constructor.
Qed.

Example toggle_keeps_ledger_consistent :
  ledger_consistent (snd (serve (ctx_of alice) (PATCH_toggle_payment 101) sample_db)).
Proof.
  exact (proj1 (proj2 (paid_at_follows_is_paid
                         (ctx_of alice) (PATCH_toggle_payment 101) sample_db))
           sample_ledger_consistent).
Defined.

(** C2 fails on an update. Alice's transaction 100 is paid, since time 5; her
    update at time 9 with a body that carries [is_paid: true] leaves it paid
    and writes [paid_at = 9]: [paid_at] is set with no move of [is_paid],
    where [markAsPaid] refuses a transaction already paid and
    [togglePaymentStatus] only writes on a move. The first half of the claim,
    [is_paid] exactly when [paid_at] is not null, holds after every request
    ([paid_at_follows_is_paid]). *)
Theorem C2_update_restamps_paid_at :
  let body := mkTransactionPayload None None None None None None None (Some true) in
  let db' := snd (Cashflow.updateTransaction (ctx_of alice) 100 body sample_db) in
  tbl_transactions sample_db = [tx_pay; tx_lunch; tx_rent]
  /\ (t_is_paid tx_pay = true /\ t_paid_at tx_pay = Some 5)
  /\ tbl_transactions db' = [paid_at_time 9 tx_pay; tx_lunch; tx_rent]
  /\ (t_is_paid (paid_at_time 9 tx_pay) = true
      /\ t_paid_at (paid_at_time 9 tx_pay) = Some 9)
  /\ ~ set_exactly_on_transition.
Proof.
  cbv zeta. repeat split.
  intros H.
  destruct (H (ctx_of alice)
              (PUT_transaction 100
                 (mkTransactionPayload None None None None None None None (Some true)))
              sample_db tx_pay (paid_at_time 9 tx_pay)) as [E _].
  - exact sample_ledger_consistent.
  - left. reflexivity.
  - left. reflexivity.
  - reflexivity.
  - discriminate.
  - discriminate.
  - discriminate.
Qed.

(** ** Rows found by primary key *)

Lemma filter_none {A : Type} (f : A -> bool) (l : list A) :
  (forall r, In r l -> f r = false) -> filter f l = [].
Proof.
  induction l as [|x l IH]; simpl; intros H; [reflexivity|].
  rewrite (H x (or_introl eq_refl)). apply IH. intros r Hr. apply H. now right.
Qed.

Lemma filter_unique {A : Type} (key : A -> nat) (f : A -> bool) (l : list A) (t : A) :
  NoDup (map key l) -> In t l -> f t = true ->
  (forall r, In r l -> f r = true -> key r = key t) ->
  filter f l = [t].
Proof.
  induction l as [|x l IH]; simpl; intros ND Hin Ht Hkey; [contradiction|].
  inversion ND as [|k ks Hx ND']; subst.
  destruct Hin as [->|Hin].
  - rewrite Ht. f_equal. apply filter_none. intros r Hr.
    destruct (f r) eqn:Fr; [|reflexivity].
    exfalso. apply Hx. rewrite <- (Hkey r (or_intror Hr) Fr). now apply in_map.
  - destruct (f x) eqn:Fx.
    + exfalso. apply Hx. rewrite (Hkey x (or_introl eq_refl) Fx). now apply in_map.
    + apply IH; auto.
Qed.

Lemma pk_unique {A : Type} (key : A -> nat) (l : list A) (t r : A) :
  NoDup (map key l) -> In t l -> In r l -> key r = key t -> r = t.
Proof.
  induction l as [|x l IH]; simpl; intros ND Ht Hr E; [contradiction|].
  inversion ND as [|k ks Hx ND']; subst.
  destruct Ht as [->|Ht], Hr as [->|Hr]; auto.
  - exfalso. apply Hx. rewrite <- E. now apply in_map.
  - exfalso. apply Hx. rewrite E. now apply in_map.
Qed.

Section OwnTransaction.
Variables (user : Id) (db : Db) (t : TransactionRow).
Hypothesis pk : transactions_pk db.
Hypothesis stored : In t (tbl_transactions db).
Hypothesis owned : t_user_id t = user.

Let own (r : TransactionRow) : bool := (t_id r =? t_id t) && (t_user_id r =? user).

Lemma fetch_own :
  single (filter own (from_transactions (authedClientFrom (Some user)) db)) = inr t.
Proof.
  rewrite from_transactions_authed, filter_twice.
  rewrite (filter_unique t_id _ _ t pk stored); [reflexivity| |].
  - unfold own. now rewrite owned, !Nat.eqb_refl.
  - intros r _ H. unfold own in H.
    apply andb_true_iff in H as [_ H]. apply andb_true_iff in H as [H _].
    now apply Nat.eqb_eq.
Qed.

Lemma update_own (ud : UpdateData) :
  ud_amount ud = None -> ud_category_id ud = None ->
  update_transaction (authedClientFrom (Some user)) own ud db
  = inr (apply_update ud t, rewrite_transaction db (t_id t) (apply_update ud)).
Proof.
  intros Ha Hc. unfold update_transaction.
  rewrite (filter_unique t_id _ _ t pk stored).
  - rewrite Ha, Hc. simpl. unfold rewrite_transaction. do 3 f_equal.
    apply map_ext_in. intros r Hr. unfold own.
    destruct (t_id r =? t_id t) eqn:E.
    + apply Nat.eqb_eq in E.
      rewrite (pk_unique t_id _ t r pk stored Hr E), owned, Nat.eqb_refl.
      reflexivity.
    + now rewrite andb_false_r.
  - simpl. unfold own. now rewrite owned, !Nat.eqb_refl.
  - intros r _ H. apply andb_true_iff in H as [_ H]. unfold own in H.
    apply andb_true_iff in H as [H _]. now apply Nat.eqb_eq.
Qed.
End OwnTransaction.

Lemma rewrite_transaction_In (db : Db) (t : TransactionRow)
  (f : TransactionRow -> TransactionRow) :
  In t (tbl_transactions db) ->
  In (f t) (tbl_transactions (rewrite_transaction db (t_id t) f)).
Proof.
  intros H. simpl. apply in_map_iff. exists t. now rewrite Nat.eqb_refl.
Qed.

(** ** Paid-status transitions *)

(** C3. For a transaction [t] the caller owns: [markAsPaid] answers the
    already-paid conflict and leaves the store (so [paid_at]) as it was when
    [t] is paid, and otherwise writes [is_paid = true], [paid_at = now];
    [markAsUnpaid] answers the already-unpaid conflict when [t] is unpaid and
    otherwise writes [is_paid = false], [paid_at = null];
    [togglePaymentStatus] has no such test and always writes the opposite
    status with the matching [paid_at]. *)
Theorem C3_payment_transitions (ctx : Ctx) (user : Id) (db : Db) (t : TransactionRow) :
  caller ctx user ->
  transactions_pk db ->
  In t (tbl_transactions db) ->
  t_user_id t = user ->
  let paid_db := rewrite_transaction db (t_id t) (paid_at_time (now ctx)) in
  let unpaid_db := rewrite_transaction db (t_id t) unpaid in
  let paid_row := join_category (authed ctx) paid_db (paid_at_time (now ctx) t) in
  let unpaid_row := join_category (authed ctx) unpaid_db (unpaid t) in
  Cashflow.markAsPaid ctx (t_id t) db
  = (if t_is_paid t then (inl Conflict_already_paid, db)
     else (inr (successItem paid_row "Transação marcada como paga com sucesso"), paid_db))
  /\ Cashflow.markAsUnpaid ctx (t_id t) db
     = (if t_is_paid t
        then (inr (successItem unpaid_row "Transação marcada como não paga com sucesso"),
              unpaid_db)
        else (inl Conflict_already_unpaid, db))
  /\ Cashflow.togglePaymentStatus ctx (t_id t) db
     = (if t_is_paid t
        then (inr (successItem unpaid_row "Transação marcada como não paga com sucesso"),
              unpaid_db)
        else (inr (successItem paid_row "Transação marcada como paga com sucesso"),
              paid_db))
  /\ (In (paid_at_time (now ctx) t) (tbl_transactions paid_db)
      /\ t_is_paid (paid_at_time (now ctx) t) = true
      /\ t_paid_at (paid_at_time (now ctx) t) = Some (now ctx))
  /\ (In (unpaid t) (tbl_transactions unpaid_db)
      /\ t_is_paid (unpaid t) = false
      /\ t_paid_at (unpaid t) = None).
Proof.
  intros Hc pk Hin Hown.
  pose proof (fetch_own user db t pk Hin Hown) as F.
  pose proof (update_own user db t pk Hin Hown) as U.
  cbv zeta in F, U. cbv zeta.
  destruct ctx as [c n d u s]. unfold caller in Hc. simpl in Hc. subst c.
  unfold paid_at_time, unpaid. simpl.
  split; [|split; [|split; [|split]]].
  - unfold Cashflow.markAsPaid, Cashflow.fetchOwn, Cashflow.writePayment.
    step. rewrite F. simpl.
    destruct (t_is_paid t); [reflexivity|].
    now rewrite (U (Cashflow.payment_update true (Some n))).
  - unfold Cashflow.markAsUnpaid, Cashflow.fetchOwn, Cashflow.writePayment.
    step. rewrite F. simpl.
    destruct (t_is_paid t); [|reflexivity]. simpl.
    now rewrite (U (Cashflow.payment_update false None)).
  - unfold Cashflow.togglePaymentStatus, Cashflow.fetchOwn, Cashflow.writePayment.
    step. rewrite F. simpl.
    destruct (t_is_paid t); simpl.
    + now rewrite (U (Cashflow.payment_update false None)).
    + now rewrite (U (Cashflow.payment_update true (Some n))).
  - repeat split. now apply (rewrite_transaction_In db t).
  - repeat split. now apply (rewrite_transaction_In db t).
Qed.

Lemma sample_transactions_pk : transactions_pk sample_db.
Proof.
  unfold transactions_pk. simpl.
  repeat constructor; simpl; intuition discriminate.
Qed.

Lemma C3_witness :
  Cashflow.markAsPaid (ctx_of alice) 100 sample_db = (inl Conflict_already_paid, sample_db)
  /\ fst (Cashflow.markAsUnpaid (ctx_of alice) 101 sample_db) = inl Conflict_already_unpaid.
Proof.
  split.
  - refine (proj1 (C3_payment_transitions (ctx_of alice) alice sample_db
                     (mkTransaction 100 alice (Some 10) income 10000%Z "pay" 20 [] None
                        true (Some 5) 5) _ _ _ _)).
    + reflexivity.
    + exact sample_transactions_pk.
    + left. reflexivity.
    + reflexivity.
  - reflexivity.
Defined.

(** ** The category delete guard *)

Section OwnCategory.
Variables (user : Id) (n : Timestamp) (d : Date) (u : Id) (s : Timestamp).
Variable c : CategoryRow.
Hypothesis owned : c_user_id c = user.

Let ctx : Ctx := mkCtx (authedClientFrom (Some user)) n d u s.
Let own (r : CategoryRow) : bool := (c_id r =? c_id c) && (c_user_id r =? user).

Lemma fetch_own_category (db : Db) :
  categories_pk db -> In c (tbl_categories db) ->
  single (filter own (from_categories (authedClientFrom (Some user)) db)) = inr c.
Proof.
  intros pk stored.
  rewrite from_categories_authed, filter_twice.
  rewrite (filter_unique c_id _ _ c pk stored); [reflexivity| |].
  - unfold own. now rewrite owned, !Nat.eqb_refl.
  - intros r _ H. unfold own in H.
    apply andb_true_iff in H as [_ H]. apply andb_true_iff in H as [H _].
    now apply Nat.eqb_eq.
Qed.

Lemma deleteCategory_referenced (db : Db) (t : TransactionRow) :
  categories_pk db -> In c (tbl_categories db) ->
  In t (tbl_transactions db) -> t_category_id t = Some (c_id c) -> t_user_id t = user ->
  Cashflow.deleteCategory ctx (c_id c) db = (inl Conflict_category_in_use, db).
Proof.
  intros pk stored Ht Hcat Hown.
  pose proof (fetch_own_category db pk stored) as S. unfold own in S.
  unfold Cashflow.deleteCategory. step. rewrite S. simpl.
  destruct (filter _ (from_transactions _ db)) as [|x l] eqn:F; [|reflexivity].
  exfalso.
  assert (In t (filter (fun t => opt_eqb (t_category_id t) (c_id c))
                  (from_transactions (authedClientFrom (Some user)) db))) as X.
  { apply filter_In. split.
    - rewrite from_transactions_authed. apply filter_In. split; [assumption|].
      now apply Nat.eqb_eq.
    - rewrite Hcat. simpl. apply Nat.eqb_refl. }
  rewrite F in X. exact X.
Qed.

Lemma deleteCategory_unreferenced (db : Db) :
  categories_pk db -> In c (tbl_categories db) ->
  referencing db (c_id c) = [] ->
  Cashflow.deleteCategory ctx (c_id c) db
  = (inr (category_deleted c), remove_category db (c_id c)).
Proof.
  intros pk stored Hnone.
  assert (forall t, In t (tbl_transactions db) ->
                    opt_eqb (t_category_id t) (c_id c) = false) as N.
  { intros t Ht. destruct (opt_eqb _ _) eqn:E; [|reflexivity].
    assert (In t (referencing db (c_id c))) as X by (apply filter_In; now split).
    rewrite Hnone in X. destruct X. }
  pose proof (fetch_own_category db pk stored) as S. unfold own in S.
  unfold Cashflow.deleteCategory. step. rewrite S. simpl.
  rewrite (filter_none _ (from_transactions _ db)).
  2:{ intros r Hr. apply N. rewrite from_transactions_authed in Hr.
      now apply filter_In in Hr. }
  simpl. unfold category_deleted, remove_category.
  assert (filter (fun r => negb ((c_user_id r =? user)
                                 && ((c_id r =? c_id c) && (c_user_id r =? user))))
            (tbl_categories db)
          = filter (fun r => negb (c_id r =? c_id c)) (tbl_categories db)) as ->.
  { apply filter_ext_in. intros r Hr. f_equal.
    destruct (c_id r =? c_id c) eqn:E.
    + apply Nat.eqb_eq in E.
      rewrite (pk_unique c_id _ c r pk stored Hr E), owned, Nat.eqb_refl.
      reflexivity.
    + now rewrite andb_false_r. }
  rewrite (filter_unique c_id
             (fun r => (c_user_id r =? user)
                       && ((c_id r =? c_id c) && (c_user_id r =? user)))
             _ c pk stored).
  - simpl.
    assert (map (fun t => if opt_eqb (t_category_id t) (c_id c) || false
                          then set_category_id None t else t) (tbl_transactions db)
            = tbl_transactions db) as ->; [|reflexivity].
    rewrite <- (map_id (tbl_transactions db)) at 2.
    apply map_ext_in. intros t Ht. now rewrite (N t Ht).
  - now rewrite owned, !Nat.eqb_refl.
  - intros r _ H. apply andb_true_iff in H as [_ H].
    apply andb_true_iff in H as [H _]. now apply Nat.eqb_eq.
Qed.

End OwnCategory.

(** Deleting one's transactions one by one removes exactly those. *)
Lemma run_delete_each (user : Id) (n : Timestamp) (d : Date) (u : Id) (s : Timestamp)
  (rows : list TransactionRow) (db : Db) :
  let ctx := mkCtx (authedClientFrom (Some user)) n d u s in
  let db' := run (delete_each ctx rows) db in
  tbl_users db' = tbl_users db
  /\ tbl_categories db' = tbl_categories db
  /\ forall r, In r (tbl_transactions db') <->
       In r (tbl_transactions db)
       /\ ~ (t_user_id r = user /\ In (t_id r) (map t_id rows)).
Proof.
  cbv zeta. revert db. induction rows as [|t rows IH]; intros db; simpl.
  - repeat split; tauto.
  - destruct (IH (snd (serve (mkCtx (authedClientFrom (Some user)) n d u s)
                             (DELETE_transaction (t_id t)) db)))
      as (Eu & Ec & Et).
    simpl in Eu, Ec, Et.
    split; [exact Eu|]. split; [exact Ec|].
    intros r. rewrite Et, filter_In. split.
    + intros [[H1 H3] H2]. split; [assumption|].
      intros [Ho [Hi|Hi]]; [|apply H2; now split].
      rewrite Ho, <- Hi, !Nat.eqb_refl in H3. discriminate.
    + intros [H1 H2]. split; [split; [assumption|]|].
      * destruct (t_user_id r =? user) eqn:Eo; [|reflexivity].
        destruct (t_id r =? t_id t) eqn:Ei; [|reflexivity].
        exfalso. apply H2. apply Nat.eqb_eq in Eo, Ei. split; [assumption|].
        left. now symmetry.
      * intros [Ho Hi]. apply H2. split; [assumption|]. now right.
Qed.

Lemma opt_eqb_eq (o : option Id) (i : Id) : opt_eqb o i = true <-> o = Some i.
Proof.
  destruct o as [j|]; simpl.
  - rewrite Nat.eqb_eq. split; congruence.
  - split; discriminate.
Qed.

(** C5. For a category [c] the caller owns, in a store whose transactions
    reference categories of their own owner: if a transaction references [c],
    the delete answers the in-use conflict and the store, [c] included, stays
    as it was; if none does, the delete succeeds and [c] is gone; and once
    the caller has deleted every transaction that referenced [c], the delete
    tried again succeeds. *)
Theorem C5_category_delete_guard (ctx : Ctx) (user : Id) (db : Db) (c : CategoryRow) :
  caller ctx user ->
  categories_pk db ->
  same_owner_references db ->
  In c (tbl_categories db) ->
  c_user_id c = user ->
  (referencing db (c_id c) <> [] ->
   Cashflow.deleteCategory ctx (c_id c) db = (inl Conflict_category_in_use, db))
  /\ (referencing db (c_id c) = [] ->
      Cashflow.deleteCategory ctx (c_id c) db
      = (inr (category_deleted c), remove_category db (c_id c))
      /\ ~ In (c_id c) (map c_id (tbl_categories (remove_category db (c_id c)))))
  /\ (let db1 := run (delete_each ctx (referencing db (c_id c))) db in
      referencing db1 (c_id c) = []
      /\ Cashflow.deleteCategory ctx (c_id c) db1
         = (inr (category_deleted c), remove_category db1 (c_id c))).
Proof.
  intros Hc pk Hrefs stored owned.
  destruct ctx as [cl n d u s]. unfold caller in Hc. simpl in Hc. subst cl.
  assert (forall db', tbl_categories db' = tbl_categories db ->
            ~ In (c_id c) (map c_id (tbl_categories (remove_category db' (c_id c)))))
    as Gone.
  { intros db' E Hin. apply in_map_iff in Hin as (r & Hr & Hin). simpl in Hin.
    apply filter_In in Hin as [_ Hin]. rewrite Hr, Nat.eqb_refl in Hin. discriminate. }
  split; [|split].
  - intros Hne.
    destruct (referencing db (c_id c)) as [|t l] eqn:R; [congruence|].
    assert (In t (referencing db (c_id c))) as Ht by (rewrite R; now left).
    apply filter_In in Ht as [Ht Hcat]. apply opt_eqb_eq in Hcat.
    apply (deleteCategory_referenced user n d u s c owned db t pk stored Ht Hcat).
    rewrite <- owned. now apply Hrefs.
  - intros Hnone. split; [|now apply Gone].
    now apply deleteCategory_unreferenced.
  - cbv zeta.
    destruct (run_delete_each user n d u s (referencing db (c_id c)) db) as (Eu & Ec & Et).
    cbv zeta in Eu, Ec, Et.
    assert (referencing
              (run (delete_each (mkCtx (authedClientFrom (Some user)) n d u s)
                      (referencing db (c_id c))) db) (c_id c) = []) as Hnone.
    { apply filter_none. intros r Hr. apply Et in Hr as [Hr Hnot].
      destruct (opt_eqb (t_category_id r) (c_id c)) eqn:E; [|reflexivity].
      exfalso. apply Hnot. split.
      - rewrite <- owned. apply Hrefs; [assumption..|]. now apply opt_eqb_eq.
      - apply in_map. apply filter_In. now split. }
    split; [exact Hnone|].
    apply deleteCategory_unreferenced; try assumption.
    + unfold categories_pk. now rewrite Ec.
    + now rewrite Ec.
Qed.

Lemma sample_categories_pk : categories_pk sample_db.
Proof.
  unfold categories_pk. simpl.
  repeat constructor; simpl; intuition discriminate.
Qed.

Lemma sample_same_owner_references : same_owner_references sample_db.
Proof.
  intros t c Ht Hc E. simpl in Ht, Hc.
  repeat (destruct Ht as [<-|Ht]; [repeat (destruct Hc as [<-|Hc]; try discriminate E;
                                              try reflexivity); destruct Hc|]).
  destruct Ht.
Qed.

Lemma C5_witness :
  Cashflow.deleteCategory (ctx_of alice) 11 sample_db
  = (inl Conflict_category_in_use, sample_db)
  /\ fst (Cashflow.deleteCategory (ctx_of alice) 11
            (run (delete_each (ctx_of alice) (referencing sample_db 11)) sample_db))
     = inr (category_deleted (mkCategory 11 "Food" expense "#EF4444" "F" alice)).
Proof.
  pose proof (C5_category_delete_guard (ctx_of alice) alice sample_db
                (mkCategory 11 "Food" expense "#EF4444" "F" alice)
                eq_refl sample_categories_pk sample_same_owner_references
                (or_intror (or_introl eq_refl)) eq_refl) as (H1 & _ & H3).
  split.
  - apply H1. discriminate.
  - cbv zeta in H3. destruct H3 as [_ H3]. simpl c_id in H3. now rewrite H3.
Defined.

(** ** The category reference of a write *)

Lemma own_category_none (user cid : Id) (db : Db) :
  not_own_category db user cid ->
  filter (fun c => (c_id c =? cid) && (c_user_id c =? user))
    (from_categories (authedClientFrom (Some user)) db) = [].
Proof.
  intros H. apply filter_none.
  intros r Hr. apply from_categories_owner in Hr as Ho.
  rewrite from_categories_authed in Hr. apply filter_In in Hr as [Hr _].
  destruct (c_id r =? cid) eqn:E; [|reflexivity].
  apply Nat.eqb_eq in E. now destruct (H r Hr E).
Qed.




(** ** The summary *)

(** The numbers [summary] adds for the rows that satisfy [p]. *)
Lemma sum_where_cons (p : TransactionRow -> bool) (t : TransactionRow)
  (rows : list TransactionRow) (acc : Number) :
  fold_left plus (map (fun t => number_of_amount (t_amount t)) (filter p (t :: rows))) acc
  = fold_left plus (map (fun t => number_of_amount (t_amount t)) (filter p rows))
      (if p t then plus acc (number_of_amount (t_amount t)) else acc).
Proof. simpl. now destruct (p t). Qed.

Lemma accumulate_totals (rows : list TransactionRow) (acc : Totals) :
  let amounts := fun p => map (fun t => number_of_amount (t_amount t)) (filter p rows) in
  fold_left Cashflow.accumulate rows acc
  = mkTotals (fold_left plus (amounts is_income) (totalIncome acc))
      (fold_left plus (amounts is_expense) (totalExpenses acc))
      (fold_left plus (amounts paid_income) (paidIncome acc))
      (fold_left plus (amounts pending_income) (pendingIncome acc))
      (fold_left plus (amounts paid_expense) (paidExpenses acc))
      (fold_left plus (amounts pending_expense) (pendingExpenses acc)).
Proof.
  cbv zeta. revert acc. induction rows as [|t rows IH]; intros acc.
  - now destruct acc.
  - rewrite !sum_where_cons. cbn [fold_left]. rewrite IH.
    unfold Cashflow.accumulate, paid_income, pending_income, paid_expense,
      pending_expense, is_income, is_expense.
    destruct (t_type t), (t_is_paid t); reflexivity.
Qed.

Lemma summarize_sums (rows : list TransactionRow) :
  Cashflow.summarize rows
  = mkSummary
      (mkTotals (sum_where is_income rows) (sum_where is_expense rows)
         (sum_where paid_income rows) (sum_where pending_income rows)
         (sum_where paid_expense rows) (sum_where pending_expense rows))
      (minus (sum_where is_income rows) (sum_where is_expense rows))
      (minus (sum_where paid_income rows) (sum_where paid_expense rows))
      (minus (sum_where pending_income rows) (sum_where pending_expense rows)).
Proof.
  unfold Cashflow.summarize. rewrite accumulate_totals. reflexivity.
Qed.

(** The rows [summary] reads through the caller's client are the caller's
    rows of the table within the period, in table order. *)
Lemma summary_rows_in_period (user : Id) (startDate endDate : option Date) (db : Db) :
  Cashflow.summary_rows (authedClientFrom (Some user)) user startDate endDate db
  = in_period user startDate endDate db.
Proof.
  unfold Cashflow.summary_rows, in_period.
  rewrite from_transactions_authed, filter_twice.
  apply filter_ext. intros t. now destruct (t_user_id t =? user).
Qed.

(** C7, as the code has it. [GET /summary] answers, without writing, the
    summary of the caller's transactions dated within the period asked for
    (both ends included), taken in the order the table holds them: each of
    the six totals is the sum, in doubles and in that order from zero, of
    the amounts of the income or of the expense rows (all, paid, pending),
    and the three balances are the differences, in doubles, income minus
    expenses. Over an income of 100.00, paid, and an expense of 40.00,
    pending, it yields totalIncome 100, totalExpenses 40, balance 60,
    paidBalance 100 and pendingBalance -40. *)
Theorem C7_summary (ctx : Ctx) (user : Id) (db : Db) (startDate endDate : option Date) :
  caller ctx user ->
  let rows := in_period user startDate endDate db in
  let s := Cashflow.summarize rows in
  Cashflow.summary ctx startDate endDate db
  = (inr (success s "Resumo financeiro calculado com sucesso"), db)
  /\ (totalIncome (totals s) = sum_where is_income rows
      /\ totalExpenses (totals s) = sum_where is_expense rows
      /\ paidIncome (totals s) = sum_where paid_income rows
      /\ pendingIncome (totals s) = sum_where pending_income rows
      /\ paidExpenses (totals s) = sum_where paid_expense rows
      /\ pendingExpenses (totals s) = sum_where pending_expense rows)
  /\ (balance s = minus (totalIncome (totals s)) (totalExpenses (totals s))
      /\ paidBalance s = minus (paidIncome (totals s)) (paidExpenses (totals s))
      /\ pendingBalance s = minus (pendingIncome (totals s)) (pendingExpenses (totals s)))
  /\ Cashflow.summarize [tx_pay; tx_lunch]
     = mkSummary
         (mkTotals (number_of_Z 100) (number_of_Z 40) (number_of_Z 100) zero zero
            (number_of_Z 40))
         (number_of_Z 60) (number_of_Z 100) (number_of_Z (-40)).
Proof.
  intros Hc. destruct ctx as [cl n d u s]. unfold caller in Hc. simpl in Hc. subst cl.
  cbv zeta. simpl authed.
  split.
  - unfold Cashflow.summary, requireAuth. step.
    now rewrite summary_rows_in_period.
  - rewrite (summarize_sums (in_period user startDate endDate db)). simpl.
    split; [repeat split|]. split; [repeat split|]. vm_compute. reflexivity.
Qed.

Lemma C7_witness :
  Cashflow.summary (ctx_of alice) None None sample_db
  = (inr (success
            (mkSummary
               (mkTotals (number_of_Z 100) (number_of_Z 40) (number_of_Z 100) zero zero
                  (number_of_Z 40))
               (number_of_Z 60) (number_of_Z 100) (number_of_Z (-40)))
            "Resumo financeiro calculado com sucesso"), sample_db).
Proof.
  rewrite (proj1 (C7_summary (ctx_of alice) alice sample_db None None eq_refl)).
  vm_compute. reflexivity.
Defined.

(** The doubles of the example, written out: 100 is 7036874417766400 / 2^46
    and so on. *)
Example numbers_of_the_example :
  number_of_Z 100 = S754_finite false 7036874417766400%positive (-46)%Z
  /\ number_of_Z 40 = S754_finite false 5629499534213120%positive (-47)%Z
  /\ number_of_Z 60 = S754_finite false 8444249301319680%positive (-47)%Z
  /\ number_of_Z (-40) = S754_finite true 5629499534213120%positive (-47)%Z
  /\ number_of_amount 10000%Z = number_of_Z 100
  /\ number_of_amount 4000%Z = number_of_Z 40.
Proof. repeat split. Qed.

(** Three incomes of 0.10, 0.20 and 0.30 add up to 0.6000000000000001 in
    the order given and to 0.6 in the opposite order; 0.6 is also the double
    of their sum 0.60. *)
Example dimes_in_doubles :
  totalIncome (totals (Cashflow.summarize dimes))
  = S754_finite false 5404319552844596%positive (-53)%Z
  /\ totalIncome (totals (Cashflow.summarize (rev dimes)))
     = S754_finite false 5404319552844595%positive (-53)%Z
  /\ number_of_amount 60%Z = S754_finite false 5404319552844595%positive (-53)%Z.
Proof. repeat split. Qed.

(** C7 as stated fails: the summary is not a function of the set of the
    caller's transactions. Alice's three incomes of 0.10, 0.20 and 0.30 give
    one total income when the table holds them in this order and another
    when it holds them in the opposite order, the totals being sums of
    doubles. *)
Lemma C7_order_of_rows_matters : ~ summary_of_the_set.
Proof.
  intros H.
  specialize (H (ctx_of alice) None None
                (mkDb sample_users [] dimes) (mkDb sample_users [] (rev dimes))
                eq_refl eq_refl (Permutation_rev dimes)).
  vm_compute in H. discriminate H.
Qed.

(** ** Filters and window of the transaction listing *)

Lemma filter_all {A : Type} (f : A -> bool) (l : list A) :
  (forall x, f x = true) -> filter f l = l.
Proof.
  intros H. induction l as [|x l IH]; simpl; [reflexivity|].
  now rewrite H, IH.
Qed.

Lemma js_filters_filter (q : ListParams) (rows : list TransactionJoined) :
  Cashflow.js_filters q rows
  = filter (fun j => Cashflow.query_filters q (tj_row j)) rows.
Proof.
  unfold Cashflow.js_filters, Cashflow.query_filters.
  destruct (q_start_date q), (q_end_date q), (text_truthy (q_type q)),
    (q_category_id q), (q_is_paid q); rewrite ?filter_twice;
    first [ apply filter_ext; intros j; btauto
          | symmetry; apply filter_all; reflexivity ].
Qed.

Lemma filter_map {A B : Type} (f : A -> B) (p : B -> bool) (l : list A) :
  filter p (map f l) = map f (filter (fun x => p (f x)) l).
Proof.
  induction l as [|x l IH]; simpl; [reflexivity|].
  destruct (p (f x)); simpl; now rewrite IH.
Qed.

(** The owner view filters the caller's rows, then takes the window. *)
Lemma owner_list_filter_then_window (ctx : Ctx) (user : Id) (db : Db) (q : ListParams)
  (flag : option bool) :
  caller ctx user ->
  staff_flag db user = inr flag -> is_true flag = false ->
  listed (Cashflow.transactions ctx q db)
  = filter_then_window q (filter (fun t => t_user_id t =? user) (tbl_transactions db)).
Proof.
  intros Hc Hf Hns. destruct ctx as [cl n d u s]. unfold caller in Hc. simpl in Hc. subst cl.
  unfold staff_flag in Hf.
  destruct (select_user_info_of_flag _ _ _ _ Hf) as (info & Hi & _ & _).
  unfold listed, Cashflow.transactions, Cashflow.userData. step.
  rewrite Hf. simpl. rewrite Hns, Hi. simpl.
  rewrite !map_map. simpl. rewrite map_id.
  unfold filter_then_window. do 2 f_equal.
  rewrite from_transactions_authed, !filter_twice.
  apply filter_ext. intros t. now destruct (t_user_id t =? user).
Qed.

(** The staff view takes the window of all rows, then filters it. *)
Lemma staff_list_window_then_filter (ctx : Ctx) (user : Id) (db : Db) (q : ListParams) :
  caller ctx user ->
  staff_flag db user = inr (Some true) ->
  listed (Cashflow.transactions ctx q db)
  = window_then_filter q (tbl_transactions db).
Proof.
  intros Hc Hf. destruct ctx as [cl n d u s]. unfold caller in Hc. simpl in Hc. subst cl.
  unfold staff_flag in Hf.
  unfold listed, Cashflow.transactions, Cashflow.userData. step.
  rewrite Hf. simpl.
  rewrite js_filters_filter, !map_map. simpl.
  unfold window_then_filter.
  rewrite (filter_map (join_category admin db)
             (fun j => Cashflow.query_filters q (tj_row j))).
  rewrite map_map. simpl. rewrite map_id.
  do 3 f_equal. unfold from_transactions. now apply filter_all.
Qed.

(** C8 fails for a staff caller. Root, a staff member, lists with [type=income]
    and [limit=1]: the window of one row is cut from all rows first (Bob's
    rent, the latest) and the filter then empties it, where filtering the
    visible rows before the window gives Alice's income; Alice's own listing
    with the same parameters does return it. *)
Theorem C8_staff_filters_after_window :
  let q := mkListParams None None (Some "income") None None (Some 1) None in
  listed (Cashflow.transactions (ctx_of root) q sample_db) = []
  /\ filter_then_window q (tbl_transactions sample_db) = [tx_pay]
  /\ listed (Cashflow.transactions (ctx_of alice) q sample_db) = [tx_pay].
Proof. cbv zeta. repeat split; vm_compute; reflexivity. Qed.

(** ** Rows of other users are not told apart from absent rows *)

Lemma own_transaction_none (user id : Id) (db : Db) :
  (forall t, In t (tbl_transactions db) -> t_id t = id -> t_user_id t <> user) ->
  filter (fun t => (t_id t =? id) && (t_user_id t =? user))
    (from_transactions (authedClientFrom (Some user)) db) = [].
Proof.
  intros H. apply filter_none.
  intros r Hr. apply from_transactions_owner in Hr as Ho.
  rewrite from_transactions_authed in Hr. apply filter_In in Hr as [Hr _].
  destruct (t_id r =? id) eqn:E; [|reflexivity].
  apply Nat.eqb_eq in E. now destruct (H r Hr E).
Qed.

Lemma getCategory_not_own (ctx : Ctx) (user id : Id) (db : Db) :
  caller ctx user ->
  (forall flag, staff_flag db user = inr flag -> is_true flag = false) ->
  not_own_category db user id ->
  Cashflow.getCategory ctx id db
  = match staff_flag db user with
    | inl e => (inl (mkHttpError 400 e), db)
    | inr _ => (inl NotFound_category, db)
    end.
Proof.
  intros Hc Hns Hno. destruct ctx as [cl n d u s]. unfold caller in Hc. simpl in Hc. subst cl.
  unfold staff_flag in *. unfold Cashflow.getCategory, Cashflow.userData. step.
  destruct (select_is_staff _ user db) as [e|flag] eqn:E; simpl; [reflexivity|].
  rewrite (Hns flag eq_refl). now rewrite (own_category_none user id db Hno).
Qed.

Lemma getTransaction_not_own (ctx : Ctx) (user id : Id) (db : Db) :
  caller ctx user ->
  (forall flag, staff_flag db user = inr flag -> is_true flag = false) ->
  (forall t, In t (tbl_transactions db) -> t_id t = id -> t_user_id t <> user) ->
  Cashflow.getTransaction ctx id db
  = match staff_flag db user with
    | inl e => (inl (mkHttpError 400 e), db)
    | inr _ => (inl NotFound_transaction, db)
    end.
Proof.
  intros Hc Hns Hno. destruct ctx as [cl n d u s]. unfold caller in Hc. simpl in Hc. subst cl.
  unfold staff_flag in *. unfold Cashflow.getTransaction, Cashflow.userData. step.
  destruct (select_is_staff _ user db) as [e|flag] eqn:E; simpl; [reflexivity|].
  rewrite (Hns flag eq_refl). now rewrite (own_transaction_none user id db Hno).
Qed.

(** C9. For a caller who is not staff, [getCategory] and [getTransaction] on
    the id of a row that another user owns return exactly what they return on
    an id that no row has, response and store alike; when the caller has a
    profile that answer is the not-found error. *)
Theorem C9_foreign_row_looks_absent (ctx : Ctx) (user : Id) (db : Db)
  (c : CategoryRow) (t : TransactionRow) (absent : Id) :
  caller ctx user ->
  (forall flag, staff_flag db user = inr flag -> is_true flag = false) ->
  categories_pk db ->
  transactions_pk db ->
  In c (tbl_categories db) -> c_user_id c <> user ->
  In t (tbl_transactions db) -> t_user_id t <> user ->
  ~ In absent (map c_id (tbl_categories db)) ->
  ~ In absent (map t_id (tbl_transactions db)) ->
  Cashflow.getCategory ctx (c_id c) db = Cashflow.getCategory ctx absent db
  /\ Cashflow.getTransaction ctx (t_id t) db = Cashflow.getTransaction ctx absent db
  /\ (forall flag, staff_flag db user = inr flag ->
      Cashflow.getCategory ctx (c_id c) db = (inl NotFound_category, db)
      /\ Cashflow.getTransaction ctx (t_id t) db = (inl NotFound_transaction, db)).
Proof.
  intros Hc Hns cpk tpk Hcin Hco Htin Hto Hca Hta.
  assert (not_own_category db user (c_id c)) as C1.
  { intros r Hr E. now rewrite (pk_unique c_id _ c r cpk Hcin Hr E). }
  assert (not_own_category db user absent) as C2.
  { intros r Hr E. exfalso. apply Hca. rewrite <- E. now apply in_map. }
  assert (forall r, In r (tbl_transactions db) -> t_id r = t_id t -> t_user_id r <> user)
    as T1.
  { intros r Hr E. now rewrite (pk_unique t_id _ t r tpk Htin Hr E). }
  assert (forall r, In r (tbl_transactions db) -> t_id r = absent -> t_user_id r <> user)
    as T2.
  { intros r Hr E. exfalso. apply Hta. rewrite <- E. now apply in_map. }
  rewrite (getCategory_not_own ctx user (c_id c) db Hc Hns C1).
  rewrite (getCategory_not_own ctx user absent db Hc Hns C2).
  rewrite (getTransaction_not_own ctx user (t_id t) db Hc Hns T1).
  rewrite (getTransaction_not_own ctx user absent db Hc Hns T2).
  repeat split; intros; now rewrite H.
Qed.

Lemma C9_witness :
  Cashflow.getCategory (ctx_of alice) 20 sample_db
  = Cashflow.getCategory (ctx_of alice) 77 sample_db
  /\ Cashflow.getTransaction (ctx_of alice) 200 sample_db
     = Cashflow.getTransaction (ctx_of alice) 77 sample_db.
Proof.
  pose proof (C9_foreign_row_looks_absent (ctx_of alice) alice sample_db
                (mkCategory 20 "Rent" expense "#8B5CF6" "R" bob) tx_rent 77) as H.
  simpl c_id in H. simpl t_id in H.
  destruct H as (H1 & H2 & _).
  - reflexivity.
  - intros flag E. vm_compute in E. injection E as <-. reflexivity.
  - exact sample_categories_pk.
  - exact sample_transactions_pk.
  - simpl. tauto.
  - discriminate.
  - simpl. tauto.
  - discriminate.
  - simpl. intuition discriminate.
  - simpl. intuition discriminate.
  - now split.
Defined.

(** ** Staff scope of the listings *)







(** The staff listing of the sample store, written out: Bob's rent, then
    Alice's lunch and pay, each with the summary of its owner's profile. *)
Example staff_listing_of_the_sample :
  option_map (fun env => map (fun x => (t_id (tj_row (tu_transaction x)), tu_user x))
                           (data env))
    (match fst (Cashflow.transactions (ctx_of root) no_params sample_db) with
     | inr env => Some env
     | inl _ => None
     end)
  = Some [(200, Some (mkUserInfo bob "bob@example.com" "Bob" None));
          (101, Some (mkUserInfo alice "alice@example.com" "Alice" (Some false)));
          (100, Some (mkUserInfo alice "alice@example.com" "Alice" (Some false)))].
Proof. reflexivity. Qed.

(** Carol's request is served, and leaves her gift in the table. *)
Example carol_records_a_gift :
  serve (ctx_of carol) (POST_transactions gift) sample_db
  = (None,
     mkDb sample_users sample_categories
       (sample_transactions
        ++ [mkTransaction 300 carol None income 500%Z "gift" 23 [] None false None 9])).
Proof. reflexivity. Qed.


(** ** The staff flag *)

Lemma without_lacks (k : string) (b : Body) : lacks k (without k b).
Proof.
  apply Forall_forall. intros kv H. apply filter_In in H as [_ H].
  now apply negb_true_iff in H.
Qed.

Lemma set_column_is_staff (k : string) (v : Json) (u u' : UserRow) :
  String.eqb k "is_staff" = false ->
  set_column k v u = inr u' -> u_is_staff u' = u_is_staff u.
Proof.
  intros Hk. unfold set_column. rewrite Hk.
  destruct (String.eqb k "id"); [destruct v; try discriminate; now intros [= <-]|].
  destruct (String.eqb k "email"); [destruct v; try discriminate; now intros [= <-]|].
  destruct (String.eqb k "full_name"); [destruct v; try discriminate; now intros [= <-]|].
  destruct (String.eqb k "username"); [destruct v; try discriminate; now intros [= <-]|].
  destruct (existsb _ _); [|discriminate]. now intros [= <-].
Qed.

Lemma set_columns_is_staff (cols : Body) (u u' : UserRow) :
  lacks "is_staff" cols ->
  set_columns cols u = inr u' -> u_is_staff u' = u_is_staff u.
Proof.
  revert u. induction cols as [|[k v] cols IH]; intros u L; simpl.
  - now intros [= <-].
  - inversion L as [|x l Hk L']; subst. simpl in Hk.
    destruct (set_column k v u) as [e|u1] eqn:S; [discriminate|].
    intros H. rewrite (IH u1 L' H). now apply (set_column_is_staff k v).
Qed.

Lemma update_user_staff_flags (c : Client) (pred : UserRow -> bool) (cols : Body)
  (db db' : Db) (u' : UserRow) :
  lacks "is_staff" cols ->
  update_user c pred cols db = inr (u', db') -> staff_flags db' = staff_flags db.
Proof.
  intros L H. apply update_user_inv in H as (_ & _ & u & F & S & E).
  unfold staff_flags. rewrite E, map_map. apply map_ext_in. intros r Hr.
  destruct (policy u_id c r && pred r) eqn:Hit; [|reflexivity].
  assert (In r [u]) as [->|[]] by (rewrite <- F; apply filter_In; now split).
  now apply (set_columns_is_staff cols).
Qed.

Lemma field_lacks (k k' : string) (body : Body) :
  String.eqb k k' = false -> lacks k' (Users.field k body).
Proof.
  intros H. unfold Users.field, lacks.
  destruct (lookup k body); repeat constructor. exact H.
Qed.

Lemma field_or_null_lacks (k k' : string) (body : Body) :
  String.eqb k k' = false -> lacks k' (Users.field_or_null k body).
Proof.
  intros H. unfold Users.field_or_null, lacks.
  destruct (lookup k body); repeat constructor; exact H.
Qed.

Lemma lacks_app (k : string) (a b : Body) : lacks k a -> lacks k b -> lacks k (a ++ b).
Proof. intros Ha Hb. apply Forall_app. now split. Qed.

Lemma upsert_user_staff_flags (id : Id) (cols : Body) (db db' : Db) (u' : UserRow) :
  lacks "is_staff" cols ->
  upsert_user id cols db = inr (u', db') ->
  exists extra, staff_flags db' = staff_flags db ++ extra.
Proof.
  intros L. unfold upsert_user.
  destruct (filter _ _) as [|x l].
  - destruct (lookup "email" cols) as [[]|]; try discriminate.
    destruct (lookup "full_name" cols) as [[]|]; try discriminate.
    destruct (set_columns _ _); [discriminate|].
    destruct (users_unique _); [|discriminate].
    intros [= <- <-]. unfold staff_flags. simpl. rewrite map_app. now eexists.
  - intros H. exists []. rewrite app_nil_r.
    eapply update_user_staff_flags; eassumption.
Qed.

Lemma PUT_staff_flags (ctx : Ctx) (body : Body) (db : Db) :
  staff_flags (snd (Users.PUT ctx body db)) = staff_flags db.
Proof.
  destruct ctx as [c n d u s]. unfold Users.PUT, requireAuth. step. cases; try reflexivity.
  all: match goal with
       | H : update_user _ _ _ _ = inr _ |- _ =>
           apply update_user_staff_flags in H; [exact H | apply without_lacks]
       end.
Qed.

Ltac users_kept :=
  exists []; rewrite app_nil_r; unfold staff_flags;
  first
    [ reflexivity
    | match goal with
      | H : insert_category _ _ _ = inr _ |- _ =>
          now rewrite (proj1 (insert_category_inv _ _ _ _ _ H))
      | H : update_category _ _ _ _ = inr _ |- _ =>
          now rewrite (proj1 (update_category_inv _ _ _ _ _ _ H))
      | H : insert_transaction _ _ _ = inr _ |- _ =>
          now rewrite (proj1 (proj2 (insert_transaction_inv _ _ _ _ _ H)))
      | H : update_transaction _ _ _ _ = inr _ |- _ =>
          now rewrite (proj1 (update_transaction_inv _ _ _ _ _ _ H))
      end ].

(** No request changes the staff flag of a profile: [PUT /users] drops the
    [is_staff] key of its body, a registration only adds a profile, and the
    [admin] function never writes. *)
Lemma serve_staff_flags (ctx : Ctx) (req : Request) (db : Db) :
  exists extra, staff_flags (snd (serve ctx req db)) = staff_flags db ++ extra.
Proof.
  destruct ctx as [c n d u s]. destruct req; simpl; unfold outcome; simpl.
  - unfold Cashflow.categories, Cashflow.userData, requireAuth. step. cases; users_kept.
  - unfold Cashflow.getCategory, Cashflow.userData, requireAuth. step. cases; users_kept.
  - unfold Cashflow.createCategory, requireFields, requireAuth. step. cases; users_kept.
  - unfold Cashflow.deleteCategory, requireAuth. step. cases; users_kept.
  - unfold Cashflow.updateCategory, requireAuth. step. cases; users_kept.
  - unfold Cashflow.transactions, Cashflow.userData, requireAuth. step. cases; users_kept.
  - unfold Cashflow.getTransaction, Cashflow.userData, requireAuth. step. cases; users_kept.
  - unfold Cashflow.createTransaction, Cashflow.validateCategory, requireFields, requireAuth.
    step. cases; users_kept.
  - unfold Cashflow.updateTransaction, Cashflow.validateCategory, requireAuth.
    step. cases; users_kept.
  - unfold Cashflow.deleteTransaction, requireAuth. step. cases; users_kept.
  - unfold Cashflow.summary, requireAuth. step. cases; users_kept.
  - unfold Cashflow.markAsPaid, Cashflow.fetchOwn, Cashflow.writePayment, requireAuth.
    step. cases; users_kept.
  - unfold Cashflow.markAsUnpaid, Cashflow.fetchOwn, Cashflow.writePayment, requireAuth.
    step. cases; users_kept.
  - unfold Cashflow.togglePaymentStatus, Cashflow.fetchOwn, Cashflow.writePayment,
      requireAuth.
    step. cases; users_kept.
  - unfold Users.POST. destruct newAuthUser as [e|id]; [now exists []; rewrite app_nil_r|].
    step.
    match goal with
    | |- context [upsert_user ?i ?cols db] =>
        destruct (upsert_user i cols db) as [e|[u' db']] eqn:U; simpl
    end; [now exists []; rewrite app_nil_r|].
    eapply upsert_user_staff_flags; [|exact U].
    constructor; [reflexivity|].
    repeat (apply lacks_app;
            [first [apply field_lacks; reflexivity | apply field_or_null_lacks; reflexivity]|]).
    repeat constructor.
  - exists []. rewrite app_nil_r. apply (PUT_staff_flags (mkCtx c n d u s)).
  - admin_kept. users_kept.
Qed.

(** C10. The [admin] function as it is served. Alice, who is not staff,
    posts the action [change_staff] naming Bob and the flag true: the answer
    is that both parameters are missing, not the forbidden error, and
    nothing is written. Root, who is staff, gets the same answer, and Bob's
    flag stays as it was. The server has read the body for the action
    before it calls the handler, which reads the same request again and
    finds nothing; given the request with its body unread, the handler does
    answer Alice with the forbidden error. *)
Theorem C10_change_staff_served_without_its_body :
  let body := Some (JObj [("action", JStr "change_staff");
                          ("target_user_id", JUuid bob); ("is_staff", JBool true)]) in
  let signIn := fun _ _ : Json => inl "Invalid login credentials" : PgError + option Id in
  staff_flag sample_db alice = inr (Some false)
  /\ staff_flag sample_db root = inr (Some true)
  /\ serve (ctx_of alice) (to_admin signIn "POST" body) sample_db
     = (Some missing_staff_parameters, sample_db)
  /\ serve (ctx_of root) (to_admin signIn "POST" body) sample_db
     = (Some missing_staff_parameters, sample_db)
  /\ missing_staff_parameters <> Forbidden_staff_only
  /\ Admin.change_staff (ctx_of alice) (mkReq "POST" body false) sample_db
     = (inl Forbidden_staff_only, sample_db).
Proof. repeat split. discriminate. Qed.

(** The column itself can be written: without the removal of the key, the
    update of [PUT /users] would raise Alice's flag; and the handler
    [change_staff], given a request with its body unread, raises it for a
    staff caller. *)
Example is_staff_column_is_writable :
  staff_flags
    (snd (mutate (update_user (authedClientFrom (Some alice)) (fun u => u_id u =? alice)
                    [("is_staff", JBool true)]) sample_db))
  = [Some true; None; Some true]
  /\ staff_flags
       (snd (Admin.change_staff (ctx_of root)
               (post [("target_user_id", JUuid alice); ("is_staff", JBool true)])
               sample_db))
     = [Some true; None; Some true]
  /\ staff_flags sample_db = [Some false; None; Some true].
Proof. repeat split. Qed.

(** ** The store stays well formed *)

Lemma references_owned_same_owner (db : Db) :
  categories_pk db -> references_owned db -> same_owner_references db.
Proof.
  intros pk R t c Ht Hc E.
  destruct (R t (c_id c) Ht E) as (c' & Hc' & Eid & Eo).
  now rewrite <- (pk_unique c_id _ c c' pk Hc Hc' Eid).
Qed.

Lemma NoDup_map_filter {A : Type} (key : A -> nat) (f : A -> bool) (l : list A) :
  NoDup (map key l) -> NoDup (map key (filter f l)).
Proof.
  induction l as [|x l IH]; simpl; intros ND; [constructor|].
  inversion ND as [|k ks Hx ND']; subst.
  destruct (f x); simpl; [constructor|]; auto.
  intros Hin. apply Hx. apply in_map_iff in Hin as (y & E & Hy).
  apply filter_In in Hy as [Hy _]. rewrite <- E. now apply in_map.
Qed.

Lemma validated_category (user cid : Id) (db : Db) (c : CategoryRow) :
  single (filter (fun c => (c_id c =? cid) && (c_user_id c =? user))
            (from_categories (authedClientFrom (Some user)) db)) = inr c ->
  In c (tbl_categories db) /\ c_id c = cid /\ c_user_id c = user.
Proof.
  intros H. apply single_inv in H.
  assert (In c (filter (fun c => (c_id c =? cid) && (c_user_id c =? user))
                  (from_categories (authedClientFrom (Some user)) db))) as X
    by (rewrite H; now left).
  apply filter_In in X as [X Y]. apply andb_true_iff in Y as [Y1 Y2].
  rewrite from_categories_authed in X. apply filter_In in X as [X _].
  apply Nat.eqb_eq in Y1, Y2. now repeat split.
Qed.

Lemma well_formed_same (db db' : Db) :
  tbl_categories db' = tbl_categories db ->
  tbl_transactions db' = tbl_transactions db ->
  well_formed db -> well_formed db'.
Proof.
  unfold well_formed, categories_pk, transactions_pk, references_owned.
  intros -> ->. tauto.
Qed.

Lemma well_formed_insert_category (cl : Client) (row r : CategoryRow) (db db' : Db) :
  insert_category cl row db = inr (r, db') -> well_formed db -> well_formed db'.
Proof.
  unfold insert_category.
  destruct (existsb _ _) eqn:X; [discriminate|].
  destruct (negb _); [discriminate|]. destruct (negb _); [discriminate|].
  intros [= <- <-] (cpk & tpk & R). repeat split; simpl.
  - unfold categories_pk. simpl. rewrite map_app. simpl.
    apply NoDup_app; [exact cpk | repeat constructor; intros [] |].
    intros i Hi [<-|[]]. apply in_map_iff in Hi as (y & E & Hy).
    assert (existsb (fun r0 => c_id r0 =? c_id row) (tbl_categories db) = true) as Z.
    { apply existsb_exists. exists y. split; [assumption|]. now apply Nat.eqb_eq. }
    congruence.
  - exact tpk.
  - intros t cid Ht E. destruct (R t cid Ht E) as (c & Hc & H1 & H2).
    exists c. split; [apply in_or_app; now left|]. now split.
Qed.

Lemma well_formed_update_category (cl : Client) (pred : CategoryRow -> bool)
  (ud : CategoryUpdate) (r : CategoryRow) (db db' : Db) :
  update_category cl pred ud db = inr (r, db') -> well_formed db -> well_formed db'.
Proof.
  intros H (cpk & tpk & R).
  apply update_category_inv in H as (_ & Ec & Et).
  set (f := fun r => if policy c_user_id cl r && pred r
                     then apply_category_update ud r else r) in Ec.
  assert (forall x, c_id (f x) = c_id x /\ c_user_id (f x) = c_user_id x) as F.
  { intros x. unfold f. now destruct (_ && _). }
  repeat split.
  - unfold categories_pk. rewrite Ec, map_map.
    rewrite (map_ext _ c_id); [exact cpk|]. intros x. apply F.
  - unfold transactions_pk. now rewrite Et.
  - intros t cid Ht E. rewrite Et in Ht. destruct (R t cid Ht E) as (c & Hc & H1 & H2).
    exists (f c). rewrite Ec. split; [now apply in_map|].
    destruct (F c) as [-> ->]. now split.
Qed.

Lemma well_formed_delete_categories (db : Db) (hit : CategoryRow -> bool) :
  well_formed db ->
  well_formed
    (mkDb (tbl_users db)
       (filter (fun r => negb (hit r)) (tbl_categories db))
       (map (fun t => if existsb (opt_eqb (t_category_id t))
                           (map c_id (filter hit (tbl_categories db)))
                      then set_category_id None t else t)
          (tbl_transactions db))).
Proof.
  intros (cpk & tpk & R). repeat split; simpl.
  - now apply NoDup_map_filter.
  - unfold transactions_pk. simpl. rewrite map_map.
    rewrite (map_ext _ t_id); [exact tpk|]. intros x. now destruct (existsb _ _).
  - intros t' cid Ht' E. simpl in Ht'. apply in_map_iff in Ht' as (t & <- & Ht).
    destruct (existsb _ _) eqn:X; [discriminate E|].
    destruct (R t cid Ht E) as (c & Hc & H1 & H2).
    exists c. split; [|now split]. apply filter_In. split; [assumption|].
    destruct (hit c) eqn:Hh; [|reflexivity]. exfalso.
    assert (existsb (opt_eqb (t_category_id t))
              (map c_id (filter hit (tbl_categories db))) = true) as Z; [|congruence].
    apply existsb_exists. exists (c_id c). split.
    + apply in_map, filter_In. now split.
    + rewrite E, H1. simpl. apply Nat.eqb_refl.
Qed.

Lemma well_formed_delete_transactions (db : Db) (f : TransactionRow -> bool) :
  well_formed db ->
  well_formed (mkDb (tbl_users db) (tbl_categories db) (filter f (tbl_transactions db))).
Proof.
  intros (cpk & tpk & R). repeat split; simpl.
  - exact cpk.
  - now apply NoDup_map_filter.
  - intros t cid Ht E. simpl in Ht. apply filter_In in Ht as [Ht _]. now apply R.
Qed.

Lemma well_formed_insert_transaction (cl : Client) (row r : TransactionRow) (db db' : Db) :
  insert_transaction cl row db = inr (r, db') ->
  (forall cid, t_category_id row = Some cid ->
     exists c, In c (tbl_categories db) /\ c_id c = cid /\ c_user_id c = t_user_id row) ->
  well_formed db -> well_formed db'.
Proof.
  intros H Hrow (cpk & tpk & R).
  apply insert_transaction_inv in H as (_ & _ & Ec & Et & Hfresh).
  repeat split.
  - unfold categories_pk. now rewrite Ec.
  - unfold transactions_pk. rewrite Et, map_app. simpl.
    apply NoDup_app; [exact tpk | repeat constructor; intros [] |].
    intros i Hi [<-|[]]. contradiction.
  - intros t cid Ht E. rewrite Ec. rewrite Et in Ht.
    apply in_app_or in Ht as [Ht|[<-|[]]]; [now apply R | now apply Hrow].
Qed.

Lemma well_formed_update_transaction (cl : Client) (pred : TransactionRow -> bool)
  (ud : UpdateData) (r : TransactionRow) (db db' : Db) :
  update_transaction cl pred ud db = inr (r, db') ->
  (forall t cid, In t (tbl_transactions db) -> policy t_user_id cl t && pred t = true ->
     ud_category_id ud = Some cid ->
     exists c, In c (tbl_categories db) /\ c_id c = cid /\ c_user_id c = t_user_id t) ->
  well_formed db -> well_formed db'.
Proof.
  intros H Hud (cpk & tpk & R).
  apply update_transaction_inv in H as (_ & Ec & Et & _).
  repeat split.
  - unfold categories_pk. now rewrite Ec.
  - unfold transactions_pk. rewrite Et, map_map.
    rewrite (map_ext _ t_id); [exact tpk|]. intros x. now destruct (_ && _).
  - intros t' cid Ht' E. rewrite Ec. rewrite Et in Ht'.
    apply in_map_iff in Ht' as (t & <- & Ht).
    destruct (policy t_user_id cl t && pred t) eqn:Hit; [|now apply R].
    change (t_user_id (apply_update ud t)) with (t_user_id t).
    simpl in E. destruct (ud_category_id ud) as [c'|] eqn:U.
    + injection E as ->. now apply (Hud t cid).
    + now apply R.
Qed.

Ltac own_reference :=
  simpl; intros;
  first
    [ congruence
    | repeat match goal with
             | H : Some _ = Some _ |- _ => injection H as <-
             | H : single (filter _ (from_categories _ _)) = inr _ |- _ =>
                 apply validated_category in H; destruct H as (? & ? & ?)
             | H : _ && _ = true |- _ => apply andb_true_iff in H; destruct H
             | H : (_ =? _) = true |- _ => apply Nat.eqb_eq in H
             end;
      eexists; split; [eassumption|]; split; congruence ].

Ltac wf_kept W :=
  first
    [ exact W
    | apply well_formed_delete_transactions; exact W
    | match goal with
      | |- well_formed (mkDb _ (filter (fun r => negb (@?hit r)) _) _) =>
          apply (well_formed_delete_categories _ hit W)
      | H : insert_category _ _ _ = inr _ |- _ =>
          exact (well_formed_insert_category _ _ _ _ _ H W)
      | H : update_category _ _ _ _ = inr _ |- _ =>
          exact (well_formed_update_category _ _ _ _ _ _ H W)
      | H : update_user _ _ _ _ = inr _ |- _ =>
          apply update_user_inv in H; destruct H as (? & ? & _);
          now apply (well_formed_same _ _) with (3 := W)
      | H : upsert_user _ _ _ = inr _ |- _ =>
          apply upsert_user_inv in H; destruct H as (? & ?);
          now apply (well_formed_same _ _) with (3 := W)
      | H : insert_transaction _ _ _ = inr _ |- _ =>
          apply (well_formed_insert_transaction _ _ _ _ _ H); [own_reference | exact W]
      | H : update_transaction _ _ _ _ = inr _ |- _ =>
          apply (well_formed_update_transaction _ _ _ _ _ _ H); [own_reference | exact W]
      end ].

(** Every request leaves a well-formed store well formed. *)
Lemma serve_well_formed (ctx : Ctx) (req : Request) (db : Db) :
  well_formed db -> well_formed (snd (serve ctx req db)).
Proof.
  intros W.
  destruct ctx as [c n d u s]. destruct req; simpl; unfold outcome; simpl.
  - unfold Cashflow.categories, Cashflow.userData, requireAuth. step. cases; wf_kept W.
  - unfold Cashflow.getCategory, Cashflow.userData, requireAuth. step. cases; wf_kept W.
  - unfold Cashflow.createCategory, requireFields, requireAuth. step. cases; wf_kept W.
  - unfold Cashflow.deleteCategory, requireAuth. step. cases; wf_kept W.
  - unfold Cashflow.updateCategory, requireAuth. step. cases; wf_kept W.
  - unfold Cashflow.transactions, Cashflow.userData, requireAuth. step. cases; wf_kept W.
  - unfold Cashflow.getTransaction, Cashflow.userData, requireAuth. step. cases; wf_kept W.
  - unfold Cashflow.createTransaction, Cashflow.validateCategory, requireFields, requireAuth.
    step. cases; wf_kept W.
  - unfold Cashflow.updateTransaction, Cashflow.validateCategory, requireAuth.
    step. cases; wf_kept W.
  - unfold Cashflow.deleteTransaction, requireAuth. step. cases; wf_kept W.
  - unfold Cashflow.summary, requireAuth. step. cases; wf_kept W.
  - unfold Cashflow.markAsPaid, Cashflow.fetchOwn, Cashflow.writePayment, requireAuth.
    step. cases; wf_kept W.
  - unfold Cashflow.markAsUnpaid, Cashflow.fetchOwn, Cashflow.writePayment, requireAuth.
    step. cases; wf_kept W.
  - unfold Cashflow.togglePaymentStatus, Cashflow.fetchOwn, Cashflow.writePayment,
      requireAuth.
    step. cases; wf_kept W.
  - unfold Users.POST. step. cases; wf_kept W.
  - unfold Users.PUT, requireAuth. step. cases; wf_kept W.
  - admin_kept. wf_kept W.
Qed.

(** Every store a session builds from the empty one is well formed: primary
    keys are unique and a transaction names a category of its own owner. *)
Theorem run_well_formed (reqs : list (Ctx * Request)) :
  well_formed (run reqs empty_db)
  /\ same_owner_references (run reqs empty_db).
Proof.
  assert (forall db, well_formed db -> well_formed (run reqs db)) as H.
  { induction reqs as [|[ctx req] reqs IH]; intros db W; simpl; [exact W|].
    apply IH, serve_well_formed, W. }
  assert (well_formed (run reqs empty_db)) as W.
  { apply H. repeat split; try constructor. intros t cid []. }
  split; [exact W|]. destruct W as (cpk & _ & R).
  now apply references_owned_same_owner.
Qed.

(** ** Every request: credentials, failures, reads *)

(** Walks the branches of every handler behind [serve]. *)
Ltac handlers :=
  simpl; try admin_kept; unfold outcome; simpl;
  unfold Cashflow.categories, Cashflow.getCategory, Cashflow.createCategory,
    Cashflow.deleteCategory, Cashflow.updateCategory, Cashflow.transactions,
    Cashflow.getTransaction, Cashflow.createTransaction, Cashflow.updateTransaction,
    Cashflow.deleteTransaction, Cashflow.summary, Cashflow.markAsPaid,
    Cashflow.markAsUnpaid, Cashflow.togglePaymentStatus, Cashflow.fetchOwn,
    Cashflow.writePayment, Cashflow.validateCategory, Cashflow.userData,
    Users.POST, Users.PUT, requireFields, requireAuth;
  step; cases.

Lemma admin_asks_for_credential (ctx : Ctx) (signIn : Json -> Json -> PgError + option Id)
  (method : string) (body : option Json) (db : Db) :
  authed ctx = authedClientFrom None ->
  needs_credential (to_admin signIn method body) = true ->
  Admin.serve ctx signIn (mkReq method body false) db
  = (Admin.Failed (mkHttpError 401 "Unauthorized"), db).
Proof.
  destruct ctx as [c n d u s]. simpl. intros ->. unfold action_of.
  destruct (String.eqb method "POST") eqn:M; [|discriminate].
  apply String.eqb_eq in M. subst method.
  destruct body as [[| | | | |fields]|]; try discriminate.
  destruct (lookup "action" fields) as [[| | |a| |]|] eqn:A; try discriminate.
  intros H. unfold Admin.serve. simpl. rewrite A.
  destruct (String.eqb a "me") eqn:Me.
  - apply String.eqb_eq in Me. subst a. reflexivity.
  - simpl in H. apply String.eqb_eq in H. subst a. reflexivity.
Qed.

(** X1. A request whose credential the identity provider does not resolve is
    answered 401 and writes nothing, whatever it asks for; the registration
    alone asks for no credential. *)
Theorem unauthenticated_is_rejected (ctx : Ctx) (req : Request) (db : Db) :
  authed ctx = authedClientFrom None ->
  needs_credential req = true ->
  serve ctx req db = (Some (mkHttpError 401 "Unauthorized"), db).
Proof.
  destruct ctx as [c n d u s]. simpl. intros -> H.
  destruct req; try discriminate H; try reflexivity.
  simpl. now rewrite admin_asks_for_credential.
Qed.

Lemma unauthenticated_is_rejected_witness :
  serve (mkCtx (authedClientFrom None) 9 30 300 9) (DELETE_transaction 100) sample_db
  = (Some (mkHttpError 401 "Unauthorized"), sample_db).
Proof.
  apply unauthenticated_is_rejected; reflexivity.
Defined.

(** X2. A request to [cashflow], [PUT /users] or the [admin] function that
    is answered with an error leaves the tables as they were: none of their
    handlers writes before a check that can still fail. The registration is
    left out: it has the identity provider create the user before it writes
    the profile, and a failure of the second does not undo the first. *)
Theorem failed_request_writes_nothing (ctx : Ctx) (req : Request) (db : Db) (e : HttpError) :
  is_registration req = false ->
  fst (serve ctx req db) = Some e -> snd (serve ctx req db) = db.
Proof.
  destruct ctx as [c n d u s].
  destruct req; intros R; try discriminate R; try (simpl; admin_kept; reflexivity);
    handlers; intros H; first [reflexivity | discriminate H].
Qed.

Lemma failed_request_writes_nothing_witness :
  fst (serve (ctx_of alice) (PATCH_pay 100) sample_db) = Some Conflict_already_paid
  /\ snd (serve (ctx_of alice) (PATCH_pay 100) sample_db) = sample_db.
Proof.
  split; [reflexivity|].
  apply (failed_request_writes_nothing _ _ _ Conflict_already_paid); reflexivity.
Defined.

(** X3. The five GET routes never write, whoever calls them and whatever
    they answer. *)
Theorem reads_write_nothing (ctx : Ctx) (req : Request) (db : Db) :
  is_read req = true -> snd (serve ctx req db) = db.
Proof.
  destruct ctx as [c n d u s].
  destruct req; intros H; try discriminate H; handlers; reflexivity.
Qed.

Lemma reads_write_nothing_witness :
  snd (serve (ctx_of root) (GET_transactions no_params) sample_db) = sample_db.
Proof.
  apply reads_write_nothing. reflexivity.
Defined.

(** ** Writes stay with the caller *)

Lemma filter_map_frame {A : Type} (p : A -> bool) (f : A -> A) (l : list A) :
  (forall x, p x = true -> f x = x) -> (forall x, p (f x) = p x) ->
  filter p (map f l) = filter p l.
Proof.
  intros Hf Hp. induction l as [|x l IH]; simpl; [reflexivity|].
  rewrite Hp. destruct (p x) eqn:E; [rewrite (Hf x E)|]; now rewrite IH.
Qed.

Lemma filter_filter_frame {A : Type} (p q : A -> bool) (l : list A) :
  (forall x, p x = true -> q x = true) -> filter p (filter q l) = filter p l.
Proof.
  intros H. induction l as [|x l IH]; simpl; [reflexivity|].
  destruct (q x) eqn:Q; simpl; rewrite IH; [reflexivity|].
  destruct (p x) eqn:P; [|reflexivity]. apply H in P. congruence.
Qed.

Lemma foreign_rows_same (user : Id) (db db' : Db) :
  tbl_categories db' = tbl_categories db ->
  tbl_transactions db' = tbl_transactions db ->
  foreign_rows_kept user db db'.
Proof.
  intros C T. unfold foreign_rows_kept, foreign_transactions, foreign_categories.
  now rewrite C, T.
Qed.

Lemma foreign_rows_insert_transaction (user : Id) (row r : TransactionRow) (db db' : Db) :
  insert_transaction (authedClientFrom (Some user)) row db = inr (r, db') ->
  foreign_rows_kept user db db'.
Proof.
  unfold insert_transaction. simpl.
  destruct (existsb _ _); [discriminate|].
  destruct (t_user_id row =? user) eqn:O; [|discriminate]. simpl.
  destruct (0 <? t_amount row)%Z; [|discriminate]. simpl.
  destruct (category_exists db (t_category_id row)); [|discriminate]. simpl.
  intros [= _ <-]. unfold foreign_rows_kept, foreign_transactions, foreign_categories.
  simpl. rewrite filter_app. simpl. rewrite O. simpl. now rewrite app_nil_r.
Qed.

Lemma foreign_rows_update_transaction (user : Id) (pred : TransactionRow -> bool)
  (ud : UpdateData) (r : TransactionRow) (db db' : Db) :
  update_transaction (authedClientFrom (Some user)) pred ud db = inr (r, db') ->
  foreign_rows_kept user db db'.
Proof.
  intros H. apply update_transaction_inv in H as (_ & C & T & _).
  unfold foreign_rows_kept, foreign_transactions, foreign_categories.
  rewrite C, T. split; [|reflexivity].
  apply filter_map_frame; simpl.
  - intros x Hx. apply negb_true_iff in Hx. now rewrite Hx.
  - intros x. now destruct (_ && _).
Qed.

Lemma foreign_rows_delete_transactions (user : Id) (pred : TransactionRow -> bool) (db : Db) :
  foreign_rows_kept user db
    (mkDb (tbl_users db) (tbl_categories db)
       (filter (fun r => negb ((t_user_id r =? user) && pred r)) (tbl_transactions db))).
Proof.
  unfold foreign_rows_kept, foreign_transactions, foreign_categories. simpl.
  split; [|reflexivity]. apply filter_filter_frame.
  intros x Hx. apply negb_true_iff in Hx. now rewrite Hx.
Qed.

Lemma foreign_rows_insert_category (user : Id) (row r : CategoryRow) (db db' : Db) :
  insert_category (authedClientFrom (Some user)) row db = inr (r, db') ->
  foreign_rows_kept user db db'.
Proof.
  unfold insert_category. simpl.
  destruct (existsb _ (tbl_categories db)); [discriminate|].
  destruct (c_user_id row =? user) eqn:O; [|discriminate]. simpl.
  destruct (existsb _ (tbl_users db)); [|discriminate]. simpl.
  intros [= _ <-]. unfold foreign_rows_kept, foreign_transactions, foreign_categories.
  simpl. rewrite filter_app. simpl. rewrite O. simpl. now rewrite app_nil_r.
Qed.

Lemma foreign_rows_update_category (user : Id) (pred : CategoryRow -> bool)
  (ud : CategoryUpdate) (r : CategoryRow) (db db' : Db) :
  update_category (authedClientFrom (Some user)) pred ud db = inr (r, db') ->
  foreign_rows_kept user db db'.
Proof.
  intros H. apply update_category_inv in H as (_ & C & T).
  unfold foreign_rows_kept, foreign_transactions, foreign_categories.
  rewrite C, T. split; [reflexivity|].
  apply filter_map_frame; simpl.
  - intros x Hx. apply negb_true_iff in Hx. now rewrite Hx.
  - intros x. now destruct (_ && _).
Qed.

(** [ON DELETE SET NULL] reaches the transactions that name a deleted
    category; in a well-formed store those are the caller's own. *)
Lemma foreign_rows_delete_categories (user : Id) (pred : CategoryRow -> bool) (db : Db) :
  well_formed db ->
  foreign_rows_kept user db
    (mkDb (tbl_users db)
       (filter (fun r => negb ((c_user_id r =? user) && pred r)) (tbl_categories db))
       (map (fun t => if existsb (opt_eqb (t_category_id t))
                           (map c_id (filter (fun r => (c_user_id r =? user) && pred r)
                                        (tbl_categories db)))
                      then set_category_id None t else t)
          (tbl_transactions db))).
Proof.
  intros (cpk & _ & R).
  unfold foreign_rows_kept, foreign_transactions, foreign_categories. simpl. split.
  - rewrite filter_map.
    assert (forall l, incl l (tbl_transactions db) ->
              map (fun t => if existsb (opt_eqb (t_category_id t))
                                 (map c_id (filter (fun r => (c_user_id r =? user) && pred r)
                                              (tbl_categories db)))
                            then set_category_id None t else t)
                (filter (fun x => negb (t_user_id
                           (if existsb (opt_eqb (t_category_id x))
                                 (map c_id (filter (fun r => (c_user_id r =? user) && pred r)
                                              (tbl_categories db)))
                            then set_category_id None x else x) =? user)) l)
              = filter (fun t => negb (t_user_id t =? user)) l) as H.
    { induction l as [|t l IH]; intros Hl; simpl; [reflexivity|].
      assert (In t (tbl_transactions db)) as Ht by (apply Hl; now left).
      assert (incl l (tbl_transactions db)) as Hl' by (intros x Hx; apply Hl; now right).
      destruct (existsb _ _) eqn:E; simpl.
      - apply existsb_exists in E as (cid & Hcid & Ho).
        apply opt_eqb_eq in Ho. apply in_map_iff in Hcid as (c & <- & Hc).
        apply filter_In in Hc as (Hc & Hown).
        apply andb_true_iff in Hown as (Hown & _). apply Nat.eqb_eq in Hown.
        destruct (R t (c_id c) Ht Ho) as (c' & Hc' & Hid & Howner).
        assert (c' = c) as -> by (eapply pk_unique; eassumption).
        assert ((t_user_id t =? user) = true) as -> by (apply Nat.eqb_eq; congruence).
        simpl. now apply IH.
      - destruct (t_user_id t =? user); simpl; [now apply IH|].
        rewrite E. f_equal. now apply IH. }
    apply H, incl_refl.
  - apply filter_filter_frame.
    intros x Hx. apply negb_true_iff in Hx. now rewrite Hx.
Qed.

Ltac foreign_kept W :=
  first
    [ apply foreign_rows_same; reflexivity
    | apply foreign_rows_delete_transactions
    | apply foreign_rows_delete_categories; exact W
    | match goal with
      | H : insert_category _ _ _ = inr _ |- _ =>
          exact (foreign_rows_insert_category _ _ _ _ _ H)
      | H : update_category _ _ _ _ = inr _ |- _ =>
          exact (foreign_rows_update_category _ _ _ _ _ _ H)
      | H : insert_transaction _ _ _ = inr _ |- _ =>
          exact (foreign_rows_insert_transaction _ _ _ _ _ H)
      | H : update_transaction _ _ _ _ = inr _ |- _ =>
          exact (foreign_rows_update_transaction _ _ _ _ _ _ H)
      | H : update_user _ _ _ _ = inr _ |- _ =>
          apply update_user_inv in H; destruct H as (? & ? & _);
          now apply foreign_rows_same
      | H : upsert_user _ _ _ = inr _ |- _ =>
          apply upsert_user_inv in H; destruct H as (? & ?);
          now apply foreign_rows_same
      end ].

(** X4. No request changes a category or a transaction of another user
    than its caller, staff or not: every write goes through the caller's own
    client, and the staff view only reads through the service role. *)
Theorem writes_stay_with_the_caller (ctx : Ctx) (user : Id) (req : Request) (db : Db) :
  caller ctx user ->
  well_formed db ->
  foreign_rows_kept user db (snd (serve ctx req db)).
Proof.
  intros Hc W. destruct ctx as [cl n d u s]. unfold caller in Hc. simpl in Hc. subst cl.
  destruct req; handlers; foreign_kept W.
Qed.

Lemma sample_well_formed : well_formed sample_db.
Proof.
  split; [apply sample_categories_pk|]. split; [apply sample_transactions_pk|].
  intros t cid Ht Hcid. simpl in Ht.
  destruct Ht as [<-|[<-|[<-|[]]]]; injection Hcid as <-;
    first [ eexists; split; [left; reflexivity | split; reflexivity]
          | eexists; split; [right; left; reflexivity | split; reflexivity]
          | eexists; split; [right; right; left; reflexivity | split; reflexivity]
          | eexists; split; [right; right; right; left; reflexivity | split; reflexivity] ].
Qed.

Lemma writes_stay_with_the_caller_witness :
  foreign_rows_kept root sample_db (snd (serve (ctx_of root) (DELETE_transaction 200) sample_db))
  /\ snd (serve (ctx_of root) (DELETE_transaction 200) sample_db) = sample_db.
Proof.
  split; [|reflexivity].
  apply writes_stay_with_the_caller; [reflexivity | apply sample_well_formed].
Defined.

(** ** The amount check *)

Lemma amounts_same (db db' : Db) :
  tbl_transactions db' = tbl_transactions db -> amounts_positive db -> amounts_positive db'.
Proof. unfold amounts_positive. now intros ->. Qed.

Lemma amounts_insert_transaction (cl : Client) (row r : TransactionRow) (db db' : Db) :
  insert_transaction cl row db = inr (r, db') ->
  (0 < t_amount row)%Z /\ (amounts_positive db -> amounts_positive db').
Proof.
  unfold insert_transaction.
  destruct (existsb _ _); [discriminate|].
  destruct (negb (policy _ _ _)); [discriminate|].
  destruct (0 <? t_amount row)%Z eqn:A; [|discriminate]. simpl.
  destruct (negb (category_exists _ _)); [discriminate|].
  intros [= _ <-]. apply Z.ltb_lt in A. split; [exact A|].
  unfold amounts_positive. simpl. intros P. apply Forall_app. split; [exact P|].
  now constructor.
Qed.

Lemma amounts_update_transaction (cl : Client) (pred : TransactionRow -> bool)
  (ud : UpdateData) (r : TransactionRow) (db db' : Db) :
  update_transaction cl pred ud db = inr (r, db') ->
  amounts_positive db -> amounts_positive db'.
Proof.
  unfold update_transaction.
  destruct (filter _ _) as [|t [|]] eqn:F; try discriminate.
  destruct (given (ud_amount ud) && _) eqn:A; [discriminate|].
  destruct (given (ud_category_id ud) && _); [discriminate|].
  intros [= _ <-]. unfold amounts_positive. simpl. intros P.
  apply Forall_forall. intros x Hx. apply in_map_iff in Hx as (y & <- & Hy).
  rewrite Forall_forall in P. specialize (P y Hy).
  destruct (policy t_user_id cl y && pred y); [|exact P].
  destruct (ud_amount ud) as [a|] eqn:E; simpl in *; unfold apply_update; simpl;
    rewrite E; simpl; [|exact P].
  unfold apply_update in A. simpl in A. rewrite E in A. simpl in A.
  apply negb_false_iff, Z.ltb_lt in A. exact A.
Qed.

Lemma amounts_filter (db : Db) (f : TransactionRow -> bool) :
  amounts_positive db ->
  amounts_positive (mkDb (tbl_users db) (tbl_categories db) (filter f (tbl_transactions db))).
Proof.
  unfold amounts_positive. simpl. rewrite !Forall_forall.
  intros P x Hx. apply filter_In in Hx as (Hx & _). now apply P.
Qed.

Lemma amounts_set_null (db : Db) (cats : list CategoryRow) (gone : list Id) :
  amounts_positive db ->
  amounts_positive
    (mkDb (tbl_users db) cats
       (map (fun t => if existsb (opt_eqb (t_category_id t)) gone
                      then set_category_id None t else t)
          (tbl_transactions db))).
Proof.
  unfold amounts_positive. simpl. rewrite !Forall_forall.
  intros P x Hx. apply in_map_iff in Hx as (y & <- & Hy).
  destruct (existsb _ _); simpl; now apply P.
Qed.

Ltac amounts_kept P :=
  first
    [ exact P
    | apply amounts_filter; exact P
    | apply amounts_set_null; exact P
    | match goal with
      | H : insert_category _ _ _ = inr _ |- _ =>
          apply insert_category_inv in H; destruct H as (_ & _ & ?);
          now apply amounts_same with (2 := P)
      | H : update_category _ _ _ _ = inr _ |- _ =>
          apply update_category_inv in H; destruct H as (_ & _ & ?);
          now apply amounts_same with (2 := P)
      | H : update_user _ _ _ _ = inr _ |- _ =>
          apply update_user_inv in H; destruct H as (_ & ? & _);
          now apply amounts_same with (2 := P)
      | H : upsert_user _ _ _ = inr _ |- _ =>
          apply upsert_user_inv in H; destruct H as (_ & ?);
          now apply amounts_same with (2 := P)
      | H : insert_transaction _ _ _ = inr _ |- _ =>
          exact (proj2 (amounts_insert_transaction _ _ _ _ _ H) P)
      | H : update_transaction _ _ _ _ = inr _ |- _ =>
          exact (amounts_update_transaction _ _ _ _ _ _ H P)
      end ].

Lemma serve_amounts_positive (ctx : Ctx) (req : Request) (db : Db) :
  amounts_positive db -> amounts_positive (snd (serve ctx req db)).
Proof.
  intros P. destruct ctx as [c n d u s].
  destruct req; handlers; amounts_kept P.
Qed.

Lemma createTransaction_amount (ctx : Ctx) (body : TransactionPayload) (db : Db)
  (env : Envelope TransactionJoined) :
  fst (Cashflow.createTransaction ctx body db) = inr env ->
  exists a, p_amount body = Some a /\ (0 < a)%Z /\ t_amount (tj_row (data env)) = a.
Proof.
  destruct ctx as [c n d u s].
  unfold Cashflow.createTransaction, Cashflow.validateCategory, requireFields, requireAuth.
  step. cases; intros H; try discriminate H.
  all: injection H as <-; simpl.
  all: match goal with
       | H : insert_transaction _ _ _ = inr _ |- _ =>
           pose proof (proj1 (amounts_insert_transaction _ _ _ _ _ H)) as A;
           apply insert_transaction_inv in H as (-> & _)
       end.
  all: eexists; split; [reflexivity|]; split; [exact A | reflexivity].
Qed.

(** X5. Every stored amount stays positive: a store whose amounts are
    positive keeps them so across any request, hence across any session from
    the empty store; a create succeeds only with a positive amount; and an
    update whose body carries the amount 0 is served as if it carried none. *)
Theorem amounts_stay_positive (ctx : Ctx) (db : Db) :
  (forall req, amounts_positive db -> amounts_positive (snd (serve ctx req db)))
  /\ (forall reqs, amounts_positive (run reqs empty_db))
  /\ (forall body env,
        fst (Cashflow.createTransaction ctx body db) = inr env ->
        exists a, p_amount body = Some a /\ (0 < a)%Z /\ t_amount (tj_row (data env)) = a)
  /\ (forall id ty de da ca ta no pa,
        Cashflow.updateTransaction ctx id
          (mkTransactionPayload ty (Some 0%Z) de da ca ta no pa) db
        = Cashflow.updateTransaction ctx id
            (mkTransactionPayload ty None de da ca ta no pa) db).
Proof.
  split; [intros req; apply serve_amounts_positive|].
  split; [|split; [intros body env; apply createTransaction_amount | reflexivity]].
  intros reqs.
  assert (forall db0, amounts_positive db0 -> amounts_positive (run reqs db0)) as H.
  { induction reqs as [|[c r] reqs IH]; intros db0 P; simpl; [exact P|].
    apply IH, serve_amounts_positive, P. }
  apply H. constructor.
Qed.

Lemma sample_amounts_positive : amounts_positive sample_db.
Proof. repeat constructor. Qed.

Lemma amounts_stay_positive_witness :
  amounts_positive
    (snd (serve (ctx_of alice)
            (PUT_transaction 101
               (mkTransactionPayload None (Some 4500%Z) None None None None None None))
            sample_db)).
Proof.
  apply (proj1 (amounts_stay_positive (ctx_of alice) sample_db)).
  apply sample_amounts_positive.
Defined.

(** ** Deleting a transaction *)

Lemma remove_transaction_In (db : Db) (user id : Id) (t : TransactionRow) :
  In t (tbl_transactions (remove_transaction db user id))
  <-> In t (tbl_transactions db) /\ ~ (t_id t = id /\ t_user_id t = user).
Proof.
  unfold remove_transaction. simpl. rewrite filter_In, negb_true_iff, andb_false_iff.
  rewrite !Nat.eqb_neq. intuition.
  destruct (Nat.eq_dec (t_id t) id); [right|left]; intuition.
Qed.

Lemma deleteTransaction_removes (ctx : Ctx) (user id : Id) (db : Db) :
  caller ctx user ->
  Cashflow.deleteTransaction ctx id db
  = (inr (successMessage "Transação deletada com sucesso"), remove_transaction db user id).
Proof.
  intros Hc. destruct ctx as [cl n d u s]. unfold caller in Hc. simpl in Hc. subst cl.
  unfold Cashflow.deleteTransaction, requireAuth. step.
  unfold remove_transaction. do 2 f_equal. apply filter_ext. intros t.
  destruct (t_user_id t =? user), (t_id t =? id); reflexivity.
Qed.

(** X6. DELETE /transactions/:id always answers success for an
    authenticated caller: it removes the caller's transaction with that id
    and no other row; when the id is absent or names someone else's
    transaction the store is left as it was, and deleting twice is the same as
    deleting once. *)
Theorem delete_transaction_is_silent (ctx : Ctx) (user id : Id) (db : Db) :
  caller ctx user ->
  Cashflow.deleteTransaction ctx id db
  = (inr (successMessage "Transação deletada com sucesso"), remove_transaction db user id)
  /\ (forall t, In t (tbl_transactions (remove_transaction db user id))
        <-> In t (tbl_transactions db) /\ ~ (t_id t = id /\ t_user_id t = user))
  /\ ((forall t, In t (tbl_transactions db) -> t_id t = id -> t_user_id t <> user) ->
      Cashflow.deleteTransaction ctx id db
      = (inr (successMessage "Transação deletada com sucesso"), db))
  /\ snd (Cashflow.deleteTransaction ctx id (remove_transaction db user id))
     = remove_transaction db user id.
Proof.
  intros Hc. split; [now apply deleteTransaction_removes|].
  split; [apply remove_transaction_In|]. split.
  - intros H. rewrite (deleteTransaction_removes _ _ _ _ Hc). f_equal.
    unfold remove_transaction. destruct db as [us cs ts]. simpl in *. f_equal.
    rewrite <- (filter_all (fun _ => true) ts) at 2 by reflexivity.
    apply filter_ext_in. intros t Ht. apply negb_true_iff, andb_false_iff.
    destruct (t_id t =? id) eqn:E; [right|now left].
    apply Nat.eqb_eq in E. apply Nat.eqb_neq. now apply H.
  - rewrite (deleteTransaction_removes _ _ _ _ Hc). simpl.
    unfold remove_transaction. simpl. f_equal.
    rewrite filter_twice. apply filter_ext. intros t. now rewrite andb_diag.
Qed.

Lemma delete_transaction_is_silent_witness :
  Cashflow.deleteTransaction (ctx_of alice) 200 sample_db
  = (inr (successMessage "Transação deletada com sucesso"), sample_db).
Proof.
  refine (proj1 (proj2 (proj2 (delete_transaction_is_silent (ctx_of alice) alice 200
                                 sample_db _))) _); [reflexivity|].
  intros t [<-|[<-|[<-|[]]]]; simpl; intros E; discriminate.
Defined.

(** ** Reading a row by its id *)

Lemma select_is_staff_admin (user : Id) (db : Db) :
  select_is_staff admin user db = staff_flag db user.
Proof.
  unfold staff_flag, select_is_staff, from_users.
  rewrite !filter_twice. do 2 f_equal. apply filter_ext. intros u. simpl.
  destruct (u_id u =? user); reflexivity.
Qed.

Lemma select_user_info_admin (user : Id) (db : Db) :
  select_user_info admin user db = select_user_info (authedClientFrom (Some user)) user db.
Proof.
  unfold select_user_info, from_users.
  rewrite !filter_twice. do 2 f_equal. apply filter_ext. intros u. simpl.
  destruct (u_id u =? user); reflexivity.
Qed.

Lemma profile_of_flag (user : Id) (db : Db) (flag : option bool) :
  staff_flag db user = inr flag ->
  exists info, select_user_info admin user db = inr info
               /\ ui_id info = user /\ ui_is_staff info = flag.
Proof.
  intros H. rewrite select_user_info_admin. now apply select_user_info_of_flag.
Qed.

Lemma fetch_by_id {A : Type} (key owner : A -> Id) (rows : list A) (r : A)
  (c : Client) (user : Id) (flag : option bool) :
  NoDup (map key rows) -> In r rows ->
  c = authedClientFrom (Some user) ->
  is_true flag = true \/ owner r = user ->
  (if is_true flag
   then single (filter (fun x => key x =? key r) (filter (policy owner admin) rows))
   else single (filter (fun x => (key x =? key r) && (owner x =? user))
                  (filter (policy owner c) rows)))
  = inr r.
Proof.
  intros pk Hr -> Hv. destruct (is_true flag).
  - rewrite filter_twice. rewrite (filter_unique key _ rows r); auto.
    + simpl. apply Nat.eqb_refl.
    + simpl. intros x _ Hx. now apply Nat.eqb_eq in Hx.
  - destruct Hv as [Hv|Hv]; [discriminate|].
    rewrite filter_twice. rewrite (filter_unique key _ rows r); auto.
    + simpl. rewrite Hv, !Nat.eqb_refl. reflexivity.
    + simpl. intros x _ Hx. apply andb_true_iff in Hx as (_ & Hx).
      apply andb_true_iff in Hx as (Hx & _). now apply Nat.eqb_eq in Hx.
Qed.


Lemma getTransaction_visible (ctx : Ctx) (user : Id) (db : Db) (flag : option bool)
  (t : TransactionRow) (info : UserInfo) :
  caller ctx user ->
  staff_flag db user = inr flag ->
  transactions_pk db -> In t (tbl_transactions db) ->
  is_true flag = true \/ t_user_id t = user ->
  select_user_info admin (t_user_id t) db = inr info ->
  Cashflow.getTransaction ctx (t_id t) db
  = (inr (successItem
            (mkTransactionWithUser (join_category (reader ctx flag) db t) (Some info))
            "Transação encontrada com sucesso"), db).
Proof.
  intros Hc Hf pk Hin Hv Hi.
  destruct ctx as [cl n d u s]. unfold caller in Hc. simpl in Hc. subst cl.
  unfold staff_flag in Hf.
  unfold Cashflow.getTransaction, Cashflow.userData, requireAuth, reader. step.
  rewrite Hf. simpl.
  pose proof (fetch_by_id t_id t_user_id (tbl_transactions db) t
                (authedClientFrom (Some user)) user flag pk Hin eq_refl Hv) as F.
  unfold from_transactions. destruct (is_true flag); rewrite F; simpl; now rewrite Hi.
Qed.



(** ** Creating and updating a transaction *)

Lemma own_category_found (user : Id) (db : Db) (cid : Id) :
  categories_pk db ->
  names_own_category db user (Some cid) ->
  exists c, single (filter (fun c => (c_id c =? cid) && (c_user_id c =? user))
                      (from_categories (authedClientFrom (Some user)) db)) = inr c
            /\ existsb (fun r => c_id r =? cid) (tbl_categories db) = true.
Proof.
  intros pk H. destruct (H cid eq_refl) as (c & Hin & Hid & Ho). exists c. split.
  - rewrite from_categories_authed, filter_twice.
    rewrite (filter_unique c_id _ _ c pk Hin); [reflexivity| |].
    + now rewrite Hid, Ho, !Nat.eqb_refl.
    + intros r _ Hr. apply andb_true_iff in Hr as (_ & Hr).
      apply andb_true_iff in Hr as (Hr & _). apply Nat.eqb_eq in Hr. congruence.
  - apply existsb_exists. exists c. split; [exact Hin|]. now apply Nat.eqb_eq.
Qed.

Lemma fresh_id (db : Db) (id : Id) :
  ~ In id (map t_id (tbl_transactions db)) ->
  existsb (fun r => t_id r =? id) (tbl_transactions db) = false.
Proof.
  intros H. destruct (existsb _ _) eqn:E; [|reflexivity]. exfalso. apply H.
  apply existsb_exists in E as (r & Hr & Hid). apply Nat.eqb_eq in Hid.
  rewrite <- Hid. now apply in_map.
Qed.

Lemma createTransaction_stores (ctx : Ctx) (user : Id) (db : Db) (body : TransactionPayload)
  (ty : TxType) (a : Amount) (de : string) :
  caller ctx user ->
  categories_pk db ->
  ~ In (uuid ctx) (map t_id (tbl_transactions db)) ->
  p_type body = Some ty -> p_amount body = Some a -> (0 < a)%Z ->
  p_description body = Some de -> de <> EmptyString ->
  names_own_category db user (p_category_id body) ->
  Cashflow.createTransaction ctx body db
  = (inr (successItem
            (join_category (authed ctx) (add_transaction db (new_transaction ctx user body ty a de))
               (new_transaction ctx user body ty a de))
            "Transação criada com sucesso"),
     add_transaction db (new_transaction ctx user body ty a de)).
Proof.
  intros Hc pk Hfresh Hty Ha Hpos Hde Hne Hcat.
  destruct ctx as [cl n d u s]. unfold caller in Hc. simpl in *. subst cl.
  destruct body as [ty0 a0 de0 da ca ta no pa]. simpl in *. subst ty0 a0 de0.
  unfold Cashflow.createTransaction, Cashflow.validateCategory, requireFields, requireAuth,
    new_transaction, add_transaction.
  step.
  assert (String.eqb de EmptyString = false) as -> by now apply String.eqb_neq.
  simpl.
  assert ((0 <? a)%Z = true) as Hlt by now apply Z.ltb_lt.
  destruct ca as [cid|]; simpl.
  - destruct (own_category_found user db cid pk Hcat) as (c & -> & Hex). simpl.
    unfold insert_transaction. simpl.
    rewrite (fresh_id db u Hfresh), Nat.eqb_refl, Hlt, Hex. reflexivity.
  - unfold insert_transaction. simpl.
    rewrite (fresh_id db u Hfresh), Nat.eqb_refl, Hlt. reflexivity.
Qed.

(** X8. A create with its required fields, a positive amount and no
    category, or a category of the caller, appends one row: the body's
    columns, the caller as owner, today's date, no tags, no notes and unpaid
    where the body is silent, [paid_at] stamped only when it is created paid.
    The new row is then found by its id, by its owner and by staff. *)
Theorem created_transaction_can_be_read (ctx : Ctx) (user : Id) (db : Db)
  (body : TransactionPayload) (ty : TxType) (a : Amount) (de : string)
  (flag : option bool) :
  caller ctx user ->
  staff_flag db user = inr flag ->
  categories_pk db ->
  transactions_pk db ->
  ~ In (uuid ctx) (map t_id (tbl_transactions db)) ->
  p_type body = Some ty -> p_amount body = Some a -> (0 < a)%Z ->
  p_description body = Some de -> de <> EmptyString ->
  names_own_category db user (p_category_id body) ->
  let row := new_transaction ctx user body ty a de in
  let db' := add_transaction db row in
  Cashflow.createTransaction ctx body db
  = (inr (successItem (join_category (authed ctx) db' row) "Transação criada com sucesso"),
     db')
  /\ (forall ctx', caller ctx' user ->
        exists info,
          Cashflow.getTransaction ctx' (uuid ctx) db'
          = (inr (successItem
                    (mkTransactionWithUser (join_category (reader ctx' flag) db' row)
                       (Some info))
                    "Transação encontrada com sucesso"), db')
          /\ ui_id info = user)
  /\ (t_is_paid row = true <-> p_is_paid body = Some true)
  /\ (t_paid_at row = if t_is_paid row then Some (now ctx) else None).
Proof.
  intros Hc Hf cpk tpk Hfresh Hty Ha Hpos Hde Hne Hcat row db'.
  split; [now apply createTransaction_stores|]. split.
  - intros ctx' Hc'.
    assert (staff_flag db' user = inr flag) as Hf' by exact Hf.
    destruct (profile_of_flag user db' flag Hf') as (info & Hi & Hid & _).
    exists info. split; [|exact Hid].
    apply (getTransaction_visible ctx' user db' flag row info); auto.
    + unfold transactions_pk, db', add_transaction. simpl.
      rewrite map_app. simpl. apply NoDup_app_remove_l with (l := []). simpl.
      apply Permutation_NoDup with (l := uuid ctx :: map t_id (tbl_transactions db)).
      * apply Permutation_cons_append.
      * constructor; assumption.
    + unfold db', add_transaction. simpl. apply in_or_app. right. now left.
  - unfold row, new_transaction. simpl.
    destruct (p_is_paid body) as [[|]|]; simpl; intuition congruence.
Qed.

Lemma created_transaction_can_be_read_witness :
  exists info,
    Cashflow.getTransaction (ctx_of alice) 300
      (snd (Cashflow.createTransaction (ctx_of alice)
              (mkTransactionPayload (Some expense) (Some 1500%Z) (Some "book") None (Some 11)
                 None None None) sample_db))
    = (inr (successItem
              (mkTransactionWithUser
                 (mkTransactionJoined
                    (mkTransaction 300 alice (Some 11) expense 1500%Z "book" 30 [] None
                       false None 9)
                    (Some (mkCategory 11 "Food" expense "#EF4444" "F" alice)))
                 (Some info))
              "Transação encontrada com sucesso"),
       snd (Cashflow.createTransaction (ctx_of alice)
              (mkTransactionPayload (Some expense) (Some 1500%Z) (Some "book") None (Some 11)
                 None None None) sample_db))
    /\ ui_id info = alice.
Proof.
  refine (proj1 (proj2 (created_transaction_can_be_read (ctx_of alice) alice sample_db
                          (mkTransactionPayload (Some expense) (Some 1500%Z) (Some "book")
                             None (Some 11) None None None)
                          expense 1500%Z "book" (Some false) _ _ _ _ _ _ _ _ _ _ _))
            (ctx_of alice) _);
    try reflexivity.
  - apply sample_categories_pk.
  - apply sample_transactions_pk.
  - simpl. intuition discriminate.
  - discriminate.
  - intros cid [= <-]. eexists. split; [right; left; reflexivity | split; reflexivity].
Defined.

Lemma update_own_row (user : Id) (db : Db) (t : TransactionRow) (ud : UpdateData) :
  transactions_pk db -> In t (tbl_transactions db) -> t_user_id t = user ->
  (forall a, ud_amount ud = Some a -> (0 < a)%Z) ->
  (forall cid, ud_category_id ud = Some cid ->
     existsb (fun r => c_id r =? cid) (tbl_categories db) = true) ->
  update_transaction (authedClientFrom (Some user))
    (fun r => (t_id r =? t_id t) && (t_user_id r =? user)) ud db
  = inr (apply_update ud t, rewrite_transaction db (t_id t) (apply_update ud)).
Proof.
  intros pk stored owned Ha Hc. unfold update_transaction.
  rewrite (filter_unique t_id _ _ t pk stored).
  - assert (given (ud_amount ud) && negb (0 <? t_amount (apply_update ud t))%Z = false) as ->.
    { unfold apply_update. simpl. destruct (ud_amount ud) as [a|]; [|reflexivity]. simpl.
      apply negb_false_iff, Z.ltb_lt. now apply Ha. }
    assert (given (ud_category_id ud)
            && negb (category_exists db (t_category_id (apply_update ud t))) = false) as ->.
    { unfold apply_update. simpl. destruct (ud_category_id ud) as [cid|]; [|reflexivity].
      simpl. now rewrite (Hc cid eq_refl). }
    unfold rewrite_transaction. do 3 f_equal.
    apply map_ext_in. intros r Hr.
    destruct (t_id r =? t_id t) eqn:E.
    + apply Nat.eqb_eq in E.
      rewrite (pk_unique t_id _ t r pk stored Hr E). simpl.
      now rewrite owned, !Nat.eqb_refl.
    + simpl. now rewrite andb_false_r.
  - simpl. now rewrite owned, !Nat.eqb_refl.
  - intros r _ H. apply andb_true_iff in H as [_ H].
    apply andb_true_iff in H as [H _]. now apply Nat.eqb_eq.
Qed.

Lemma updateTransaction_rewrites (ctx : Ctx) (user : Id) (db : Db) (t : TransactionRow)
  (body : TransactionPayload) :
  caller ctx user ->
  categories_pk db -> transactions_pk db ->
  In t (tbl_transactions db) -> t_user_id t = user ->
  names_own_category db user (p_category_id body) ->
  (forall a, p_amount body = Some a -> (0 <= a)%Z) ->
  Cashflow.updateTransaction ctx (t_id t) body db
  = (inr (successItem
            (join_category (authed ctx)
               (rewrite_transaction db (t_id t) (apply_update (Cashflow.updateData ctx body)))
               (apply_update (Cashflow.updateData ctx body) t))
            "Transação atualizada com sucesso"),
     rewrite_transaction db (t_id t) (apply_update (Cashflow.updateData ctx body))).
Proof.
  intros Hc cpk tpk Hin Ho Hcat Hamt.
  destruct ctx as [cl n d u s]. unfold caller in Hc. simpl in *. subst cl.
  unfold Cashflow.updateTransaction, Cashflow.validateCategory, requireAuth. step.
  assert (forall cid, p_category_id body = Some cid ->
            existsb (fun r => c_id r =? cid) (tbl_categories db) = true) as Hex.
  { intros cid E. rewrite E in Hcat.
    now destruct (own_category_found user db cid cpk Hcat) as (_ & _ & H). }
  assert (update_transaction (authedClientFrom (Some user))
            (fun r => (t_id r =? t_id t) && (t_user_id r =? user))
            (Cashflow.updateData (mkCtx (authedClientFrom (Some user)) n d u s) body) db
          = inr (apply_update (Cashflow.updateData (mkCtx (authedClientFrom (Some user)) n d u s) body) t,
                 rewrite_transaction db (t_id t)
                   (apply_update (Cashflow.updateData (mkCtx (authedClientFrom (Some user)) n d u s) body))))
    as U.
  { apply update_own_row; auto.
    intros a. unfold Cashflow.updateData. simpl.
    destruct (p_amount body) as [a0|] eqn:E; [|discriminate].
    destruct (a0 =? 0)%Z eqn:Z0; [discriminate|]. intros [= <-].
    apply Z.eqb_neq in Z0. specialize (Hamt a0 eq_refl). lia. }
  destruct (p_category_id body) as [cid|] eqn:Ecat; simpl.
  - destruct (own_category_found user db cid cpk Hcat) as (c & -> & _). simpl.
    rewrite U. reflexivity.
  - rewrite U. reflexivity.
Qed.

Lemma updateTransaction_negative (ctx : Ctx) (user : Id) (db : Db) (t : TransactionRow)
  (body : TransactionPayload) (a : Amount) :
  caller ctx user ->
  categories_pk db -> transactions_pk db ->
  In t (tbl_transactions db) -> t_user_id t = user ->
  names_own_category db user (p_category_id body) ->
  p_amount body = Some a -> (a < 0)%Z ->
  Cashflow.updateTransaction ctx (t_id t) body db
  = (inl (mkHttpError 400 pg_check_violation), db).
Proof.
  intros Hc cpk tpk Hin Ho Hcat Ea Hneg.
  destruct ctx as [cl n d u s]. unfold caller in Hc. simpl in *. subst cl.
  unfold Cashflow.updateTransaction, Cashflow.validateCategory, requireAuth. step.
  assert (update_transaction (authedClientFrom (Some user))
            (fun r => (t_id r =? t_id t) && (t_user_id r =? user))
            (Cashflow.updateData (mkCtx (authedClientFrom (Some user)) n d u s) body) db
          = inl pg_check_violation) as U.
  { unfold update_transaction.
    rewrite (filter_unique t_id _ _ t tpk Hin).
    - unfold Cashflow.updateData, apply_update. simpl. rewrite Ea.
      assert ((a =? 0)%Z = false) as -> by (apply Z.eqb_neq; lia). simpl.
      assert ((0 <? a)%Z = false) as -> by (apply Z.ltb_ge; lia). reflexivity.
    - simpl. now rewrite Ho, !Nat.eqb_refl.
    - intros r _ H. apply andb_true_iff in H as [_ H].
      apply andb_true_iff in H as [H _]. now apply Nat.eqb_eq. }
  destruct (p_category_id body) as [cid|] eqn:Ecat; simpl.
  - destruct (own_category_found user db cid cpk Hcat) as (c & -> & _). simpl.
    rewrite U. reflexivity.
  - rewrite U. reflexivity.
Qed.

(** X9. An update of a transaction the caller owns, whose body assigns
    some column, rewrites that row and no other: the columns the body
    carries take its values, the others, the id, the owner and [created_at]
    keep theirs, and the rows of the table keep their number and order. A
    negative amount is refused by the amount check and nothing is written.
    (Of the columns the functions name; [updated_at] is stamped by a
    trigger.) *)
Theorem update_rewrites_one_row (ctx : Ctx) (user : Id) (db : Db) (t : TransactionRow)
  (body : TransactionPayload) :
  caller ctx user ->
  categories_pk db -> transactions_pk db ->
  In t (tbl_transactions db) -> t_user_id t = user ->
  names_own_category db user (p_category_id body) ->
  assigns_some (Cashflow.updateData ctx body) = true ->
  let ud := Cashflow.updateData ctx body in
  let t' := apply_update ud t in
  let db' := rewrite_transaction db (t_id t) (apply_update ud) in
  ((forall a, p_amount body = Some a -> (0 <= a)%Z) ->
   Cashflow.updateTransaction ctx (t_id t) body db
   = (inr (successItem (join_category (authed ctx) db' t')
             "Transação atualizada com sucesso"), db'))
  /\ (forall a, p_amount body = Some a -> (a < 0)%Z ->
      Cashflow.updateTransaction ctx (t_id t) body db
      = (inl (mkHttpError 400 pg_check_violation), db))
  /\ (t_id t' = t_id t /\ t_user_id t' = t_user_id t /\ t_created_at t' = t_created_at t)
  /\ (p_type body = None -> t_type t' = t_type t)
  /\ (p_date body = None -> t_date t' = t_date t)
  /\ (p_category_id body = None -> t_category_id t' = t_category_id t)
  /\ (p_tags body = None -> t_tags t' = t_tags t)
  /\ (p_notes body = None -> t_notes t' = t_notes t)
  /\ (p_is_paid body = None -> t_is_paid t' = t_is_paid t /\ t_paid_at t' = t_paid_at t)
  /\ map t_id (tbl_transactions db') = map t_id (tbl_transactions db)
  /\ (forall r, In r (tbl_transactions db) -> t_id r <> t_id t ->
                In r (tbl_transactions db')).
Proof.
  intros Hc cpk tpk Hin Ho Hcat _ ud t' db'.
  split; [intros Hamt; now apply (updateTransaction_rewrites _ user)|].
  split; [intros a Ea Hneg; now apply (updateTransaction_negative _ user _ _ _ a)|].
  split; [repeat split|].
  unfold t', ud, apply_update, Cashflow.updateData. simpl.
  repeat (split; [now intros -> |]).
  split.
  - unfold db', rewrite_transaction. simpl. rewrite map_map. apply map_ext.
    intros r. now destruct (t_id r =? t_id t).
  - intros r Hr Hne. unfold db', rewrite_transaction. simpl.
    apply in_map_iff. exists r. split; [|exact Hr].
    apply Nat.eqb_neq in Hne. now rewrite Hne.
Qed.

Lemma update_rewrites_one_row_witness :
  Cashflow.updateTransaction (ctx_of alice) 101
    (mkTransactionPayload None None (Some "dinner") None None None None None) sample_db
  = (inr (successItem
            (mkTransactionJoined
               (mkTransaction 101 alice (Some 11) expense 4000%Z "dinner" 21 [] None
                  false None 6)
               (Some (mkCategory 11 "Food" expense "#EF4444" "F" alice)))
            "Transação atualizada com sucesso"),
     mkDb sample_users sample_categories
       [tx_pay;
        mkTransaction 101 alice (Some 11) expense 4000%Z "dinner" 21 [] None false None 6;
        tx_rent]).
Proof.
  refine (proj1 (update_rewrites_one_row (ctx_of alice) alice sample_db tx_lunch
                   (mkTransactionPayload None None (Some "dinner") None None None None None)
                   _ _ _ _ _ _ _) _);
    try reflexivity.
  - apply sample_categories_pk.
  - apply sample_transactions_pk.
  - simpl. tauto.
  - intros cid E. discriminate E.
  - intros a E. discriminate E.
Defined.

(** ** Pages of a listing *)

Lemma firstn_add {A : Type} (n m : nat) (l : list A) :
  firstn (n + m) l = firstn n l ++ firstn m (skipn n l).
Proof.
  revert l. induction n as [|n IH]; intros l; simpl; [reflexivity|].
  destruct l as [|x l]; simpl; [now rewrite firstn_nil|]. now rewrite IH.
Qed.

Lemma range_app {A : Type} (offset n m : nat) (l : list A) :
  range offset n l ++ range (offset + n) m l = range offset (n + m) l.
Proof.
  unfold range. rewrite firstn_add, skipn_skipn. now rewrite (Nat.add_comm n offset).
Qed.

Lemma range_length {A : Type} (offset limit : nat) (l : list A) :
  List.length (range offset limit l) <= limit.
Proof. unfold range. apply firstn_le_length. Qed.

Lemma filter_length {A : Type} (f : A -> bool) (l : list A) :
  List.length (filter f l) <= List.length l.
Proof.
  induction l as [|x l IH]; simpl; [lia|]. destruct (f x); simpl; lia.
Qed.

(** The rows of a listing, whoever asks: nothing on an error, the owner's
    filtered rows in a window, or for staff the filtered window of all rows. *)
Lemma listed_cases (ctx : Ctx) (q : ListParams) (db : Db) :
  listed (Cashflow.transactions ctx q db) = []
  \/ (exists user,
        listed (Cashflow.transactions ctx q db)
        = filter_then_window q (filter (fun t => t_user_id t =? user) (tbl_transactions db)))
  \/ listed (Cashflow.transactions ctx q db) = window_then_filter q (tbl_transactions db).
Proof.
  destruct ctx as [[|[user|]] n d u s]; [now left | | now left].
  destruct (staff_flag db user) as [e|flag] eqn:F.
  - left. unfold staff_flag in F.
    unfold Cashflow.transactions, Cashflow.userData, requireAuth, listed. step.
    now rewrite F.
  - destruct (is_true flag) eqn:T.
    + right. right. apply (staff_list_window_then_filter _ user); [reflexivity|].
      destruct flag as [[|]|]; try discriminate T. exact F.
    + right. left. exists user.
      now apply (owner_list_filter_then_window _ user _ _ flag).
Qed.

(** X10. Consecutive pages of a listing join up: for the same filters, the
    page of [n] rows from [offset] followed by the page of [m] rows from
    [offset + n] is the page of [n + m] rows from [offset], in the owner view
    and in the staff view alike; and a page never holds more rows than its
    limit, its [count] being the number of rows it holds. *)
Theorem pages_join_up (ctx : Ctx) (q : ListParams) (db : Db) (offset n m : nat) :
  0 < n -> 0 < m ->
  listed (Cashflow.transactions ctx (window q offset n) db)
  ++ listed (Cashflow.transactions ctx (window q (offset + n) m) db)
  = listed (Cashflow.transactions ctx (window q offset (n + m)) db)
  /\ (forall env,
        fst (Cashflow.transactions ctx (window q offset n) db) = inr env ->
        List.length (data env) <= n /\ count env = Some (List.length (data env))).
Proof.
  intros _ _. split.
  - destruct ctx as [[|[user|]] c d u s]; [reflexivity | | reflexivity].
    destruct (staff_flag db user) as [e|flag] eqn:F.
    + unfold staff_flag in F.
      unfold Cashflow.transactions, Cashflow.userData, requireAuth, listed. step.
      now rewrite F.
    + destruct (is_true flag) eqn:T.
      * assert (flag = Some true) as -> by (destruct flag as [[|]|]; now try discriminate T).
        rewrite !(staff_list_window_then_filter _ user) by (reflexivity || exact F).
        unfold window_then_filter. simpl. rewrite <- filter_app. f_equal.
        apply range_app.
      * rewrite !(owner_list_filter_then_window _ user _ _ flag)
          by (reflexivity || assumption).
        unfold filter_then_window. simpl. apply range_app.
  - intros env E.
    assert (List.length (listed (Cashflow.transactions ctx (window q offset n) db)) <= n) as L.
    { destruct (listed_cases ctx (window q offset n) db) as [->|[(user & ->)| ->]].
      - simpl. lia.
      - apply range_length.
      - unfold window_then_filter. etransitivity; [apply filter_length|].
        apply range_length. }
    unfold listed in L. rewrite E in L. rewrite length_map in L. split; [exact L|].
    revert E. destruct ctx as [cl c d u s].
    unfold Cashflow.transactions, Cashflow.userData, requireAuth. step. cases;
      intros E; try discriminate E; injection E as <-; reflexivity.
Qed.

Lemma pages_join_up_witness :
  listed (Cashflow.transactions (ctx_of alice) (window no_params 0 1) sample_db)
  ++ listed (Cashflow.transactions (ctx_of alice) (window no_params (0 + 1) 1) sample_db)
  = [tx_lunch; tx_pay].
Proof.
  rewrite (proj1 (pages_join_up (ctx_of alice) no_params sample_db 0 1 1
                    (Nat.lt_0_succ 0) (Nat.lt_0_succ 0))).
  reflexivity.
Defined.

(** ** Order of a listing *)

Lemma transaction_le_newest_first (a b : TransactionRow) :
  transaction_le a b = true <-> newest_first a b.
Proof.
  unfold transaction_le, newest_first.
  rewrite orb_true_iff, andb_true_iff, Nat.ltb_lt, Nat.eqb_eq, Nat.leb_le. tauto.
Qed.

Lemma newest_first_total (a b : TransactionRow) : newest_first a b \/ newest_first b a.
Proof. unfold newest_first. lia. Qed.

Lemma newest_first_trans (a b c : TransactionRow) :
  newest_first a b -> newest_first b c -> newest_first a c.
Proof. unfold newest_first. lia. Qed.

Lemma insert_by_sorted (x : TransactionRow) (l : list TransactionRow) :
  StronglySorted newest_first l ->
  StronglySorted newest_first (insert_by transaction_le x l).
Proof.
  induction 1 as [|y l S IH F]; simpl; [repeat constructor|].
  destruct (transaction_le x y) eqn:E.
  - apply transaction_le_newest_first in E. constructor; [now constructor|].
    constructor; [exact E|]. eapply Forall_impl; [|exact F].
    intros z. now apply newest_first_trans.
  - assert (newest_first y x) as Hyx.
    { destruct (newest_first_total x y) as [H|H]; [|exact H].
      apply transaction_le_newest_first in H. congruence. }
    constructor; [exact IH|].
    apply Forall_forall. intros z Hz.
    apply (Permutation_in _ (insert_by_Permutation transaction_le x l)) in Hz.
    destruct Hz as [<-|Hz]; [exact Hyx|].
    rewrite Forall_forall in F. now apply F.
Qed.

Lemma order_by_sorted (l : list TransactionRow) :
  StronglySorted newest_first (order_by transaction_le l).
Proof.
  induction l as [|x l IH]; simpl; [constructor | now apply insert_by_sorted].
Qed.

Lemma sorted_filter {A : Type} (R : A -> A -> Prop) (f : A -> bool) (l : list A) :
  StronglySorted R l -> StronglySorted R (filter f l).
Proof.
  induction 1 as [|x l S IH F]; simpl; [constructor|].
  destruct (f x); [|exact IH]. constructor; [exact IH|].
  apply Forall_forall. intros y Hy. apply filter_In in Hy as (Hy & _).
  rewrite Forall_forall in F. now apply F.
Qed.

Lemma sorted_skipn {A : Type} (R : A -> A -> Prop) (n : nat) (l : list A) :
  StronglySorted R l -> StronglySorted R (skipn n l).
Proof.
  revert l. induction n as [|n IH]; intros l S; simpl; [exact S|].
  destruct l as [|x l]; [constructor|]. apply IH. now apply StronglySorted_inv in S.
Qed.

Lemma sorted_firstn {A : Type} (R : A -> A -> Prop) (n : nat) (l : list A) :
  StronglySorted R l -> StronglySorted R (firstn n l).
Proof.
  revert l. induction n as [|n IH]; intros l S; simpl; [constructor|].
  destruct l as [|x l]; [constructor|].
  apply StronglySorted_inv in S as (S & F). constructor; [now apply IH|].
  apply Forall_forall. intros y Hy. rewrite Forall_forall in F. apply F.
  rewrite <- (firstn_skipn n l). apply in_or_app. now left.
Qed.

(** X11. A listing of transactions is always in the order the query asks
    for, newest date first and, on the same date, latest created first: in
    the owner view, in the staff view after its filters, and on every page. *)
Theorem listing_is_newest_first (ctx : Ctx) (q : ListParams) (db : Db) :
  StronglySorted newest_first (listed (Cashflow.transactions ctx q db)).
Proof.
  destruct (listed_cases ctx q db) as [->|[(user & ->)| ->]].
  - constructor.
  - unfold filter_then_window, range.
    apply sorted_firstn, sorted_skipn, order_by_sorted.
  - unfold window_then_filter, range.
    apply sorted_filter, sorted_firstn, sorted_skipn, order_by_sorted.
Qed.

(** ** Profiles: registration, update, staff flag *)

Lemma set_column_id (k : string) (v : Json) (u u' : UserRow) :
  String.eqb k "id" = false ->
  set_column k v u = inr u' -> u_id u' = u_id u.
Proof.
  intros Hk. unfold set_column. rewrite Hk.
  destruct (String.eqb k "email"); [destruct v; try discriminate; now intros [= <-]|].
  destruct (String.eqb k "full_name"); [destruct v; try discriminate; now intros [= <-]|].
  destruct (String.eqb k "username"); [destruct v; try discriminate; now intros [= <-]|].
  destruct (String.eqb k "is_staff"); [destruct v; try discriminate; now intros [= <-]|].
  destruct (existsb _ _); [|discriminate]. now intros [= <-].
Qed.

Lemma set_columns_id (cols : Body) (u u' : UserRow) :
  lacks "id" cols ->
  set_columns cols u = inr u' -> u_id u' = u_id u.
Proof.
  revert u. induction cols as [|[k v] cols IH]; intros u L; simpl.
  - now intros [= <-].
  - inversion L as [|x l Hk L']; subst. simpl in Hk.
    destruct (set_column k v u) as [e|u1] eqn:S; [discriminate|].
    intros H. rewrite (IH u1 L' H). now apply (set_column_id k v).
Qed.

(** What a successful upsert did: it appended a fresh profile built from the
    column defaults, or rewrote the one profile with that id; either way the
    unique constraints hold afterwards. *)
Lemma upsert_user_cases (id : Id) (cols : Body) (db db' : Db) (u : UserRow) :
  upsert_user id cols db = inr (u, db') ->
  users_unique (tbl_users db') = true
  /\ ((filter (fun r => u_id r =? id) (tbl_users db) = []
       /\ set_columns cols (mkUser id EmptyString EmptyString None (Some false) []) = inr u
       /\ tbl_users db' = tbl_users db ++ [u])
      \/ (exists p, filter (fun r => u_id r =? id) (tbl_users db) = [p]
                    /\ set_columns cols p = inr u
                    /\ tbl_users db'
                       = map (fun r => if u_id r =? id then u else r) (tbl_users db))).
Proof.
  unfold upsert_user. destruct (filter _ _) as [|x l] eqn:F.
  - destruct (lookup "email" cols) as [[]|]; try discriminate.
    destruct (lookup "full_name" cols) as [[]|]; try discriminate.
    destruct (set_columns _ _) as [e|u'] eqn:S; [discriminate|].
    destruct (users_unique _) eqn:U; [|discriminate].
    intros [= <- <-]. simpl. split; [exact U|]. left. now repeat split.
  - unfold update_user. simpl. rewrite F. destruct l; [|discriminate].
    destruct (set_columns cols x) as [e|u'] eqn:S; [discriminate|].
    destruct (users_unique _) eqn:U; [|discriminate].
    intros [= <- <-]. simpl. split; [exact U|]. right. exists x. now repeat split.
Qed.

Lemma profileData_lacks (k : string) (body : Body) (pref : Json) :
  existsb (String.eqb k)
    ["email"; "full_name"; "username"; "avatar_url"; "bio"; "phone"; "date_of_birth";
     "location"; "website"; "preferences"] = false ->
  lacks k
    (Users.field "email" body ++ Users.field "full_name" body
     ++ Users.field "username" body ++ Users.field_or_null "avatar_url" body
     ++ Users.field_or_null "bio" body ++ Users.field_or_null "phone" body
     ++ Users.field_or_null "date_of_birth" body ++ Users.field_or_null "location" body
     ++ Users.field_or_null "website" body ++ [("preferences", pref)]).
Proof.
  intros H. simpl in H. rewrite !orb_false_iff in H.
  assert (forall k', String.eqb k k' = false -> String.eqb k' k = false) as Sym
    by (intros k' E; now rewrite String.eqb_sym).
  repeat (apply lacks_app;
          [first [apply field_lacks | apply field_or_null_lacks]; apply Sym; tauto|]).
  constructor; [cbn [fst]; apply Sym; tauto | constructor].
Qed.

(** X14. A registration never grants staff rights: when it succeeds the
    profile it answers carries the id the identity provider gave; for a new
    id that profile is appended with [is_staff] false, whatever the body
    says; for an id that already has a profile the staff flag is kept; no
    other profile changes, and ids, emails and usernames stay unique. *)
Theorem registration_never_grants_staff (newAuthUser : PgError + Id) (body : Body)
  (db db' : Db) (u : UserRow) :
  Users.POST newAuthUser body db = (inr u, db') ->
  newAuthUser = inr (u_id u)
  /\ In u (tbl_users db')
  /\ users_unique (tbl_users db') = true
  /\ (forall p, In p (tbl_users db) -> u_id p <> u_id u -> In p (tbl_users db'))
  /\ (~ In (u_id u) (map u_id (tbl_users db)) ->
      u_is_staff u = Some false /\ tbl_users db' = tbl_users db ++ [u])
  /\ (forall p, In p (tbl_users db) -> u_id p = u_id u ->
      u_is_staff u = u_is_staff p
      /\ List.length (tbl_users db') = List.length (tbl_users db)).
Proof.
  unfold Users.POST. destruct newAuthUser as [e|id]; [discriminate|]. step.
  match goal with
  | |- context [upsert_user ?i ?cols db] =>
      destruct (upsert_user i cols db) as [e|[u' d']] eqn:U; simpl; [discriminate|];
      set (rest := tl cols) in *
  end.
  intros [= <- <-].
  assert (lacks "id" rest) as Lid by (apply profileData_lacks; reflexivity).
  assert (lacks "is_staff" (("id", JUuid id) :: rest)) as Lst
    by (constructor; [reflexivity | apply profileData_lacks; reflexivity]).
  apply upsert_user_cases in U as (Un & [(F & S & E)|(p & F & S & E)]).
  - assert (u_id u' = id) as Hid by (simpl in S; now apply set_columns_id in S).
    pose proof (set_columns_is_staff _ _ _ Lst S) as Hst. simpl in Hst.
    split; [now rewrite Hid|]. split; [rewrite E; apply in_or_app; right; now left|].
    split; [exact Un|]. split; [intros q Hq _; rewrite E; apply in_or_app; now left|].
    split; [now split|].
    intros q Hq Hqid. exfalso.
    assert (In q []) as [] by (rewrite <- F; apply filter_In; split;
                               [exact Hq | apply Nat.eqb_eq; congruence]).
  - assert (In p (tbl_users db) /\ u_id p = id) as (Hp & Hpid).
    { assert (In p (filter (fun r => u_id r =? id) (tbl_users db))) as X
        by (rewrite F; now left).
      apply filter_In in X as (X & Y). apply Nat.eqb_eq in Y. now split. }
    assert (u_id u' = id) as Hid by (simpl in S; now apply set_columns_id in S).
    pose proof (set_columns_is_staff _ _ _ Lst S) as Hst.
    split; [now rewrite Hid|]. split.
    { rewrite E. apply in_map_iff. exists p. split; [|exact Hp].
      apply Nat.eqb_eq in Hpid. now rewrite Hpid. }
    split; [exact Un|]. split.
    { intros q Hq Hne. rewrite E. apply in_map_iff. exists q. split; [|exact Hq].
      rewrite Hid in Hne. apply Nat.eqb_neq in Hne. now rewrite Hne. }
    split.
    { intros Hnot. exfalso. apply Hnot. rewrite Hid, <- Hpid. now apply in_map. }
    intros q Hq Hqid. split; [|rewrite E; apply length_map].
    assert (In q [p]) as [<-|[]]; [|exact Hst].
    rewrite <- F. apply filter_In. split; [exact Hq|]. apply Nat.eqb_eq. congruence.
Qed.

Lemma registration_never_grants_staff_witness :
  u_is_staff (mkUser 5 "carol@example.com" "Carol" None (Some false)
                [("preferences", JObj []); ("website", JNull); ("location", JNull);
                 ("date_of_birth", JNull); ("phone", JNull); ("bio", JNull);
                 ("avatar_url", JNull)])
  = Some false.
Proof.
  refine (proj1 (proj1 (proj2 (proj2 (proj2 (proj2
            (registration_never_grants_staff (inr 5)
               [("email", JStr "carol@example.com"); ("full_name", JStr "Carol");
                ("is_staff", JBool true)]
               sample_db
               (mkDb (sample_users
                      ++ [mkUser 5 "carol@example.com" "Carol" None (Some false)
                            [("preferences", JObj []); ("website", JNull);
                             ("location", JNull); ("date_of_birth", JNull);
                             ("phone", JNull); ("bio", JNull); ("avatar_url", JNull)]])
                  sample_categories sample_transactions)
               _ _))))) _)).
  - reflexivity.
  - simpl. intuition discriminate.
Defined.

Lemma nth_error_map_frame {A : Type} (f : A -> A) (l : list A) (n : nat) (x : A) :
  nth_error l n = Some x -> f x = x -> nth_error (map f l) n = Some x.
Proof.
  intros H E. rewrite nth_error_map, H. simpl. now rewrite E.
Qed.

Lemma update_user_own_frame (user : Id) (pred : UserRow -> bool) (cols : Body)
  (db db' : Db) (u' : UserRow) :
  update_user (authedClientFrom (Some user)) pred cols db = inr (u', db') ->
  List.length (tbl_users db') = List.length (tbl_users db)
  /\ forall n p, nth_error (tbl_users db) n = Some p -> u_id p <> user ->
                 nth_error (tbl_users db') n = Some p.
Proof.
  intros H. apply update_user_inv in H as (_ & _ & u & _ & _ & E). rewrite E.
  split; [apply length_map|]. intros n p Hn Hne.
  apply nth_error_map_frame; [exact Hn|]. simpl.
  apply Nat.eqb_neq in Hne. now rewrite Hne.
Qed.

Lemma PUT_other_profile (ctx : Ctx) (user i : Id) (body : Body) (db : Db)
  (flag : option bool) :
  caller ctx user ->
  staff_flag db user = inr flag ->
  lookup "id" body = Some (JUuid i) -> i <> user ->
  Users.PUT ctx body db
  = (inl (if is_true flag then mkHttpError 400 PGRST116
          else mkHttpError 403 "Insufficient permissions"), db).
Proof.
  intros Hc Hf Hid Hne. destruct ctx as [cl n d u s]. unfold caller in Hc. simpl in Hc.
  subst cl. unfold staff_flag in Hf. unfold Users.PUT, requireAuth. step.
  rewrite Hf, Hid. simpl.
  assert ((i =? user) = false) as -> by now apply Nat.eqb_neq.
  destruct (is_true flag); simpl; [|reflexivity].
  unfold update_user. simpl.
  rewrite filter_none; [reflexivity|].
  intros r _. destruct (u_id r =? user) eqn:E1; [|reflexivity].
  apply Nat.eqb_eq in E1. rewrite E1. simpl. now apply Nat.eqb_neq; congruence.
Qed.

(** X15. A profile update reaches the caller's own profile only: after
    [PUT /users] every other profile is the row it was, at the place it
    was. A body that names another profile's id is refused and nothing is
    written, also for staff: a caller who is not staff is answered 403, and
    the update of a staff caller, run through the caller's own client,
    matches no row under the profile policy. *)
Theorem profile_update_is_own_only (ctx : Ctx) (user : Id) (body : Body) (db : Db) :
  caller ctx user ->
  List.length (tbl_users (snd (Users.PUT ctx body db))) = List.length (tbl_users db)
  /\ (forall n p, nth_error (tbl_users db) n = Some p -> u_id p <> user ->
        nth_error (tbl_users (snd (Users.PUT ctx body db))) n = Some p)
  /\ (forall flag i,
        staff_flag db user = inr flag ->
        lookup "id" body = Some (JUuid i) -> i <> user ->
        Users.PUT ctx body db
        = (inl (if is_true flag then mkHttpError 400 PGRST116
                else mkHttpError 403 "Insufficient permissions"), db)).
Proof.
  intros Hc. split; [|split].
  - destruct ctx as [cl n d u s]. unfold caller in Hc. simpl in Hc. subst cl.
    unfold Users.PUT, requireAuth. step. cases; try reflexivity.
    all: match goal with
         | H : update_user _ _ _ _ = inr _ |- _ =>
             exact (proj1 (update_user_own_frame _ _ _ _ _ _ H))
         end.
  - destruct ctx as [cl n d u s]. unfold caller in Hc. simpl in Hc. subst cl.
    unfold Users.PUT, requireAuth. step. cases; try (intros ? ? Hk _; exact Hk).
    all: match goal with
         | H : update_user _ _ _ _ = inr _ |- _ =>
             exact (proj2 (update_user_own_frame _ _ _ _ _ _ H))
         end.
  - intros flag i. now apply PUT_other_profile.
Qed.

Lemma profile_update_is_own_only_witness :
  Users.PUT (ctx_of root) [("id", JUuid alice); ("full_name", JStr "A.")] sample_db
  = (inl (mkHttpError 400 PGRST116), sample_db)
  /\ Users.PUT (ctx_of alice) [("id", JUuid bob); ("full_name", JStr "B.")] sample_db
     = (inl (mkHttpError 403 "Insufficient permissions"), sample_db).
Proof.
  split.
  - apply (proj2 (proj2 (profile_update_is_own_only (ctx_of root) root
                           [("id", JUuid alice); ("full_name", JStr "A.")] sample_db
                           eq_refl)) (Some true) alice); [reflexivity | reflexivity |].
    discriminate.
  - apply (proj2 (proj2 (profile_update_is_own_only (ctx_of alice) alice
                           [("id", JUuid bob); ("full_name", JStr "B.")] sample_db
                           eq_refl)) (Some false) bob); [reflexivity | reflexivity |].
    discriminate.
Defined.

(** ** The staff flag *)

Lemma distinct_NoDup (l : list nat) : distinct Nat.eqb l = true -> NoDup l.
Proof.
  induction l as [|x l IH]; simpl; [constructor|].
  intros H. apply andb_true_iff in H as (H1 & H2). constructor; [|now apply IH].
  intros Hin. apply negb_true_iff in H1.
  assert (existsb (Nat.eqb x) l = true) as E
    by (apply existsb_exists; exists x; split; [exact Hin | apply Nat.eqb_refl]).
  congruence.
Qed.

Lemma users_unique_pk (rows : list UserRow) :
  users_unique rows = true -> NoDup (map u_id rows).
Proof.
  unfold users_unique. intros H. apply andb_true_iff in H as (H & _).
  apply andb_true_iff in H as (H & _). now apply distinct_NoDup.
Qed.

Lemma users_unique_with_staff (rows : list UserRow) (target : Id) (u' : UserRow) :
  (forall r, In r rows -> u_id r = target ->
     u_id u' = u_id r /\ u_email u' = u_email r /\ u_username u' = u_username r) ->
  users_unique (map (fun r => if u_id r =? target then u' else r) rows)
  = users_unique rows.
Proof.
  intros H. unfold users_unique. rewrite !map_map.
  assert (forall (B : Type) (g : UserRow -> B),
            (forall r, In r rows -> u_id r = target -> g u' = g r) ->
            map (fun r => g (if u_id r =? target then u' else r)) rows = map g rows) as M.
  { intros B g Hg. apply map_ext_in. intros r Hr.
    destruct (u_id r =? target) eqn:E; [|reflexivity].
    apply Nat.eqb_eq in E. now apply Hg. }
  rewrite (M _ u_id), (M _ u_email), (M _ u_username); try reflexivity;
    intros r Hr E; now destruct (H r Hr E) as (? & ? & ?).
Qed.

Lemma sample_users_unique : users_unique (tbl_users sample_db) = true.
Proof. reflexivity. Qed.

(** ** Categories: what is stored *)

Lemma trimStart_starts (s : string) : starts_blank (trimStart s) = false.
Proof.
  induction s as [|c s IH]; simpl; [reflexivity|].
  destruct (is_space c) eqn:E; [exact IH | simpl; exact E].
Qed.

Lemma trimEnd_starts (s : string) :
  starts_blank s = false -> starts_blank (trimEnd s) = false.
Proof.
  destruct s as [|c s]; simpl; [reflexivity|]. intros E.
  destruct (trimEnd s); simpl; [rewrite E|]; simpl; now try rewrite E.
Qed.

Lemma trimEnd_ends (s : string) : ends_blank (trimEnd s) = false.
Proof.
  induction s as [|c s IH]; simpl; [reflexivity|].
  destruct (trimEnd s) as [|c' r] eqn:T.
  - destruct (is_space c) eqn:E; simpl; [reflexivity | exact E].
  - exact IH.
Qed.

Lemma trim_no_outer_blank (s : string) :
  starts_blank (trim s) = false /\ ends_blank (trim s) = false.
Proof.
  unfold trim. split; [apply trimEnd_starts, trimStart_starts | apply trimEnd_ends].
Qed.

Lemma or_text_nonempty (o : option string) (d : string) :
  d <> EmptyString -> or_text o d <> EmptyString.
Proof.
  intros Hd. unfold or_text. destruct o as [s|]; [|exact Hd].
  destruct (String.eqb s EmptyString) eqn:E; [exact Hd|]. now apply String.eqb_neq.
Qed.

Lemma insert_category_row (cl : Client) (row r : CategoryRow) (db db' : Db) :
  insert_category cl row db = inr (r, db') -> r = row /\ db' = add_category db row.
Proof.
  unfold insert_category.
  destruct (existsb _ (tbl_categories db)); [discriminate|].
  destruct (negb (policy _ _ _)); [discriminate|].
  destruct (negb (existsb _ (tbl_users db))); [discriminate|].
  now intros [= <- <-].
Qed.

Lemma createCategory_sanitised (ctx : Ctx) (body : CategoryPayload) (db : Db)
  (env : Envelope CategoryRow) :
  fst (Cashflow.createCategory ctx body db) = inr env ->
  exists user name type t,
    caller ctx user /\ cp_name body = Some name /\ cp_type body = Some type
    /\ parse_type (trim (toLowerCase type)) = Some t
    /\ data env = new_category ctx user body name t
    /\ trim name <> EmptyString
    /\ snd (Cashflow.createCategory ctx body db) = add_category db (data env).
Proof.
  destruct ctx as [cl n d u s]. destruct body as [[name|] [type|] co ic];
    unfold Cashflow.createCategory, requireFields, requireAuth; step; cases;
    intros H; try discriminate H; injection H as <-; simpl.
  match goal with
  | H : insert_category _ _ _ = inr _ |- _ => apply insert_category_row in H as (-> & ->)
  end.
  match goal with
  | H : parse_type _ = Some ?t, E : String.eqb (trim name) EmptyString = false
    |- context [mkCategory _ _ _ _ _ ?i] =>
      exists i, name, type, t; apply String.eqb_neq in E; now repeat split
  end.
Qed.

Lemma createCategory_stores (ctx : Ctx) (user : Id) (body : CategoryPayload) (db : Db)
  (name type : string) (t : TxType) :
  caller ctx user ->
  cp_name body = Some name -> cp_type body = Some type ->
  parse_type (trim (toLowerCase type)) = Some t ->
  trim name <> EmptyString ->
  ~ In (uuid ctx) (map c_id (tbl_categories db)) ->
  (exists p, In p (tbl_users db) /\ u_id p = user) ->
  Cashflow.createCategory ctx body db
  = (inr (successItem (new_category ctx user body name t) "Categoria criada com sucesso"),
     add_category db (new_category ctx user body name t)).
Proof.
  intros Hc Hn Hty Hp Hne Hfresh (p & Hin & Hid).
  destruct ctx as [cl n d u s]. unfold caller in Hc. simpl in *. subst cl.
  destruct body as [na ty co ic]. simpl in *. subst na ty.
  assert (name <> EmptyString) as Hname by (intros ->; now apply Hne).
  assert (type <> EmptyString) as Htype by (intros ->; discriminate Hp).
  unfold Cashflow.createCategory, requireFields, requireAuth. step.
  apply String.eqb_neq in Hname, Htype, Hne. rewrite Hname, Htype. simpl.
  rewrite Hp, Hne. step. unfold insert_category. simpl.
  assert (existsb (fun r => c_id r =? u) (tbl_categories db) = false) as ->.
  { destruct (existsb _ _) eqn:E; [|reflexivity]. exfalso. apply Hfresh.
    apply existsb_exists in E as (r & Hr & E). apply Nat.eqb_eq in E.
    rewrite <- E. now apply in_map. }
  rewrite Nat.eqb_refl. simpl.
  assert (existsb (fun x => u_id x =? user) (tbl_users db) = true) as ->.
  { apply existsb_exists. exists p. split; [exact Hin | now apply Nat.eqb_eq]. }
  reflexivity.
Qed.

(** X17. A category is stored sanitised: whenever [POST /categories]
    succeeds the row it appends is owned by the caller, its name is the
    body's name without leading and trailing blanks and is not empty, its
    type is the body's type read without regard to case and outer blanks,
    and its colour and icon are never empty; and the create does succeed for
    such a name and type, a fresh id and a caller with a profile. *)
Theorem created_category_is_sanitised (ctx : Ctx) (body : CategoryPayload) (db : Db)
  (env : Envelope CategoryRow) :
  fst (Cashflow.createCategory ctx body db) = inr env ->
  (exists user name type,
      caller ctx user /\ cp_name body = Some name /\ cp_type body = Some type
      /\ c_user_id (data env) = user
      /\ c_name (data env) = trim name
      /\ parse_type (trim (toLowerCase type)) = Some (c_type (data env))
      /\ snd (Cashflow.createCategory ctx body db) = add_category db (data env))
  /\ (c_name (data env) <> EmptyString
      /\ starts_blank (c_name (data env)) = false
      /\ ends_blank (c_name (data env)) = false
      /\ c_color (data env) <> EmptyString
      /\ c_icon (data env) <> EmptyString)
  /\ (forall user name type t db0,
        caller ctx user ->
        cp_name body = Some name -> cp_type body = Some type ->
        parse_type (trim (toLowerCase type)) = Some t ->
        trim name <> EmptyString ->
        ~ In (uuid ctx) (map c_id (tbl_categories db0)) ->
        (exists p, In p (tbl_users db0) /\ u_id p = user) ->
        Cashflow.createCategory ctx body db0
        = (inr (successItem (new_category ctx user body name t)
                  "Categoria criada com sucesso"),
           add_category db0 (new_category ctx user body name t))).
Proof.
  intros H. split; [|split].
  - apply createCategory_sanitised in H
      as (user & name & type & t & Hc & Hn & Ht & Hp & -> & Hne & Hs).
    exists user, name, type. now repeat split.
  - apply createCategory_sanitised in H
      as (user & name & type & t & Hc & Hn & Ht & Hp & -> & Hne & Hs).
    simpl. split; [exact Hne|].
    split; [apply trim_no_outer_blank|]. split; [apply trim_no_outer_blank|].
    split; apply or_text_nonempty; discriminate.
  - intros user name type t db0. now apply createCategory_stores.
Qed.

Lemma created_category_is_sanitised_witness :
  c_name (mkCategory 300 "Books" income "#3B82F6" "B" alice) <> EmptyString
  /\ parse_type (trim (toLowerCase " INCOME ")) = Some income.
Proof.
  split; [|reflexivity].
  refine (proj1 (proj1 (proj2
            (created_category_is_sanitised (ctx_of alice)
               (mkCategoryPayload (Some "  Books ") (Some " INCOME ") None (Some "B"))
               sample_db
               (successItem (mkCategory 300 "Books" income "#3B82F6" "B" alice)
                  "Categoria criada com sucesso") _)))).
  reflexivity.
Defined.

Lemma own_category_single (user : Id) (db : Db) (c : CategoryRow) :
  categories_pk db -> In c (tbl_categories db) -> c_user_id c = user ->
  filter (fun r => (c_user_id r =? user) && ((c_id r =? c_id c) && (c_user_id r =? user)))
    (tbl_categories db) = [c].
Proof.
  intros pk Hin Ho. apply (filter_unique c_id _ _ c pk Hin).
  - now rewrite Ho, !Nat.eqb_refl.
  - intros r _ H. apply andb_true_iff in H as (_ & H).
    apply andb_true_iff in H as (H & _). now apply Nat.eqb_eq.
Qed.

Lemma updateCategory_own (ctx : Ctx) (user : Id) (db : Db) (c : CategoryRow)
  (body : CategoryPayload) (type : option TxType) :
  caller ctx user ->
  categories_pk db -> In c (tbl_categories db) -> c_user_id c = user ->
  names_a_field body = true ->
  option_map parse_type (cp_type body) = option_map Some type ->
  Cashflow.updateCategory ctx (c_id c) body db
  = (inr (successItem (apply_category_update (category_columns body type) c)
            "Categoria atualizada com sucesso"),
     rewrite_category db (c_id c) (apply_category_update (category_columns body type))).
Proof.
  intros Hc pk Hin Ho Hf Hty.
  destruct ctx as [cl n d u s]. unfold caller in Hc. simpl in Hc. subst cl.
  unfold names_a_field in Hf.
  unfold Cashflow.updateCategory, requireAuth. step.
  assert (negb (given_text (cp_name body)) && negb (given_text (cp_type body))
          && negb (given_text (cp_color body)) && negb (given_text (cp_icon body)) = false)
    as ->.
  { destruct (given_text (cp_name body)), (given_text (cp_type body)),
      (given_text (cp_color body)), (given_text (cp_icon body)); try reflexivity.
    discriminate Hf. }
  rewrite from_categories_authed, filter_twice, (own_category_single user db c pk Hin Ho).
  simpl.
  assert (update_category (authedClientFrom (Some user))
            (fun r => (c_id r =? c_id c) && (c_user_id r =? user))
            (category_columns body type) db
          = inr (apply_category_update (category_columns body type) c,
                 rewrite_category db (c_id c)
                   (apply_category_update (category_columns body type)))) as U.
  { unfold update_category. simpl. rewrite (own_category_single user db c pk Hin Ho).
    unfold rewrite_category. do 3 f_equal. apply map_ext_in. intros r Hr.
    destruct (c_id r =? c_id c) eqn:E.
    - apply Nat.eqb_eq in E. rewrite (pk_unique c_id _ c r pk Hin Hr E).
      now rewrite Ho, !Nat.eqb_refl.
    - now rewrite andb_false_r. }
  unfold category_columns in U.
  destruct (cp_type body) as [ty|], type as [t|]; simpl in Hty; try discriminate Hty.
  - injection Hty as Hty. simpl. rewrite Hty. simpl. rewrite U. reflexivity.
  - simpl. rewrite U. reflexivity.
Qed.

Lemma updateCategory_not_own (ctx : Ctx) (user id : Id) (db : Db) (body : CategoryPayload) :
  caller ctx user ->
  not_own_category db user id ->
  Cashflow.updateCategory ctx id body db
  = (inl (if names_a_field body then NotFound_category
          else mkHttpError 400 "Pelo menos um campo deve ser fornecido para atualização"),
     db).
Proof.
  intros Hc Hno. destruct ctx as [cl n d u s]. unfold caller in Hc. simpl in Hc. subst cl.
  unfold names_a_field. unfold Cashflow.updateCategory, requireAuth. step.
  destruct (given_text (cp_name body)), (given_text (cp_type body)),
    (given_text (cp_color body)), (given_text (cp_icon body)); simpl;
    try reflexivity; now rewrite (own_category_none user id db Hno).
Qed.

Lemma updateCategory_bad_type (ctx : Ctx) (user : Id) (db : Db) (c : CategoryRow)
  (body : CategoryPayload) (ty : string) :
  caller ctx user ->
  categories_pk db -> In c (tbl_categories db) -> c_user_id c = user ->
  names_a_field body = true ->
  cp_type body = Some ty -> parse_type ty = None ->
  Cashflow.updateCategory ctx (c_id c) body db
  = (inl (mkHttpError 400 pg_check_violation), db).
Proof.
  intros Hc pk Hin Ho Hf Hty Hp.
  destruct ctx as [cl n d u s]. unfold caller in Hc. simpl in Hc. subst cl.
  unfold names_a_field in Hf.
  unfold Cashflow.updateCategory, requireAuth. step.
  assert (negb (given_text (cp_name body)) && negb (given_text (cp_type body))
          && negb (given_text (cp_color body)) && negb (given_text (cp_icon body)) = false)
    as ->.
  { destruct (given_text (cp_name body)), (given_text (cp_type body)),
      (given_text (cp_color body)), (given_text (cp_icon body)); try reflexivity.
    discriminate Hf. }
  rewrite from_categories_authed, filter_twice, (own_category_single user db c pk Hin Ho).
  simpl. rewrite Hty. simpl. now rewrite Hp.
Qed.

(** X18. An update of a category reaches the caller's own category only
    and stores the body's values as they are: the row keeps its id and
    owner, every other category and every transaction is kept, and the name,
    colour and icon are written untrimmed (an empty name too, when another
    field is given); the type is taken only as the exact text of an allowed
    type, any other text being refused by the type check. A category of
    someone else, or none, is answered as not found, and nothing is
    written. *)
Theorem category_update_stores_as_given (ctx : Ctx) (user : Id) (db : Db) (c : CategoryRow)
  (body : CategoryPayload) :
  caller ctx user ->
  categories_pk db -> In c (tbl_categories db) -> c_user_id c = user ->
  names_a_field body = true ->
  (forall type,
      option_map parse_type (cp_type body) = option_map Some type ->
      let c' := apply_category_update (category_columns body type) c in
      let db' := rewrite_category db (c_id c) (apply_category_update (category_columns body type)) in
      Cashflow.updateCategory ctx (c_id c) body db
      = (inr (successItem c' "Categoria atualizada com sucesso"), db')
      /\ (c_id c' = c_id c /\ c_user_id c' = c_user_id c)
      /\ (forall name, cp_name body = Some name -> c_name c' = name)
      /\ (cp_name body = None -> c_name c' = c_name c)
      /\ (forall r, In r (tbl_categories db) -> c_id r <> c_id c ->
            In r (tbl_categories db'))
      /\ tbl_transactions db' = tbl_transactions db)
  /\ (forall ty, cp_type body = Some ty -> parse_type ty = None ->
        Cashflow.updateCategory ctx (c_id c) body db
        = (inl (mkHttpError 400 pg_check_violation), db))
  /\ (forall id, not_own_category db user id ->
        Cashflow.updateCategory ctx id body db = (inl NotFound_category, db)).
Proof.
  intros Hc pk Hin Ho Hf. split; [|split].
  - intros type Hty c' db'.
    split; [now apply (updateCategory_own _ user)|].
    split; [now split|]. split; [intros name E; unfold c'; simpl; now rewrite E|].
    split; [intros E; unfold c'; simpl; now rewrite E|].
    split; [|reflexivity].
    intros r Hr Hne. unfold db', rewrite_category. simpl. apply in_map_iff.
    exists r. split; [|exact Hr]. apply Nat.eqb_neq in Hne. now rewrite Hne.
  - intros ty Hty Hp. now apply (updateCategory_bad_type _ user _ _ _ ty).
  - intros id Hno. rewrite (updateCategory_not_own _ user) by assumption.
    now rewrite Hf.
Qed.

Lemma category_update_stores_as_given_witness :
  Cashflow.updateCategory (ctx_of alice) 11
    (mkCategoryPayload (Some EmptyString) None (Some " #000 ") None) sample_db
  = (inr (successItem (mkCategory 11 EmptyString expense " #000 " "F" alice)
            "Categoria atualizada com sucesso"),
     mkDb sample_users
       [mkCategory 10 "Salary" income "#10B981" "S" alice;
        mkCategory 11 EmptyString expense " #000 " "F" alice;
        mkCategory 12 "Gifts" income "#3B82F6" "G" alice;
        mkCategory 20 "Rent" expense "#8B5CF6" "R" bob]
       sample_transactions).
Proof.
  refine (proj1 (proj1 (category_update_stores_as_given (ctx_of alice) alice sample_db
                          (mkCategory 11 "Food" expense "#EF4444" "F" alice)
                          (mkCategoryPayload (Some EmptyString) None (Some " #000 ") None)
                          _ _ _ _ _) None _));
    try reflexivity.
  - apply sample_categories_pk.
  - simpl. tauto.
Defined.

(** ** Routing and the id of a request *)

Lemma no_slash_cons (c : Ascii.ascii) (s : string) :
  no_slash (String c s) = true -> Ascii.eqb c slash = false /\ no_slash s = true.
Proof.
  simpl. intros H. apply andb_true_iff in H as (H1 & H2).
  now apply negb_true_iff in H1.
Qed.

Lemma replace_no_slash (pat by_ id rest : string) :
  no_slash id = true ->
  Router.replace (String slash pat) by_ (id ++ rest)%string
  = (id ++ Router.replace (String slash pat) by_ rest)%string.
Proof.
  induction id as [|c id IH]; intros H; [reflexivity|].
  apply no_slash_cons in H as (Hc & Hid).
  cbn [String.append Router.replace String.prefix].
  destruct (Ascii.ascii_dec slash c) as [E|_].
  - subst c. now rewrite Ascii.eqb_refl in Hc.
  - now rewrite IH.
Qed.

Lemma segment_no_slash (id rest : string) :
  no_slash id = true ->
  Router.segment (id ++ String slash rest)%string = (id, String slash rest).
Proof.
  induction id as [|c id IH]; intros H.
  - cbn. reflexivity.
  - apply no_slash_cons in H as (Hc & Hid).
    cbn [String.append Router.segment]. rewrite Hc, (IH Hid). reflexivity.
Qed.

Lemma segment_no_slash_end (id : string) :
  no_slash id = true -> Router.segment id = (id, EmptyString).
Proof.
  induction id as [|c id IH]; intros H; [reflexivity|].
  apply no_slash_cons in H as (Hc & Hid).
  cbn [Router.segment]. rewrite Hc, (IH Hid). reflexivity.
Qed.

Lemma split_nonempty (s : string) : Router.split s <> [].
Proof.
  induction s as [|c s IH]; simpl; [discriminate|].
  destruct (Ascii.eqb c slash); [discriminate|].
  destruct (Router.split s); discriminate.
Qed.

Lemma split_slash (a b : string) :
  Router.split (a ++ String slash b)%string = Router.split a ++ Router.split b.
Proof.
  induction a as [|c a IH].
  - cbn. reflexivity.
  - cbn [String.append Router.split]. rewrite IH.
    destruct (Ascii.eqb c slash); [reflexivity|].
    destruct (Router.split a) as [|p ps] eqn:E; [now destruct (split_nonempty a)|].
    reflexivity.
Qed.

Lemma split_no_slash (id : string) : no_slash id = true -> Router.split id = [id].
Proof.
  induction id as [|c id IH]; intros H; [reflexivity|].
  apply no_slash_cons in H as (Hc & Hid).
  cbn [Router.split]. now rewrite Hc, (IH Hid).
Qed.

Lemma pop_last (parts : list string) (part : string) :
  Router.pop (parts ++ [part]) = Some part.
Proof. unfold Router.pop. now rewrite rev_app_distr. Qed.

Lemma before_last_two (parts : list string) (a b : string) :
  Router.before_last (parts ++ [a; b]) = Some a.
Proof. unfold Router.before_last. now rewrite rev_app_distr. Qed.

(** The parts of a path that ends with an id, and with an id and one more
    part. *)
Lemma split_id (front id : string) :
  no_slash id = true ->
  Router.split (front ++ String slash id)%string = Router.split front ++ [id].
Proof. intros H. rewrite split_slash, (split_no_slash id) by assumption. reflexivity. Qed.

Lemma split_id_action (front id action : string) :
  no_slash id = true -> no_slash action = true ->
  Router.split (front ++ String slash (id ++ String slash action))%string
  = Router.split front ++ [id; action].
Proof.
  intros H A. rewrite !split_slash, (split_no_slash id), (split_no_slash action) by assumption.
  reflexivity.
Qed.

Lemma append_assoc (a b c : string) :
  String.append a (String.append b c) = String.append (String.append a b) c.
Proof. induction a as [|x a IH]; simpl; [reflexivity | now rewrite IH]. Qed.

Lemma prefix_append (p s : string) : String.prefix p (String.append p s) = true.
Proof.
  induction p as [|c p IH]; simpl; [now destruct s|].
  destruct (Ascii.ascii_dec c c) as [_|N]; [exact IH | now destruct N].
Qed.

Lemma skip_append (p s : string) :
  Router.skip (String.length p) (String.append p s) = s.
Proof. induction p as [|c p IH]; simpl; [now destruct s | exact IH]. Qed.

Lemma match_id_action (before after id rest : string) :
  no_slash id = true ->
  Router.match_id before after (String.append before (String.append id (String slash rest)))
  = negb (String.eqb id EmptyString) && String.eqb (String slash rest) after.
Proof.
  intros H. unfold Router.match_id.
  now rewrite prefix_append, skip_append, segment_no_slash.
Qed.

Lemma match_id_row (before after id : string) :
  no_slash id = true ->
  Router.match_id before after (String.append before id)
  = negb (String.eqb id EmptyString) && String.eqb EmptyString after.
Proof.
  intros H. unfold Router.match_id.
  now rewrite prefix_append, skip_append, segment_no_slash_end.
Qed.

Lemma id_of_row (mount resource id : string) (h : Router.Route) :
  no_slash id = true ->
  Router.id_of h (row_path mount resource id)
  = match h with
    | Router.getCategory | Router.deleteCategory | Router.updateCategory
    | Router.getTransaction | Router.updateTransaction | Router.deleteTransaction => Some id
    | Router.markAsPaid | Router.markAsUnpaid | Router.togglePaymentStatus =>
        Router.pop (Router.split (String.append mount resource))
    | _ => None
    end.
Proof.
  intros H. unfold row_path. rewrite append_assoc.
  unfold Router.id_of. rewrite split_id by exact H.
  destruct h; try reflexivity; try apply pop_last.
  all: unfold Router.before_last, Router.pop; rewrite rev_app_distr; simpl;
    now destruct (rev _).
Qed.

Lemma id_of_action (mount resource id action : string) (h : Router.Route) :
  no_slash id = true -> no_slash action = true ->
  Router.id_of h (action_path mount resource id action)
  = match h with
    | Router.getCategory | Router.deleteCategory | Router.updateCategory
    | Router.getTransaction | Router.updateTransaction | Router.deleteTransaction =>
        Some action
    | Router.markAsPaid | Router.markAsUnpaid | Router.togglePaymentStatus => Some id
    | _ => None
    end.
Proof.
  intros H A. unfold action_path. rewrite append_assoc.
  unfold Router.id_of. rewrite split_id_action by assumption.
  destruct h; try reflexivity;
    first [ apply before_last_two
          | change [id; action] with ([id] ++ [action]); rewrite app_assoc; apply pop_last ].
Qed.

(** The same facts, for a path given in any convertible form. *)
Lemma replace_over_id (pat by_ id rest pat' : string) :
  no_slash id = true -> pat' = String slash pat ->
  Router.replace pat' by_ (String.append id rest)
  = String.append id (Router.replace pat' by_ rest).
Proof. intros H ->. now apply replace_no_slash. Qed.

Lemma match_id_of_action (before after id rest path : string) :
  no_slash id = true ->
  path = String.append before (String.append id (String slash rest)) ->
  Router.match_id before after path
  = negb (String.eqb id EmptyString) && String.eqb (String slash rest) after.
Proof. intros H ->. now apply match_id_action. Qed.

Lemma match_id_of_row (before after id path : string) :
  no_slash id = true ->
  path = String.append before id ->
  Router.match_id before after path
  = negb (String.eqb id EmptyString) && String.eqb EmptyString after.
Proof. intros H ->. now apply match_id_row. Qed.

(** A pattern with a slash in it does not start inside an id unless the id
    is the pattern's text before the slash. *)
Lemma prefix_inside_id (a b id rest : string) :
  no_slash a = true -> no_slash id = true -> at_slash rest = true ->
  String.prefix (String.append a (String slash b)) (String.append id rest)
  = String.eqb a id && String.prefix (String slash b) rest.
Proof.
  revert id. induction a as [|x a IH]; intros id Ha Hid Hr.
  - destruct id as [|c id]; [reflexivity|].
    apply no_slash_cons in Hid as (Hc & _).
    cbn [String.append String.prefix String.eqb andb].
    destruct (Ascii.ascii_dec slash c) as [E|_]; [|reflexivity].
    subst c. now rewrite Ascii.eqb_refl in Hc.
  - apply no_slash_cons in Ha as (Hx & Ha).
    destruct id as [|c id].
    + cbn [String.append String.prefix String.eqb andb].
      destruct rest as [|r rest]; [reflexivity|]. cbn [at_slash] in Hr.
      apply Ascii.eqb_eq in Hr. subst r. cbn [String.prefix].
      destruct (Ascii.ascii_dec x slash) as [E|_]; [|reflexivity].
      subst x. now rewrite Ascii.eqb_refl in Hx.
    + apply no_slash_cons in Hid as (_ & Hid).
      cbn [String.append String.prefix String.eqb].
      destruct (Ascii.ascii_dec x c) as [E|N].
      * subst c. rewrite Ascii.eqb_refl. now apply IH.
      * apply Ascii.eqb_neq in N. now rewrite N.
Qed.

Lemma gateway_not_inside_id (id rest pat : string) :
  no_slash id = true -> at_slash rest = true ->
  pat = String.append "functions" (String slash "v1/cashflow") ->
  String.prefix pat (String.append id rest)
  = String.eqb "functions" id && String.prefix (String slash "v1/cashflow") rest.
Proof. intros H R ->. now apply prefix_inside_id. Qed.

Lemma append_nil (s : string) : String.append s EmptyString = s.
Proof. induction s as [|c s IH]; simpl; [reflexivity | now rewrite IH]. Qed.

Lemma gateway_not_id (id pat : string) :
  no_slash id = true ->
  pat = String.append "functions" (String slash "v1/cashflow") ->
  String.prefix pat id = false.
Proof.
  intros H ->. rewrite <- (append_nil id) at 1.
  rewrite prefix_inside_id by (reflexivity || exact H). apply andb_false_r.
Qed.

Lemma replace_id (pat by_ id pat' : string) :
  no_slash id = true -> pat' = String slash pat ->
  Router.replace pat' by_ id = id.
Proof.
  intros H ->. rewrite <- (append_nil id) at 1.
  rewrite replace_no_slash by exact H. cbn. apply append_nil.
Qed.

Ltac over_id id H :=
  repeat match goal with
         | |- context [String.prefix ?p (String.append id ?r)] =>
             rewrite (gateway_not_inside_id id r p H eq_refl eq_refl); cbn;
             rewrite ?andb_false_r; cbn
         | |- context [Router.replace ?p ?b (String.append id ?r)] =>
             rewrite (replace_over_id _ b id r p H eq_refl); cbn
         | |- context [String.prefix ?p id] =>
             lazymatch p with
             | EmptyString => fail
             | _ => rewrite (gateway_not_id id p H eq_refl); cbn
             end
         | |- context [Router.replace ?p ?b id] =>
             rewrite (replace_id _ b id p H eq_refl); cbn
         end.

Ltac matches H N :=
  repeat match goal with
         | |- context [Router.match_id ?b ?a ?p] =>
             first [ rewrite (match_id_of_action b a _ "pay" p H eq_refl)
                   | rewrite (match_id_of_action b a _ "unpay" p H eq_refl)
                   | rewrite (match_id_of_action b a _ "toggle-payment" p H eq_refl)
                   | rewrite (match_id_of_row b a _ p H eq_refl) ]
         end;
  rewrite ?N; cbn.

Lemma prefix_nil (s : string) : String.prefix EmptyString s = true.
Proof. now destruct s. Qed.

Ltac routed id H N :=
  unfold Router.serve, collection_path, row_path, action_path; cbn;
  over_id id H; matches H N; rewrite ?prefix_nil; cbn; try reflexivity.

Ltac pick_route Hin :=
  simpl in Hin;
  repeat (destruct Hin as [Hin|Hin];
          [first [discriminate Hin | injection Hin as <- <- <- | injection Hin as <- <-
                 | injection Hin as <- <- | subst]|]);
  try contradiction.

(** X21. Every route reaches its handler with the id the path carries. At
    each of the three places the function is mounted, for an id that is not
    empty and holds no slash: the seven routes on a row call their handler,
    which reads that id as the last part of the path; the three payment
    routes call theirs, which reads it as the part before the last; and the
    five routes without an id call theirs. *)
Theorem routes_reach_their_handler (mount id : string) :
  In mount mounts -> no_slash id = true -> id <> EmptyString ->
  (forall method resource h, In (method, resource, h) id_routes ->
     Router.serve method (row_path mount resource id) = Router.Call h
     /\ Router.id_of h (row_path mount resource id) = Some id)
  /\ (forall action h, In (action, h) payment_routes ->
        Router.serve "PATCH" (action_path mount "/transactions" id action) = Router.Call h
        /\ Router.id_of h (action_path mount "/transactions" id action) = Some id)
  /\ (forall method resource h, In (method, resource, h) collection_routes ->
        Router.serve method (collection_path mount resource) = Router.Call h).
Proof.
  intros Hm H Hne. assert (String.eqb id EmptyString = false) as N by now apply String.eqb_neq.
  split; [|split].
  - intros method resource h Hin. split.
    + pick_route Hm; pick_route Hin; routed id H N.
    + rewrite id_of_row by exact H. pick_route Hin; reflexivity.
  - intros action h Hin. split.
    + pick_route Hm; pick_route Hin; routed id H N.
    + pick_route Hin; now rewrite id_of_action.
  - intros method resource h Hin. pick_route Hm; pick_route Hin; reflexivity.
Qed.

Lemma routes_reach_their_handler_witness :
  Router.serve "PATCH"
    "/functions/v1/cashflow/transactions/86d504ef-e9f9-4d15-b133-d6f1da80ba7d/unpay"
  = Router.Call Router.markAsUnpaid
  /\ Router.id_of Router.markAsUnpaid
       "/functions/v1/cashflow/transactions/86d504ef-e9f9-4d15-b133-d6f1da80ba7d/unpay"
     = Some "86d504ef-e9f9-4d15-b133-d6f1da80ba7d".
Proof.
  refine (proj1 (proj2 (routes_reach_their_handler "/functions/v1/cashflow"
                          "86d504ef-e9f9-4d15-b133-d6f1da80ba7d" _ _ _))
            "unpay" Router.markAsUnpaid _).
  - now left.
  - reflexivity.
  - discriminate.
  - right. now left.
Defined.

(** X22. Paths the routes were not written for. A payment path asked for
    with GET, PUT or DELETE is taken by the route of the transaction itself,
    whose handler then reads the name of the action, not the id before it,
    as the id; PATCH on the path of a transaction matches no route and is
    answered 404, whereas PATCH on the path of a category updates it; and
    OPTIONS is answered before any routing. *)
Theorem paths_outside_the_routes (mount id action : string) :
  In mount mounts -> no_slash id = true -> id <> EmptyString ->
  In action (map fst payment_routes) ->
  (forall method h, In (method, "/transactions", h) id_routes ->
     Router.serve method (action_path mount "/transactions" id action) = Router.Call h
     /\ Router.id_of h (action_path mount "/transactions" id action) = Some action)
  /\ (exists message,
        Router.serve "PATCH" (row_path mount "/transactions" id) = Router.NotFound message)
  /\ Router.serve "PATCH" (row_path mount "/categories" id)
     = Router.Call Router.updateCategory
  /\ (forall pathname, Router.serve "OPTIONS" pathname = Router.NoContent).
Proof.
  intros Hm H Hne Ha.
  assert (String.eqb id EmptyString = false) as N by now apply String.eqb_neq.
  split; [|split; [|split]].
  - intros method h Hin. split.
    + pick_route Hm; pick_route Ha; pick_route Hin; routed id H N.
    + pick_route Ha; pick_route Hin; now rewrite id_of_action.
  - pick_route Hm; routed id H N; eexists; reflexivity.
  - pick_route Hm; routed id H N.
  - reflexivity.
Qed.

Lemma paths_outside_the_routes_witness :
  Router.serve "DELETE" "/cashflow/transactions/42/pay"
  = Router.Call Router.deleteTransaction
  /\ Router.id_of Router.deleteTransaction "/cashflow/transactions/42/pay" = Some "pay".
Proof.
  refine (proj1 (paths_outside_the_routes "/cashflow" "42" "pay" _ _ _ _)
            "DELETE" Router.deleteTransaction _).
  - right. now left.
  - reflexivity.
  - discriminate.
  - now left.
  - simpl. tauto.
Defined.

(** ** The [admin] function: a body is read once *)

(** X23. The [admin] function reads the body of a request twice, once for
    the action and once more in the handler, and a body can be read only
    once: so, as served, [change_staff] always answers that its parameters
    are missing (401 without a credential), [login] always answers that
    email and password are missing and never asks the identity provider, and
    no request to the function changes the store. The handler itself, given
    a request whose body is still unread and names a target and a flag,
    checks the credential, then the caller's own staff flag, and only then
    updates the flag of the target through the service role. *)
Theorem admin_function_reads_body_twice (ctx : Ctx)
  (signIn : Json -> Json -> PgError + option Id) (db : Db) :
  (forall req, snd (Admin.serve ctx signIn req db) = db)
  /\ (forall fields,
        lookup "action" fields = Some (JStr "change_staff") ->
        Admin.serve ctx signIn (post fields) db
        = (Admin.Failed
             (match authed ctx with
              | authedClientFrom (Some _) => missing_staff_parameters
              | _ => mkHttpError 401 "Unauthorized"
              end), db))
  /\ (forall fields,
        lookup "action" fields = Some (JStr "login") ->
        Admin.serve ctx signIn (post fields) db
        = (Admin.Failed missing_login_parameters, db))
  /\ (forall target flag,
        Admin.change_staff ctx
          (post [("target_user_id", JUuid target); ("is_staff", JBool flag)]) db
        = match authed ctx with
          | authedClientFrom (Some user) =>
              match select_is_staff (authed ctx) user db with
              | inl e => (inl (mkHttpError 400 e), db)
              | inr caller =>
                  if is_true caller then
                    match update_user admin (fun u => u_id u =? target)
                            [("is_staff", JBool flag)] db with
                    | inl e => (inl (mkHttpError 400 e), db)
                    | inr (updated, db') =>
                        (inr (Admin.mkStaffChanged (u_id updated) (u_is_staff updated)), db')
                    end
                  else (inl Forbidden_staff_only, db)
              end
          | _ => (inl (mkHttpError 401 "Unauthorized"), db)
          end).
Proof.
  split; [intros req; apply admin_serve_reads_once|]. split; [|split].
  - intros fields Ha. unfold Admin.serve, post. simpl. rewrite Ha. simpl.
    unfold Admin.answer.
    change (mkReq "POST" (Some (JObj fields)) true)
      with (snd (readJSON (mkReq "POST" (Some (JObj fields)) false))).
    now rewrite change_staff_after_read.
  - intros fields Ha. unfold Admin.serve, post. simpl. rewrite Ha. simpl.
    unfold Admin.answer.
    change (mkReq "POST" (Some (JObj fields)) true)
      with (snd (readJSON (mkReq "POST" (Some (JObj fields)) false))).
    now rewrite login_after_read.
  - intros target flag. destruct ctx as [cl n d u s].
    unfold Admin.change_staff, post, requireAuth, requireFields.
    destruct cl as [|[user|]]; try reflexivity. step.
    destruct (select_is_staff _ user db) as [e|caller]; [reflexivity|]. simpl.
    destruct (is_true caller); [|reflexivity]. step.
    destruct (update_user _ _ _ db) as [e|[updated db']]; reflexivity.
Qed.

Lemma admin_function_reads_body_twice_witness :
  Admin.serve (ctx_of root) (fun _ _ => inr (Some root))
    (post [("action", JStr "change_staff"); ("target_user_id", JUuid alice);
           ("is_staff", JBool true)]) sample_db
  = (Admin.Failed missing_staff_parameters, sample_db).
Proof.
  apply (proj1 (proj2 (admin_function_reads_body_twice (ctx_of root)
                         (fun _ _ => inr (Some root)) sample_db))).
  reflexivity.
Defined.

(** ** Logging out *)

(** X24. Only staff log out someone else. For an authenticated caller
    [logout] never writes to the store; when it answers, the user it signs
    out is the caller, unless the caller's own staff flag is true; a caller
    who is not staff and names another user is answered 403 and nothing is
    asked of the identity provider. The caller's own local logout goes
    through the caller's client, every other one through the service role
    with the scope asked for. *)
Theorem only_staff_log_out_others (ctx : Ctx) (user : Id) (db : Db)
  (scope : option string) (target : option Id) :
  caller ctx user ->
  snd (AuthFunction.logout ctx scope target db) = db
  /\ (forall out, fst (AuthFunction.logout ctx scope target db) = inr out ->
        AuthFunction.user_id out = default user target
        /\ (AuthFunction.user_id out <> user -> staff_flag db user = inr (Some true))
        /\ AuthFunction.asked out
           = (if String.eqb (or_text scope "local") "local" && negb (given target)
              then AuthFunction.signOut
              else AuthFunction.admin_signOut (default user target) (or_text scope "local")))
  /\ (forall other, target = Some other -> other <> user ->
        staff_flag db user <> inr (Some true) ->
        fst (AuthFunction.logout ctx scope target db)
        = inl (mkHttpError 403 "Insufficient permissions"))
  /\ (target = None \/ target = Some user \/ staff_flag db user = inr (Some true) ->
      exists out, fst (AuthFunction.logout ctx scope target db) = inr out).
Proof.
  intros Hc. destruct ctx as [cl n d u s]. unfold caller in Hc. simpl in Hc. subst cl.
  unfold staff_flag, AuthFunction.logout, requireAuth. step.
  destruct target as [t|]; simpl;
    [destruct (t =? user) eqn:E; simpl;
     [apply Nat.eqb_eq in E; subst t
     |apply Nat.eqb_neq in E;
      destruct (select_is_staff _ user db) as [e|[[|]|]] eqn:F; simpl]|];
    rewrite ?andb_false_r, ?andb_true_r;
    try destruct (String.eqb (or_text scope "local") "local") eqn:S; simpl.
  all: split; [reflexivity|].
  all: split;
    [intros out X; first [discriminate X | injection X as <-; simpl; now repeat split]|].
  all: split; [intros other X Hne Hns; first [discriminate X | reflexivity | congruence]|].
  all: intros X; first [eexists; reflexivity | exfalso; intuition congruence].
Qed.

Lemma only_staff_log_out_others_witness :
  fst (AuthFunction.logout (ctx_of alice) (Some "global") (Some bob) sample_db)
  = inl (mkHttpError 403 "Insufficient permissions")
  /\ fst (AuthFunction.logout (ctx_of root) (Some "global") (Some bob) sample_db)
     = inr (AuthFunction.mkLoggedOut (AuthFunction.admin_signOut bob "global") bob "global").
Proof.
  split.
  - apply (proj1 (proj2 (proj2 (only_staff_log_out_others (ctx_of alice) alice sample_db
                                  (Some "global") (Some bob) eq_refl))) bob);
      [reflexivity | discriminate | discriminate].
  - reflexivity.
Defined.

(** ** The owner's listings are complete *)




(** ** Writes on a row that is not the caller's *)

Lemma payment_not_own (ctx : Ctx) (user id : Id) (db : Db) :
  caller ctx user -> not_own_transaction db user id ->
  Cashflow.markAsPaid ctx id db = (inl NotFound_transaction, db)
  /\ Cashflow.markAsUnpaid ctx id db = (inl NotFound_transaction, db)
  /\ Cashflow.togglePaymentStatus ctx id db = (inl NotFound_transaction, db).
Proof.
  intros Hc Hno. destruct ctx as [cl n d u s]. unfold caller in Hc. simpl in Hc. subst cl.
  pose proof (own_transaction_none user id db Hno) as F.
  unfold Cashflow.markAsPaid, Cashflow.markAsUnpaid, Cashflow.togglePaymentStatus,
    Cashflow.fetchOwn, requireAuth.
  step. rewrite F. now repeat split.
Qed.

Lemma update_not_own (ctx : Ctx) (user id : Id) (db : Db) (body : TransactionPayload) :
  caller ctx user -> not_own_transaction db user id ->
  categories_pk db -> names_own_category db user (p_category_id body) ->
  Cashflow.updateTransaction ctx id body db = (inl (mkHttpError 400 PGRST116), db).
Proof.
  intros Hc Hno pk Hcat. destruct ctx as [cl n d u s]. unfold caller in Hc. simpl in Hc.
  subst cl. pose proof (own_transaction_none user id db Hno) as F.
  rewrite from_transactions_authed, filter_twice in F.
  unfold Cashflow.updateTransaction, Cashflow.validateCategory, requireAuth. step.
  assert (update_transaction (authedClientFrom (Some user))
            (fun t => (t_id t =? id) && (t_user_id t =? user))
            (Cashflow.updateData (mkCtx (authedClientFrom (Some user)) n d u s) body) db
          = inl PGRST116) as U.
  { unfold update_transaction. simpl. now rewrite F. }
  destruct (p_category_id body) as [cid|] eqn:E; simpl.
  - destruct (own_category_found user db cid pk Hcat) as (c & -> & _). simpl.
    now rewrite U.
  - now rewrite U.
Qed.

Lemma deleteCategory_not_own (ctx : Ctx) (user id : Id) (db : Db) :
  caller ctx user -> not_own_category db user id ->
  Cashflow.deleteCategory ctx id db = (inl NotFound_category, db).
Proof.
  intros Hc Hno. destruct ctx as [cl n d u s]. unfold caller in Hc. simpl in Hc. subst cl.
  unfold Cashflow.deleteCategory, requireAuth. step.
  now rewrite (own_category_none user id db Hno).
Qed.

(** X26. A write on a row that is not the caller's, absent or someone
    else's, changes nothing, for staff as for anyone, but the answers
    differ: the three payment routes answer 404, an update of the
    transaction answers 400 with the store's no-row error, a delete of the
    transaction answers success, and a delete of the category answers 404. *)
Theorem writes_on_a_foreign_row (ctx : Ctx) (user id : Id) (db : Db) :
  caller ctx user ->
  (not_own_transaction db user id ->
   Cashflow.markAsPaid ctx id db = (inl NotFound_transaction, db)
   /\ Cashflow.markAsUnpaid ctx id db = (inl NotFound_transaction, db)
   /\ Cashflow.togglePaymentStatus ctx id db = (inl NotFound_transaction, db)
   /\ (forall body,
         categories_pk db -> names_own_category db user (p_category_id body) ->
         Cashflow.updateTransaction ctx id body db = (inl (mkHttpError 400 PGRST116), db))
   /\ Cashflow.deleteTransaction ctx id db
      = (inr (successMessage "Transação deletada com sucesso"), db))
  /\ (not_own_category db user id ->
      Cashflow.deleteCategory ctx id db = (inl NotFound_category, db)).
Proof.
  intros Hc. split.
  - intros Hno. destruct (payment_not_own ctx user id db Hc Hno) as (P & U & T).
    repeat (split; [assumption|]). split.
    + intros body pk Hcat. now apply (update_not_own _ user).
    + rewrite (deleteTransaction_removes _ user) by exact Hc. f_equal.
      unfold remove_transaction. destruct db as [us cs ts]. simpl in *. f_equal.
      rewrite <- (filter_all (fun _ => true) ts) at 2 by reflexivity.
      apply filter_ext_in. intros t Ht. apply negb_true_iff, andb_false_iff.
      destruct (t_id t =? id) eqn:E; [right|now left].
      apply Nat.eqb_eq in E. apply Nat.eqb_neq. now apply Hno.
  - intros Hno. now apply (deleteCategory_not_own _ user).
Qed.

Lemma writes_on_a_foreign_row_witness :
  Cashflow.togglePaymentStatus (ctx_of root) 200 sample_db
  = (inl NotFound_transaction, sample_db).
Proof.
  apply (proj1 (writes_on_a_foreign_row (ctx_of root) root 200 sample_db eq_refl)).
  intros t [<-|[<-|[<-|[]]]]; simpl; intros E; discriminate.
Defined.

(** ** Paying and unpaying in turn *)

Lemma rewrite_transaction_pk (db : Db) (id : Id) (f : TransactionRow -> TransactionRow) :
  (forall r, t_id (f r) = t_id r) ->
  transactions_pk db -> transactions_pk (rewrite_transaction db id f).
Proof.
  intros Hf pk. unfold transactions_pk, rewrite_transaction. simpl.
  rewrite map_map. rewrite (map_ext _ t_id); [exact pk|].
  intros r. destruct (t_id r =? id); [apply Hf | reflexivity].
Qed.

Lemma rewrite_transaction_twice (db : Db) (id : Id) (f g : TransactionRow -> TransactionRow) :
  (forall r, t_id (f r) = t_id r) ->
  rewrite_transaction (rewrite_transaction db id f) id g
  = rewrite_transaction db id (fun r => g (f r)).
Proof.
  intros Hf. unfold rewrite_transaction. simpl. f_equal. rewrite map_map.
  apply map_ext. intros r. destruct (t_id r =? id) eqn:E; [|now rewrite E].
  now rewrite Hf, E.
Qed.

Lemma rewrite_transaction_same (db : Db) (t : TransactionRow)
  (f : TransactionRow -> TransactionRow) :
  transactions_pk db -> In t (tbl_transactions db) -> f t = t ->
  rewrite_transaction db (t_id t) f = db.
Proof.
  intros pk Hin Hf. unfold rewrite_transaction. destruct db as [us cs ts]. simpl in *.
  f_equal. rewrite <- (map_id ts) at 2. apply map_ext_in. intros r Hr.
  destruct (t_id r =? t_id t) eqn:E; [|reflexivity].
  apply Nat.eqb_eq in E. now rewrite (pk_unique t_id _ t r pk Hin Hr E).
Qed.

Lemma payment_stores (ctx : Ctx) (user : Id) (db : Db) (t : TransactionRow) :
  caller ctx user ->
  transactions_pk db -> In t (tbl_transactions db) -> t_user_id t = user ->
  (t_is_paid t = false ->
   snd (Cashflow.markAsPaid ctx (t_id t) db)
   = rewrite_transaction db (t_id t) (paid_at_time (now ctx)))
  /\ (t_is_paid t = true ->
      snd (Cashflow.markAsUnpaid ctx (t_id t) db) = rewrite_transaction db (t_id t) unpaid)
  /\ snd (Cashflow.togglePaymentStatus ctx (t_id t) db)
     = rewrite_transaction db (t_id t)
         (if t_is_paid t then unpaid else paid_at_time (now ctx)).
Proof.
  intros Hc pk Hin Hown.
  pose proof (fetch_own user db t pk Hin Hown) as F.
  pose proof (update_own user db t pk Hin Hown) as U.
  cbv zeta in F, U.
  destruct ctx as [c n d u s]. unfold caller in Hc. simpl in Hc. subst c.
  unfold paid_at_time, unpaid. simpl.
  split; [|split].
  - intros Hp. unfold Cashflow.markAsPaid, Cashflow.fetchOwn, Cashflow.writePayment.
    step. rewrite F. simpl. rewrite Hp.
    now rewrite (U (Cashflow.payment_update true (Some n))).
  - intros Hp. unfold Cashflow.markAsUnpaid, Cashflow.fetchOwn, Cashflow.writePayment.
    step. rewrite F. simpl. rewrite Hp. simpl.
    now rewrite (U (Cashflow.payment_update false None)).
  - unfold Cashflow.togglePaymentStatus, Cashflow.fetchOwn, Cashflow.writePayment.
    step. rewrite F. simpl.
    destruct (t_is_paid t); simpl.
    + now rewrite (U (Cashflow.payment_update false None)).
    + now rewrite (U (Cashflow.payment_update true (Some n))).
Qed.

(** X27. Paying and unpaying undo each other on an unpaid transaction:
    for a transaction the caller owns that is unpaid with no [paid_at],
    [markAsPaid] followed by [markAsUnpaid] leaves the store as it was, and
    so do two toggles. On a paid transaction the way back stamps anew:
    [markAsUnpaid] followed by [markAsPaid] leaves it paid at the time of
    the second request, the earlier [paid_at] being lost. (The rows of the
    store carry the columns the functions name; [updated_at], which a
    trigger stamps on every update, is not among them.) *)
Theorem paying_and_unpaying_in_turn (ctx1 ctx2 : Ctx) (user : Id) (db : Db)
  (t : TransactionRow) :
  caller ctx1 user -> caller ctx2 user ->
  transactions_pk db -> In t (tbl_transactions db) -> t_user_id t = user ->
  (t_is_paid t = false -> t_paid_at t = None ->
   snd (Cashflow.markAsUnpaid ctx2 (t_id t) (snd (Cashflow.markAsPaid ctx1 (t_id t) db))) = db
   /\ snd (Cashflow.togglePaymentStatus ctx2 (t_id t)
             (snd (Cashflow.togglePaymentStatus ctx1 (t_id t) db))) = db)
  /\ (t_is_paid t = true ->
      snd (Cashflow.markAsPaid ctx2 (t_id t) (snd (Cashflow.markAsUnpaid ctx1 (t_id t) db)))
      = rewrite_transaction db (t_id t) (paid_at_time (now ctx2))).
Proof.
  intros Hc1 Hc2 pk Hin Hown.
  destruct (payment_stores ctx1 user db t Hc1 pk Hin Hown) as (P1 & U1 & T1).
  assert (forall f, (forall r, t_id (f r) = t_id r) -> t_user_id (f t) = user ->
            let db1 := rewrite_transaction db (t_id t) f in
            transactions_pk db1 /\ In (f t) (tbl_transactions db1)) as Step.
  { intros f Hid Ho. split; [now apply rewrite_transaction_pk|].
    now apply rewrite_transaction_In. }
  split.
  - intros Hp Hat.
    assert (unpaid (paid_at_time (now ctx1) t) = t) as Back.
    { unfold unpaid, paid_at_time, apply_update. destruct t; simpl in *. now subst. }
    split.
    + rewrite (P1 Hp).
      destruct (Step (paid_at_time (now ctx1))) as (pk1 & In1); [reflexivity | exact Hown|].
      destruct (payment_stores ctx2 user _ _ Hc2 pk1 In1 Hown) as (_ & U2 & _).
      change (t_id (paid_at_time (now ctx1) t)) with (t_id t) in U2.
      rewrite (U2 eq_refl), rewrite_transaction_twice by reflexivity.
      now apply rewrite_transaction_same.
    + rewrite T1, Hp.
      destruct (Step (paid_at_time (now ctx1))) as (pk1 & In1); [reflexivity | exact Hown|].
      destruct (payment_stores ctx2 user _ _ Hc2 pk1 In1 Hown) as (_ & _ & T2).
      change (t_id (paid_at_time (now ctx1) t)) with (t_id t) in T2.
      rewrite T2, rewrite_transaction_twice by reflexivity.
      now apply rewrite_transaction_same.
  - intros Hp. rewrite (U1 Hp).
    destruct (Step unpaid) as (pk1 & In1); [reflexivity | exact Hown|].
    destruct (payment_stores ctx2 user _ _ Hc2 pk1 In1 Hown) as (P2 & _ & _).
    change (t_id (unpaid t)) with (t_id t) in P2.
    rewrite (P2 eq_refl), rewrite_transaction_twice by reflexivity.
    reflexivity.
Qed.

Lemma paying_and_unpaying_in_turn_witness :
  snd (Cashflow.markAsUnpaid (ctx_of alice) 101
         (snd (Cashflow.markAsPaid (ctx_of alice) 101 sample_db)))
  = sample_db.
Proof.
  refine (proj1 (proj1 (paying_and_unpaying_in_turn (ctx_of alice) (ctx_of alice) alice
                          sample_db tx_lunch _ _ _ _ _) _ _));
    try reflexivity.
  - apply sample_transactions_pk.
  - simpl. tauto.
Defined.

(** ** The two revisions of the [cashflow] function *)

Lemma accumulate_v1 (rows : list TransactionRow) (acc : Number * Number) :
  let amounts := fun p => map (fun t => number_of_amount (t_amount t)) (filter p rows) in
  fold_left CashflowV1.accumulate rows acc
  = (fold_left plus (amounts is_income) (fst acc),
     fold_left plus (amounts is_expense) (snd acc)).
Proof.
  cbv zeta. revert acc. induction rows as [|t rows IH]; intros [i e].
  - reflexivity.
  - rewrite !sum_where_cons. cbn [fold_left]. rewrite IH.
    unfold CashflowV1.accumulate, is_income, is_expense.
    destruct (t_type t); reflexivity.
Qed.

(** X28. The later revision kept the writes and the summary of the first
    for a body that carries no [is_paid]: create and update of a
    transaction answer and store the same, a body's [is_paid] being the only
    thing the first revision does not read; delete is the same handler; and
    the first summary is the later one's total income, total expenses and
    balance. A category of an allowed type whose name, type, colour and
    icon are already trimmed, the type in lower case, is created alike. *)
Theorem later_revision_keeps_the_first (ctx : Ctx) (db : Db) :
  (forall body,
      CashflowV1.createTransaction ctx body db
      = Cashflow.createTransaction ctx (without_is_paid body) db)
  /\ (forall id body,
        CashflowV1.updateTransaction ctx id body db
        = Cashflow.updateTransaction ctx id (without_is_paid body) db)
  /\ (forall id, CashflowV1.deleteTransaction ctx id db = Cashflow.deleteTransaction ctx id db)
  /\ (forall startDate endDate,
        CashflowV1.summary ctx startDate endDate db
        = answered brief (Cashflow.summary ctx startDate endDate db))
  /\ (forall body type t,
        sanitised body = true ->
        cp_type body = Some type -> parse_type type = Some t ->
        CashflowV1.createCategory ctx body db = Cashflow.createCategory ctx body db).
Proof.
  split; [|split; [|split; [|split]]].
  - intros body. reflexivity.
  - intros id body. reflexivity.
  - intros id. reflexivity.
  - intros startDate endDate. destruct ctx as [[|[user|]] n d u s]; try reflexivity.
    unfold CashflowV1.summary, Cashflow.summary, answered, brief, requireAuth. step.
    rewrite accumulate_v1, !accumulate_totals. reflexivity.
  - intros [[name|] [type|] color icon] ty t H Hty Hp; try discriminate Hty;
      [|destruct ctx as [[|[user|]] n d u s]; reflexivity].
    simpl in Hty. injection Hty as <-.
    unfold sanitised in H.
    apply andb_true_iff in H as (H & Hi). apply andb_true_iff in H as (H & Hc).
    apply andb_true_iff in H as (Hn & Ht). simpl in Hn, Ht.
    apply String.eqb_eq in Hn, Ht.
    assert (or_text (option_map trim color) "#3B82F6" = or_text color "#3B82F6") as Ec.
    { destruct color as [c|]; [|reflexivity]. simpl in Hc. apply String.eqb_eq in Hc.
      simpl. now rewrite Hc. }
    assert (or_text (option_map trim icon) "💰" = or_text icon "💰") as Ei.
    { destruct icon as [c|]; [|reflexivity]. simpl in Hi. apply String.eqb_eq in Hi.
      simpl. now rewrite Hi. }
    destruct ctx as [[|[user|]] n d u s]; try reflexivity.
    unfold CashflowV1.createCategory, Cashflow.createCategory, requireFields, requireAuth.
    step. destruct (String.eqb name EmptyString) eqn:N; [reflexivity|].
    destruct (String.eqb type EmptyString) eqn:T; [reflexivity|]. simpl.
    rewrite Ht, Hn, Hp, N, Ec, Ei. reflexivity.
Qed.




(** ** Profiles stay unique *)

Lemma update_user_unique (c : Client) (pred : UserRow -> bool) (cols : Body)
  (db db' : Db) (u' : UserRow) :
  update_user c pred cols db = inr (u', db') -> users_unique (tbl_users db') = true.
Proof.
  unfold update_user. destruct (filter _ _) as [|x [|]]; try discriminate.
  destruct (set_columns cols x); [discriminate|].
  destruct (users_unique _) eqn:U; [|discriminate]. now intros [= _ <-].
Qed.

Ltac unique_kept U :=
  first
    [ exact U
    | match goal with
      | H : update_user _ _ _ _ = inr _ |- _ => exact (update_user_unique _ _ _ _ _ _ H)
      | H : upsert_user _ _ _ = inr _ |- _ => exact (proj1 (upsert_user_cases _ _ _ _ _ H))
      | H : insert_category _ _ _ = inr _ |- _ =>
          now rewrite (proj1 (insert_category_inv _ _ _ _ _ H))
      | H : update_category _ _ _ _ = inr _ |- _ =>
          now rewrite (proj1 (update_category_inv _ _ _ _ _ _ H))
      | H : insert_transaction _ _ _ = inr _ |- _ =>
          now rewrite (proj1 (proj2 (insert_transaction_inv _ _ _ _ _ H)))
      | H : update_transaction _ _ _ _ = inr _ |- _ =>
          now rewrite (proj1 (update_transaction_inv _ _ _ _ _ _ H))
      end ].

Lemma serve_users_unique (ctx : Ctx) (req : Request) (db : Db) :
  users_unique (tbl_users db) = true ->
  users_unique (tbl_users (snd (serve ctx req db))) = true.
Proof.
  intros U. destruct ctx as [c n d u s].
  destruct req; handlers; unique_kept U.
Qed.

(** X30. Profiles stay unique: no request leaves two profiles with the
    same id, the same email or the same username, so in every store a
    session builds from the empty one they are unique, and a profile is found
    by its id at most once. *)
Theorem profiles_stay_unique (reqs : list (Ctx * Request)) :
  users_unique (tbl_users (run reqs empty_db)) = true
  /\ NoDup (map u_id (tbl_users (run reqs empty_db)))
  /\ (forall ctx req db,
        users_unique (tbl_users db) = true ->
        users_unique (tbl_users (snd (serve ctx req db))) = true).
Proof.
  assert (forall db, users_unique (tbl_users db) = true ->
            users_unique (tbl_users (run reqs db)) = true) as H.
  { induction reqs as [|[ctx req] reqs IH]; intros db U; simpl; [exact U|].
    apply IH, serve_users_unique, U. }
  split; [now apply H|]. split; [apply users_unique_pk; now apply H|].
  intros ctx req db. apply serve_users_unique.
Qed.
